(** * Neuron populations of [bindsnet/network/nodes/modules.py]

    A shallow embedding of the classes [Nodes], [IFNodes] and [LIFNodes]:
    the constructors, [set_dt], [reset_], [forward] and the restoration hook
    [_load_from_state_dict], together with the fragment of the tensor library
    they call and the default restoration of [torch.nn.Module] they extend.

    Python methods mutate [self] and may raise, so a method is a computation
    in a state-and-exception monad whose state is the object; calls into the
    numeric kernels of [functional.py] are recorded in a call log. *)

From Stdlib Require Import ZArith QArith List Bool Lia.
From stdpp Require Import list strings.

Local Open Scope Z_scope.

(** ** Exceptions and fallible values *)

Inductive exn : Type :=
| TypeError
| AssertionError
| KeyError
| IndexError
| RuntimeError.

Definition result (A : Type) : Type := (exn + A)%type.

Global Instance result_ret : MRet result := fun A x => inr x.
Global Instance result_bind : MBind result := fun A B f m =>
  match m with
  | inl e => inl e
  | inr a => f a
  end.

Definition raise_ {A : Type} (e : exn) : result A := inl e.

(** [functools.reduce(f, l)] called without an initial value: a [TypeError]
    on the empty sequence, otherwise a left fold seeded by the first item. *)
Definition reduce {A : Type} (f : A -> A -> A) (l : list A) : result A :=
  match l with
  | [] => raise_ TypeError
  | x :: xs => mret (fold_left f xs x)
  end.

(** The mathematical product of the extents of a shape. *)
Definition product (l : list Z) : Z := fold_right Z.mul 1 l.

(** ** Scalars

    Floating-point values are kept abstract: a carrier with the constants 0
    and 1, a multiplication, and the conversion of a Python float literal
    (a rational).  Rounding between numeric types is not modelled. *)

Class Scalar : Type := {
  scalar : Type;
  fzero : scalar;
  fone : scalar;
  fmul : scalar -> scalar -> scalar;
  of_float : Q -> scalar
}.

(** ** Numeric types and devices *)

Inductive torch_dtype : Type :=
| torch_bool | torch_uint8 | torch_int8 | torch_int16 | torch_int32
| torch_int64 | torch_float16 | torch_float32 | torch_float64.

Global Instance dtype_eq_dec : EqDecision torch_dtype.
Proof. solve_decision. Defined.

Inductive torch_device : Type :=
| cpu
| cuda (index : nat).

Global Instance device_eq_dec : EqDecision torch_device.
Proof. solve_decision. Defined.

Definition is_floating_point (d : torch_dtype) : bool :=
  match d with
  | torch_float16 | torch_float32 | torch_float64 => true
  | _ => false
  end.

(** Width order inside one category; [torch_uint8] and [torch_int8] share
    a rank and promote to [torch_int16] when they meet. *)
Definition dtype_rank (d : torch_dtype) : nat :=
  match d with
  | torch_bool => 0
  | torch_uint8 | torch_int8 => 1
  | torch_int16 => 2
  | torch_int32 => 3
  | torch_int64 => 4
  | torch_float16 => 5
  | torch_float32 => 6
  | torch_float64 => 7
  end.

Definition promote_types (a b : torch_dtype) : torch_dtype :=
  if decide (a = b) then a
  else match a, b with
       | torch_uint8, torch_int8 | torch_int8, torch_uint8 => torch_int16
       | _, _ => if (dtype_rank a <? dtype_rank b)%nat then b else a
       end.

(** ** Memory

    Whether a tensor of given extents can be allocated is decided by the
    machine, not by the program: the element count may overflow, or the
    memory may not hold the values.  The answer is an oracle. *)

Class Memory : Type := {
  available : list Z -> bool
}.

(** An extent the library can read: a Python integer that fits a signed
    64-bit integer. *)
Definition is_int64 (d : Z) : bool := (- 2 ^ 63 <=? d) && (d <? 2 ^ 63).

(** ** Tensors *)

Module Tensor.
Record t `{Scalar} : Type := mk {
  shape : list Z;
  dtype : torch_dtype;
  device : torch_device;
  data : list scalar;          (* row-major *)
  requires_grad : bool
}.

Section Ops.
Context `{Scalar}.

Definition ndim (x : t) : nat := length (shape x).

Definition set_data (d : list scalar) (x : t) : t :=
  mk _ (shape x) (dtype x) (device x) d (requires_grad x).

Definition set_requires_grad (g : bool) (x : t) : t :=
  mk _ (shape x) (dtype x) (device x) (data x) g.

Definition set_dtype (d : torch_dtype) (x : t) : t :=
  mk _ (shape x) d (device x) (data x) (requires_grad x).

(** A tensor is well formed when its extents are non-negative and it
    holds one value per position. *)
Definition wf (x : t) : Prop :=
  Forall (fun d => 0 <= d) (shape x) /\
  length (data x) = Z.to_nat (product (shape x)).
End Ops.
End Tensor.

(** A value passed for a [Union[float, torch.Tensor]] argument. *)
Inductive py_arg `{Scalar} : Type :=
| PyFloat (x : Q)
| PyTensor (x : Tensor.t).

(** ** The fragment of the tensor library used by the populations *)

Module torch.
Section Torch.
Context `{Scalar} `{Memory}.

(** [torch.FloatTensor()]: the empty one-dimensional float tensor. *)
Definition FloatTensor : Tensor.t :=
  Tensor.mk _ [0] torch_float32 cpu [] false.

(** [torch.zeros] applied to the unpacked extents.  The arguments are
    read first: no extent at all, or an extent that does not fit a signed
    64-bit integer, is a [TypeError].  Then a negative extent is a
    [RuntimeError], and so is a tensor the machine cannot allocate. *)
Definition zeros (size : list Z) (dt : torch_dtype) (dev : torch_device)
  : result Tensor.t :=
  match size with
  | [] => raise_ TypeError
  | _ :: _ =>
      if negb (forallb is_int64 size) then raise_ TypeError
      else if negb (forallb (fun d => 0 <=? d) size) then raise_ RuntimeError
      else if negb (available size) then raise_ RuntimeError
      else mret (Tensor.mk _ size dt dev
                   (repeat fzero (Z.to_nat (product size))) false)
  end.

Definition ones_like (x : Tensor.t) : Tensor.t :=
  Tensor.mk _ (Tensor.shape x) (Tensor.dtype x) (Tensor.device x)
    (repeat fone (Z.to_nat (product (Tensor.shape x)))) false.

(** [torch.tensor(x, dtype=..., requires_grad=...)]: a Python float
    becomes a zero-dimensional tensor of the given (or the default,
    float32) type on the CPU; a tensor is copied and cast. *)
Definition tensor (x : py_arg) (dt : option torch_dtype) (requires_grad : bool)
  : Tensor.t :=
  match x with
  | PyFloat q =>
      Tensor.mk _ [] (default torch_float32 dt) cpu [of_float q]
        requires_grad
  | PyTensor y =>
      Tensor.mk _ (Tensor.shape y) (default (Tensor.dtype y) dt)
        (Tensor.device y) (Tensor.data y) requires_grad
  end.

(** [torch.nn.Parameter(x, requires_grad=...)]. *)
Definition nn_Parameter (x : Tensor.t) (requires_grad : bool) : Tensor.t :=
  Tensor.set_requires_grad requires_grad x.

(** *** Broadcasting *)

(** Extents are matched from the last one backwards; the two lists are
    given reversed. *)
Fixpoint broadcast_rev (a b : list Z) : option (list Z) :=
  match a, b with
  | [], _ => Some b
  | _, [] => Some a
  | x :: a', y :: b' =>
      if x =? y then cons x <$> broadcast_rev a' b'
      else if x =? 1 then cons y <$> broadcast_rev a' b'
      else if y =? 1 then cons x <$> broadcast_rev a' b'
      else None
  end.

Definition broadcast_shapes (a b : list Z) : option (list Z) :=
  rev (A:=Z) <$> broadcast_rev (rev a) (rev b).

(** [count] consecutive blocks of [size] values. *)
Fixpoint chunks {A : Type} (count size : nat) (l : list A)
  : list (list A) :=
  match count with
  | O => []
  | S k => firstn size l :: chunks k size (skipn size l)
  end.

(** Expansion of row-major data from extents [src] to extents [tgt] of
    the same rank, where each source extent equals the target extent or
    is 1. *)
Fixpoint expand_aligned {A : Type} (src tgt : list Z) (l : list A)
  : list A :=
  match src, tgt with
  | d :: ds, e :: es =>
      if d =? e
      then concat (map (expand_aligned ds es)
                     (chunks (Z.to_nat d) (Z.to_nat (product ds)) l))
      else concat (repeat (expand_aligned ds es l) (Z.to_nat e))
  | _, _ => l
  end.

Definition pad_left (rank : nat) (src : list Z) : list Z :=
  repeat 1 (rank - length src)%nat ++ src.

Definition expand_data {A : Type} (src tgt : list Z) (l : list A)
  : list A :=
  expand_aligned (pad_left (length tgt) src) tgt l.

(** *** Result type and device of a binary operation *)

(** A dimensioned operand of a category at least as high as that of the
    zero-dimensional one decides the type alone. *)
Definition combine_categories (higher lower : torch_dtype) : torch_dtype :=
  if is_floating_point higher then higher
  else if bool_decide (higher = torch_bool) || is_floating_point lower
       then promote_types higher lower
       else higher.

Definition result_type (a b : Tensor.t) : torch_dtype :=
  match Tensor.ndim a, Tensor.ndim b with
  | O, S _ => combine_categories (Tensor.dtype b) (Tensor.dtype a)
  | S _, O => combine_categories (Tensor.dtype a) (Tensor.dtype b)
  | _, _ => promote_types (Tensor.dtype a) (Tensor.dtype b)
  end.

Definition is_cpu_scalar (x : Tensor.t) : bool :=
  bool_decide (Tensor.ndim x = O) && bool_decide (Tensor.device x = cpu).

(** Operands live on one device, except that a zero-dimensional CPU
    tensor combines with anything. *)
Definition result_device (a b : Tensor.t) : option torch_device :=
  if decide (Tensor.device a = Tensor.device b) then Some (Tensor.device a)
  else if is_cpu_scalar a then Some (Tensor.device b)
  else if is_cpu_scalar b then Some (Tensor.device a)
  else None.

(** [a * b] on tensors. *)
Definition mul (a b : Tensor.t) : result Tensor.t :=
  match broadcast_shapes (Tensor.shape a) (Tensor.shape b) with
  | None => raise_ RuntimeError
  | Some sh =>
      match result_device a b with
      | None => raise_ RuntimeError
      | Some dev =>
          mret (Tensor.mk _ sh (result_type a b) dev
                  (zip_with fmul
                     (expand_data (Tensor.shape a) sh (Tensor.data a))
                     (expand_data (Tensor.shape b) sh (Tensor.data b)))
                  (Tensor.requires_grad a || Tensor.requires_grad b))
      end
  end.

(** [dst.copy_(src)] for operands of equal shape: the values are
    replaced, type, device and gradient flag stay. *)
Definition copy_ (dst src : Tensor.t) : Tensor.t :=
  Tensor.set_data (Tensor.data src) dst.

(** [x[0]]: the first block along the first extent; an [IndexError] on
    a tensor without extent or with a first extent of 0. *)
Definition index0 (x : Tensor.t) : result Tensor.t :=
  match Tensor.shape x with
  | [] => raise_ IndexError
  | d :: rest =>
      if 0 <? d
      then mret (Tensor.mk _ rest (Tensor.dtype x) (Tensor.device x)
                   (firstn (Z.to_nat (product rest)) (Tensor.data x))
                   (Tensor.requires_grad x))
      else raise_ IndexError
  end.
End Torch.
End torch.

(** ** The numeric kernels of [functional.py]

    The kernels are consumed, not implemented, by the populations: they are
    arbitrary functions that return tensors or raise. *)

Module F.
Class kernels `{Scalar} : Type := {
  if_update : Tensor.t -> Tensor.t -> result Tensor.t;
  lif_update :
    Tensor.t -> Tensor.t -> Tensor.t -> Tensor.t -> result Tensor.t;
  super_spike_update :
    Tensor.t -> Tensor.t -> Tensor.t -> Tensor.t -> Tensor.t ->
    result (Tensor.t * Tensor.t)
}.
End F.

(** One entry of the call log per kernel invocation, with its arguments. *)
Inductive kernel_call `{Scalar} : Type :=
| call_if_update (x v : Tensor.t)
| call_lif_update (x v tc_decay rest : Tensor.t)
| call_super_spike_update (v thresh reset lbound scale : Tensor.t).

(** ** Methods as computations *)

Record Res `{Scalar} (St A : Type) : Type := MkRes {
  outcome : result A;            (* the value returned, or the exception *)
  final : St;                    (* the object when the method leaves *)
  calls : list kernel_call       (* the kernels invoked, oldest first *)
}.
Arguments MkRes {_ St A}.
Arguments outcome {_ St A}.
Arguments final {_ St A}.
Arguments calls {_ St A}.

Definition M `{Scalar} (St A : Type) : Type := St -> Res St A.

Global Instance M_ret `{Scalar} St : MRet (M St) :=
  fun A x st => MkRes (inr x) st [].

Global Instance M_bind `{Scalar} St : MBind (M St) :=
  fun A B f m st =>
    let r := m st in
    match outcome r with
    | inl e => MkRes (inl e) (final r) (calls r)
    | inr a =>
        let r' := f a (final r) in
        MkRes (outcome r') (final r') (calls r ++ calls r')
    end.

Section Monad.
Context `{Scalar} `{F.kernels}.

Definition get {St : Type} : M St St := fun st => MkRes (inr st) st [].

Definition modify {St : Type} (f : St -> St) : M St unit :=
  fun st => MkRes (inr tt) (f st) [].

Definition raise {St A : Type} (e : exn) : M St A :=
  fun st => MkRes (inl e) st [].

Definition lift {St A : Type} (r : result A) : M St A :=
  fun st => MkRes r st [].

(** Runs a method of a part of the object (the inherited fields, or the
    population inside a restoration in progress) in place. *)
Definition zoom {St Part A : Type} (proj : St -> Part)
    (upd : Part -> St -> St) (m : M Part A) : M St A :=
  fun st =>
    let r := m (proj st) in
    MkRes (outcome r) (upd (final r) st) (calls r).

Definition F_if_update {St : Type} (x v : Tensor.t) : M St Tensor.t :=
  fun st => MkRes (F.if_update x v) st [call_if_update x v].

Definition F_lif_update {St : Type} (x v tc_decay rest : Tensor.t)
  : M St Tensor.t :=
  fun st =>
    MkRes (F.lif_update x v tc_decay rest) st
      [call_lif_update x v tc_decay rest].

Definition F_super_spike_update {St : Type}
    (v thresh reset lbound scale : Tensor.t) : M St (Tensor.t * Tensor.t) :=
  fun st =>
    MkRes (F.super_spike_update v thresh reset lbound scale) st
      [call_super_spike_update v thresh reset lbound scale].

Fixpoint for_each {St A : Type} (l : list A) (body : A -> M St unit)
  : M St unit :=
  match l with
  | [] => mret tt
  | x :: l' => body x;; for_each l' body
  end.
End Monad.

(** ** What a population class provides

    [self.reset_] is resolved on the class of the object, and the default
    restoration walks the registered parameters and buffers of the object;
    both go through this interface. *)

Class NodesClass `{Scalar} (T : Type) : Type := {
  self_reset_ : option (list Z) -> M T unit;
  _parameters : T -> list (string * Tensor.t);
  _buffers : T -> list (string * Tensor.t);
  setattr_tensor : string -> Tensor.t -> T -> T
}.

(** ** The default restoration of [torch.nn.Module] *)

Inductive error_msg : Type :=
| size_mismatch (key : string) (checkpoint_shape current_shape : list Z).

(** The object under restoration and the three lists the caller passes in
    to collect the report. *)
Record load_state (T : Type) : Type := MkLoad {
  self : T;
  missing_keys : list string;
  unexpected_keys : list string;
  error_msgs : list error_msg
}.
Arguments MkLoad {T}.
Arguments self {T}.
Arguments missing_keys {T}.
Arguments unexpected_keys {T}.
Arguments error_msgs {T}.

(** A snapshot is a Python dictionary of tensors: an association list in
    the order of insertion, looked up by key. *)
Definition OrderedDict `{Scalar} : Type := list (string * Tensor.t).

Global Instance OrderedDict_lookup `{Scalar}
  : Lookup string Tensor.t OrderedDict :=
  fun key d => snd <$> find (fun kv => String.eqb (fst kv) key) d.

(** [state_dict.keys()]. *)
Definition keys `{Scalar} (d : OrderedDict) : list string := map fst d.

Module nn_Module.
Section Load.
Context `{Scalar} `{F.kernels} {T : Type} `{!NodesClass T}.

Definition set_self (x : T) (st : load_state T) : load_state T :=
  MkLoad x (missing_keys st) (unexpected_keys st) (error_msgs st).

Definition append_missing (k : string) (st : load_state T) : load_state T :=
  MkLoad (self st) (missing_keys st ++ [k]) (unexpected_keys st)
    (error_msgs st).

Definition append_unexpected (k : string) (st : load_state T)
  : load_state T :=
  MkLoad (self st) (missing_keys st) (unexpected_keys st ++ [k])
    (error_msgs st).

Definition append_error (e : error_msg) (st : load_state T) : load_state T :=
  MkLoad (self st) (missing_keys st) (unexpected_keys st)
    (error_msgs st ++ [e]).

(** Whether a name has a dot in it: [len(name.split(".", 1)) > 1]. *)
Fixpoint has_dot (k : string) : bool :=
  match k with
  | EmptyString => false
  | String c k' => Ascii.eqb c (Ascii.ascii_of_nat 46) || has_dot k'
  end.

(** The key under which a module stores its extra state. *)
Definition extra_state_key (prefix : string) : string :=
  prefix +:+ "_extra_state".

(** One round of the loop over the local parameters and buffers. *)
Definition load_entry (state_dict : OrderedDict) (prefix : string)
    (strict : bool) (entry : string * Tensor.t) : M (load_state T) unit :=
  let '(name, param) := entry in
  let key := prefix +:+ name in
  match state_dict !! key with
  | Some input_param =>
      input_param ←
        (if bool_decide (Tensor.ndim param = O)
            && bool_decide (Tensor.shape input_param = [1])
         then lift (torch.index0 input_param)
         else mret input_param);
      if bool_decide (Tensor.shape input_param = Tensor.shape param)
      then modify (fun st =>
             set_self (setattr_tensor name (torch.copy_ param input_param)
                         (self st)) st)
      else modify (append_error
             (size_mismatch key (Tensor.shape input_param)
                (Tensor.shape param)))
  | None =>
      if strict then modify (append_missing key) else mret tt
  end.

(** The report of the unknown entries under [strict].  The populations
    register no submodule and define no extra state, so the extra-state
    key, reported first, and every key with a dotted name are unknown; the
    other keys under the prefix are unknown unless they name a registered
    parameter or buffer. *)
Definition report_unexpected (state_dict : OrderedDict) (prefix : string)
    (local_names : list string) : M (load_state T) unit :=
  (if bool_decide (is_Some (state_dict !! extra_state_key prefix))
   then modify (append_unexpected (extra_state_key prefix))
   else mret tt);;
  for_each (keys state_dict) (fun key =>
    if String.prefix prefix key
       && negb (String.eqb key (extra_state_key prefix))
    then
      let input_name :=
        String.substring (String.length prefix)
          (String.length key - String.length prefix) key in
      if has_dot input_name
      then modify (append_unexpected key)
      else if bool_decide (input_name ∈ local_names)
      then mret tt
      else modify (append_unexpected key)
    else mret tt).

(** The library method the hook of [Nodes] extends: every registered
    parameter and buffer is copied from its entry when the shapes agree
    (an entry of the one extent 1 offered for a zero-dimensional tensor is
    unwrapped first), a disagreement is reported in [error_msgs], and under
    [strict] the absent and the unknown entries are reported. *)
Definition _load_from_state_dict {Meta : Type}
    (state_dict : OrderedDict) (prefix : string)
    (local_metadata : Meta) (strict : bool) : M (load_state T) unit :=
  st ← get;
  let local_state := _parameters (self st) ++ _buffers (self st) in
  for_each local_state (load_entry state_dict prefix strict);;
  if strict
  then report_unexpected state_dict prefix (map fst local_state)
  else mret tt.
End Load.
End nn_Module.

(** ** class Nodes *)

Module Nodes.
Record t `{Scalar} : Type := mk {
  dt : option Q;
  s : Tensor.t;                  (* the registered buffer "s" *)
  n : option Z;
  shape : option (list Z)
}.

Section Methods.
Context `{Scalar} `{Memory} `{F.kernels}.

Definition set_dt_attr (x : option Q) (self : t) : t :=
  mk _ x (s self) (n self) (shape self).

Definition set_s (x : Tensor.t) (self : t) : t :=
  mk _ (dt self) x (n self) (shape self).

Definition set_shape (x : option (list Z)) (self : t) : t :=
  mk _ (dt self) (s self) (n self) x.

(** The constructor: the object it leaves behind, or the exception. *)
Definition __init__ (n : option Z) (shape : option (list Z)) : result t :=
  let dt := None in
  let s := torch.FloatTensor in
  match n, shape with
  | None, None => mret (mk _ dt s None None)
  | _, _ =>
      self_n ←
        match n with
        | None => reduce Z.mul (default [] shape)
        | Some k => mret k
        end;
      let self_shape :=
        match shape with
        | None => [self_n]
        | Some sh => sh
        end in
      p ← reduce Z.mul self_shape;
      if self_n =? p
      then mret (mk _ dt s (Some self_n) (Some self_shape))
      else raise_ AssertionError
  end.

Definition set_dt (dt : Q) : M t unit :=
  modify (set_dt_attr (Some dt)).

Definition reset_ (shape : option (list Z)) : M t unit :=
  match shape with
  | Some sh => modify (set_shape (Some sh))
  | None => mret tt
  end;;
  self ← get;
  match Nodes.shape self with
  | None => mret tt
  | Some sh =>
      z ← lift (torch.zeros sh (Tensor.dtype (s self))
                  (Tensor.device (s self)));
      modify (set_s z)
  end.

(** The restoration hook, inherited unchanged by the subclasses:
    [self.reset_] is the method of the class of the object. *)
Definition _load_from_state_dict {T : Type} `{!NodesClass T} {Meta : Type}
    (state_dict : OrderedDict) (prefix : string)
    (local_metadata : Meta) (strict : bool) : M (load_state T) unit :=
  match state_dict !! (prefix +:+ "s") with
  | None => raise KeyError
  | Some spikes =>
      zoom self nn_Module.set_self
        (self_reset_ (Some (Tensor.shape spikes)));;
      nn_Module._load_from_state_dict state_dict prefix local_metadata strict
  end.

Global Instance Nodes_class : NodesClass t := {
  self_reset_ := reset_;
  _parameters := fun _ => [];
  _buffers := fun self => [("s", s self)];
  setattr_tensor := fun name x self =>
    if String.eqb name "s" then set_s x self else self
}.
End Methods.
End Nodes.

(** ** class IFNodes(Nodes) *)

Module IFNodes.
Record t `{Scalar} : Type := mk {
  base : Nodes.t;                (* the attributes inherited from Nodes *)
  reset : Tensor.t;              (* parameter "reset" *)
  thresh : Tensor.t;             (* parameter "thresh" *)
  lbound : Tensor.t;             (* parameter "lbound" *)
  scale : Tensor.t;              (* plain attribute *)
  v : Tensor.t                   (* the registered buffer "v" *)
}.

Section Methods.
Context `{Scalar} `{Memory} `{F.kernels}.

Definition set_base (x : Nodes.t) (self : t) : t :=
  mk _ x (reset self) (thresh self) (lbound self) (scale self) (v self).

Definition set_reset (x : Tensor.t) (self : t) : t :=
  mk _ (base self) x (thresh self) (lbound self) (scale self) (v self).

Definition set_thresh (x : Tensor.t) (self : t) : t :=
  mk _ (base self) (reset self) x (lbound self) (scale self) (v self).

Definition set_lbound (x : Tensor.t) (self : t) : t :=
  mk _ (base self) (reset self) (thresh self) x (scale self) (v self).

Definition set_v (x : Tensor.t) (self : t) : t :=
  mk _ (base self) (reset self) (thresh self) (lbound self) (scale self) x.

Definition set_s (x : Tensor.t) (self : t) : t :=
  set_base (Nodes.set_s x (base self)) self.

(** An omitted keyword argument is [None] here and takes its default. *)
Definition __init__ (n : option Z) (shape : option (list Z))
    (thresh reset lbound scale : option py_arg) : result t :=
  let thresh := default (PyFloat (-52.0)) thresh in
  let reset := default (PyFloat (-65.0)) reset in
  let lbound := default (PyFloat (-1e5)) lbound in
  let scale := default (PyFloat 100.0) scale in
  base ← Nodes.__init__ n shape;
  let self_reset :=
    torch.nn_Parameter (torch.tensor reset (Some torch_float32) false) true in
  let self_thresh :=
    torch.nn_Parameter (torch.tensor thresh (Some torch_float32) false) true in
  let self_lbound :=
    torch.nn_Parameter (torch.tensor lbound (Some torch_float32) false) true in
  let self_scale := torch.tensor scale None false in
  mret (mk _ base self_reset self_thresh self_lbound self_scale
          torch.FloatTensor).

Definition forward (x : Tensor.t) : M t Tensor.t :=
  self ← get;
  v1 ← F_if_update x (v self);
  modify (set_v v1);;
  self ← get;
  sv ← F_super_spike_update (v self) (thresh self) (reset self)
         (lbound self) (scale self);
  modify (set_s (fst sv));;
  modify (set_v (snd sv));;
  self ← get;
  mret (Nodes.s (base self)).

Definition reset_ (shape : option (list Z)) : M t unit :=
  zoom base set_base (Nodes.reset_ shape);;
  self ← get;
  v1 ← lift (torch.mul (reset self) (torch.ones_like (Nodes.s (base self))));
  modify (set_v v1).

Global Instance IFNodes_class : NodesClass t := {
  self_reset_ := reset_;
  _parameters := fun self =>
    [("reset", reset self); ("thresh", thresh self);
     ("lbound", lbound self)];
  _buffers := fun self => [("s", Nodes.s (base self)); ("v", v self)];
  setattr_tensor := fun name x self =>
    if String.eqb name "reset" then set_reset x self
    else if String.eqb name "thresh" then set_thresh x self
    else if String.eqb name "lbound" then set_lbound x self
    else if String.eqb name "s" then set_s x self
    else if String.eqb name "v" then set_v x self
    else self
}.
End Methods.
End IFNodes.

(** ** class LIFNodes(Nodes) *)

Module LIFNodes.
Record t `{Scalar} : Type := mk {
  base : Nodes.t;
  reset : Tensor.t;              (* parameter "reset" *)
  thresh : Tensor.t;             (* parameter "thresh" *)
  lbound : Tensor.t;             (* parameter "lbound" *)
  rest : Tensor.t;               (* parameter "rest" *)
  tc_decay : Tensor.t;           (* parameter "tc_decay" *)
  scale : Tensor.t;              (* plain attribute *)
  v : Tensor.t                   (* the registered buffer "v" *)
}.

Section Methods.
Context `{Scalar} `{Memory} `{F.kernels}.

Definition set_base (x : Nodes.t) (self : t) : t :=
  mk _ x (reset self) (thresh self) (lbound self) (rest self)
    (tc_decay self) (scale self) (v self).

Definition set_reset (x : Tensor.t) (self : t) : t :=
  mk _ (base self) x (thresh self) (lbound self) (rest self)
    (tc_decay self) (scale self) (v self).

Definition set_thresh (x : Tensor.t) (self : t) : t :=
  mk _ (base self) (reset self) x (lbound self) (rest self)
    (tc_decay self) (scale self) (v self).

Definition set_lbound (x : Tensor.t) (self : t) : t :=
  mk _ (base self) (reset self) (thresh self) x (rest self)
    (tc_decay self) (scale self) (v self).

Definition set_rest (x : Tensor.t) (self : t) : t :=
  mk _ (base self) (reset self) (thresh self) (lbound self) x
    (tc_decay self) (scale self) (v self).

Definition set_tc_decay (x : Tensor.t) (self : t) : t :=
  mk _ (base self) (reset self) (thresh self) (lbound self) (rest self)
    x (scale self) (v self).

Definition set_v (x : Tensor.t) (self : t) : t :=
  mk _ (base self) (reset self) (thresh self) (lbound self) (rest self)
    (tc_decay self) (scale self) x.

Definition set_s (x : Tensor.t) (self : t) : t :=
  set_base (Nodes.set_s x (base self)) self.

Definition __init__ (n : option Z) (shape : option (list Z))
    (thresh reset lbound rest tc_decay scale : option py_arg) : result t :=
  let thresh := default (PyFloat (-52.0)) thresh in
  let reset := default (PyFloat (-65.0)) reset in
  let lbound := default (PyFloat (-1e5)) lbound in
  let rest := default (PyFloat (-65.0)) rest in
  let tc_decay := default (PyFloat 100.0) tc_decay in
  let scale := default (PyFloat 100.0) scale in
  base ← Nodes.__init__ n shape;
  let param x :=
    torch.nn_Parameter (torch.tensor x (Some torch_float32) false) true in
  let self_scale := torch.tensor scale None false in
  mret (mk _ base (param reset) (param thresh) (param lbound) (param rest)
          (param tc_decay) self_scale torch.FloatTensor).

Definition forward (x : Tensor.t) : M t Tensor.t :=
  self ← get;
  v1 ← F_lif_update x (v self) (tc_decay self) (rest self);
  modify (set_v v1);;
  self ← get;
  sv ← F_super_spike_update (v self) (thresh self) (reset self)
         (lbound self) (scale self);
  modify (set_s (fst sv));;
  modify (set_v (snd sv));;
  self ← get;
  mret (Nodes.s (base self)).

Definition reset_ (shape : option (list Z)) : M t unit :=
  zoom base set_base (Nodes.reset_ shape);;
  self ← get;
  v1 ← lift (torch.mul (reset self) (torch.ones_like (Nodes.s (base self))));
  modify (set_v v1).

Global Instance LIFNodes_class : NodesClass t := {
  self_reset_ := reset_;
  _parameters := fun self =>
    [("reset", reset self); ("thresh", thresh self);
     ("lbound", lbound self); ("rest", rest self);
     ("tc_decay", tc_decay self)];
  _buffers := fun self => [("s", Nodes.s (base self)); ("v", v self)];
  setattr_tensor := fun name x self =>
    if String.eqb name "reset" then set_reset x self
    else if String.eqb name "thresh" then set_thresh x self
    else if String.eqb name "lbound" then set_lbound x self
    else if String.eqb name "rest" then set_rest x self
    else if String.eqb name "tc_decay" then set_tc_decay x self
    else if String.eqb name "s" then set_s x self
    else if String.eqb name "v" then set_v x self
    else self
}.
End Methods.
End LIFNodes.

(** ** A concrete carrier and concrete kernels

    Rationals stand for the float values that are exactly representable;
    they instantiate the development on concrete populations. *)

Definition Q_scalar : Scalar := {|
  scalar := Q;
  fzero := 0%Q;
  fone := 1%Q;
  fmul := Qmult;
  of_float := Qred
|}.

(** A machine that holds tensors of up to [2 ^ 20] values. *)
Definition small_machine : Memory := {|
  available := fun sh => product sh <=? 2 ^ 20
|}.

Module SpecKernels.
Section Kernels.
Local Existing Instance Q_scalar.
Let TensorQ : Type := @Tensor.t Q_scalar.

(** The values of a parameter at every position of a tensor of extents
    [sh], or nothing when the parameter does not broadcast to [sh]. *)
Definition values_at (sh : list Z) (p : TensorQ) : option (list Q) :=
  if bool_decide (torch.broadcast_shapes (Tensor.shape p) sh = Some sh)
  then Some (torch.expand_data (Tensor.shape p) sh (Tensor.data p))
  else None.

(** The previous voltage, an absent (empty) one read as zeros shaped like
    the drive. *)
Definition previous_voltage (x v : TensorQ) : option (list Q) :=
  match Tensor.data v with
  | [] => Some (repeat 0%Q (length (Tensor.data x)))
  | _ :: _ =>
      if bool_decide (Tensor.shape v = Tensor.shape x)
      then Some (Tensor.data v)
      else None
  end.

(** Modelled from the spec: [F.if_update] of [functional.py], the
    IntegrateKernel of section 6: the drive added to the previous voltage,
    with no decay term. *)
Definition if_update (x v : TensorQ) : result TensorQ :=
  match previous_voltage x v with
  | None => raise_ RuntimeError
  | Some prev =>
      mret (Tensor.set_data
              (zip_with (fun a b => Qred (a + b)) (Tensor.data x) prev) x)
  end.

(** Modelled from the spec: [F.lif_update] of [functional.py], the
    DecayKernel of section 6: the previous voltage relaxed toward the
    resting voltage by the fraction [1 / tc_decay] of its distance, then
    the drive added. *)
Definition lif_update (x v tc_decay rest : TensorQ) : result TensorQ :=
  match previous_voltage x v,
        values_at (Tensor.shape x) tc_decay,
        values_at (Tensor.shape x) rest with
  | Some prev, Some tcs, Some rests =>
      let relaxed :=
        zip_with (fun (p : Q) (tr : Q * Q) => Qred (p - (p - snd tr) / fst tr))
          prev (zip tcs rests) in
      mret (Tensor.set_data
              (zip_with (fun a b => Qred (a + b)) (Tensor.data x) relaxed) x)
  | _, _, _ => raise_ RuntimeError
  end.

(** Modelled from the spec: [F.super_spike_update] of [functional.py], the
    SpikeAndResetKernel of section 6: a spike where the voltage reaches
    the threshold, the voltage overwritten by the reset voltage there and
    then clamped from below; [scale] shapes the gradient only. *)
Definition super_spike_update (v thresh reset lbound scale : TensorQ)
  : result (TensorQ * TensorQ) :=
  match values_at (Tensor.shape v) thresh,
        values_at (Tensor.shape v) reset,
        values_at (Tensor.shape v) lbound with
  | Some ths, Some rs, Some lbs =>
      let fired := zip_with (fun u th => Qle_bool th u) (Tensor.data v) ths in
      let spikes := map (fun b : bool => if b then 1%Q else 0%Q) fired in
      let after_reset :=
        zip_with (fun (uf : Q * bool) (r : Q) => if snd uf then r else fst uf)
          (zip (Tensor.data v) fired) rs in
      let clamped :=
        zip_with (fun u lb => if Qle_bool lb u then u else lb)
          after_reset lbs in
      mret (Tensor.set_data spikes v, Tensor.set_data clamped v)
  | _, _, _ => raise_ RuntimeError
  end.

Definition kernels : @F.kernels Q_scalar := {|
  F.if_update := if_update;
  F.lif_update := lif_update;
  F.super_spike_update := super_spike_update
|}.
End Kernels.
End SpecKernels.

(** ** Concrete populations *)

Module Examples.
Section Concrete.
Local Existing Instance Q_scalar.
Local Existing Instance small_machine.
Local Existing Instance SpecKernels.kernels.

(** A one-dimensional float tensor on the CPU. *)
Definition vec (l : list Q) : Tensor.t :=
  Tensor.mk _ [Z.of_nat (length l)] torch_float32 cpu l false.

Definition scalar_param (q : Q) : Tensor.t :=
  Tensor.mk _ [] torch_float32 cpu [q] true.

(** [IFNodes()] and [LIFNodes()]: every argument omitted. *)
Definition fresh_IF : IFNodes.t :=
  IFNodes.mk _ (Nodes.mk _ None torch.FloatTensor None None)
    (scalar_param (-65)) (scalar_param (-52)) (scalar_param (-100000))
    (Tensor.mk _ [] torch_float32 cpu [100%Q] false) torch.FloatTensor.

Definition fresh_LIF : LIFNodes.t :=
  LIFNodes.mk _ (Nodes.mk _ None torch.FloatTensor None None)
    (scalar_param (-65)) (scalar_param (-52)) (scalar_param (-100000))
    (scalar_param (-65)) (scalar_param 100)
    (Tensor.mk _ [] torch_float32 cpu [100%Q] false) torch.FloatTensor.

(** [LIFNodes(reset=-70.0)]: a reset voltage below the resting voltage. *)
Definition low_reset_LIF : LIFNodes.t :=
  LIFNodes.set_reset (scalar_param (-70)) fresh_LIF.

(** [IFNodes(reset=torch.tensor([-65., -65., -65., -65.]))]: one reset
    voltage per neuron of a population of four, the shape deferred. *)
Definition per_neuron_IF : IFNodes.t :=
  IFNodes.set_reset
    (Tensor.set_requires_grad true
       (vec [(-65)%Q; (-65)%Q; (-65)%Q; (-65)%Q])) fresh_IF.

(** A drive below the threshold for two neurons. *)
Definition weak_drive : Tensor.t := vec [(-60)%Q; (-60)%Q].

(** A drive that makes the second of two neurons fire. *)
Definition mixed_drive : Tensor.t := vec [(-60)%Q; (-10)%Q].

(** The population [IFNodes()] after one update under [weak_drive]. *)
Definition stepped_IF : IFNodes.t := final (IFNodes.forward weak_drive fresh_IF).

(** A snapshot of a population of two neurons. *)
Definition snapshot : OrderedDict :=
  [("s", vec [0%Q; 1%Q]); ("v", vec [(-60)%Q; (-65)%Q])].

(** A snapshot whose voltage has other extents than its spikes. *)
Definition uneven_snapshot : OrderedDict :=
  [("s", vec [0%Q; 1%Q]); ("v", vec [1%Q; 2%Q; 3%Q])].
End Concrete.
End Examples.

(** ** Vocabulary of the statements *)

Section Vocabulary.
Context `{Scalar} `{Memory}.

(** The object once [reset_] has stored the shape it was given. *)
Definition reshaped (shape : option (list Z)) (self : Nodes.t) : Nodes.t :=
  match shape with
  | Some sh => Nodes.set_shape (Some sh) self
  | None => self
  end.

(** Extents [torch.zeros] accepts: at least one, each a non-negative
    signed 64-bit integer, and together a tensor the machine can hold. *)
Definition allocatable (sh : list Z) : Prop :=
  sh <> [] /\ Forall (fun d => 0 <= d < 2 ^ 63) sh /\ available sh = true.

(** The exception [torch.zeros] raises for extents it does not accept:
    the arguments are read before the tensor is created. *)
Definition refusal (sh : list Z) : exn :=
  if bool_decide (sh = []) || negb (forallb is_int64 sh)
  then TypeError
  else RuntimeError.

(** The spike buffer [reset_] allocates for the extents [sh]: zeros, of the
    numeric type and on the device of the buffer [old] it replaces. *)
Definition zero_spikes (sh : list Z) (old : Tensor.t) : Tensor.t :=
  Tensor.mk _ sh (Tensor.dtype old) (Tensor.device old)
    (repeat fzero (Z.to_nat (product sh))) false.

(** A source extent fits a target extent when it equals it or is 1. *)
Definition fits (d e : Z) : Prop := d = e \/ d = 1.

(** The reset voltage [r] can be broadcast to the extents [sh] next to a
    spike buffer [s]: it is well formed, broadcasting it against [sh] gives
    [sh], and it lives on the device of [s] or is a CPU scalar. *)
Definition broadcasts_to (r s : Tensor.t) (sh : list Z) : Prop :=
  Tensor.wf r /\
  torch.broadcast_shapes (Tensor.shape r) sh = Some sh /\
  (Tensor.device r = Tensor.device s \/ torch.is_cpu_scalar r = true).

End Vocabulary.

(** ** Inherited methods and further vocabulary *)

Section Inherited.
Context `{Scalar} `{Memory} `{F.kernels}.

(** [set_dt] is defined by [Nodes] only: on an object of a subclass it
    runs on the inherited attributes. *)
Definition IFNodes_set_dt (dt : Q) : M IFNodes.t unit :=
  zoom IFNodes.base IFNodes.set_base (Nodes.set_dt dt).

Definition LIFNodes_set_dt (dt : Q) : M LIFNodes.t unit :=
  zoom LIFNodes.base LIFNodes.set_base (Nodes.set_dt dt).

(** The neuron count and the shape agree: both unset, or the count is the
    product of a non-empty shape. *)
Definition consistent (b : Nodes.t) : Prop :=
  (Nodes.n b = None /\ Nodes.shape b = None) \/
  exists k sh,
    Nodes.n b = Some k /\ Nodes.shape b = Some sh /\ sh <> [] /\
    k = product sh.

(** What no method but the constructor writes. *)
Definition same_count_and_dt (b b' : Nodes.t) : Prop :=
  Nodes.n b' = Nodes.n b /\ Nodes.dt b' = Nodes.dt b.

(** The keys of the registered names that a snapshot lacks, in the order of
    registration. *)
Definition absent_keys (state_dict : OrderedDict) (prefix : string)
    (names : list string) : list string :=
  filter (fun key => state_dict !! key = None) (map (String.append prefix) names).

(** A zero-dimensional tensor on the CPU: one value, no extent. *)
Definition zero_dim (x : Tensor.t) : Prop :=
  Tensor.shape x = [] /\ Tensor.device x = cpu.
End Inherited.

(** ** The effect of the default restoration, entry by entry *)

Section Restoration.
Context `{Scalar} {T : Type} `{!NodesClass T}.

(** The restoration in progress once the default restoration has treated
    one registered tensor: an absent entry is reported under [strict]; an
    entry of the shape of the tensor (or of the one extent 1, for a
    zero-dimensional tensor) overwrites its values; any other entry is
    reported as a size mismatch. *)
Definition after_entry (state_dict : OrderedDict) (prefix : string)
    (strict : bool) (entry : string * Tensor.t) (st : load_state T)
  : load_state T :=
  let key := prefix +:+ fst entry in
  let param := snd entry in
  match state_dict !! key with
  | None => if strict then nn_Module.append_missing key st else st
  | Some input =>
      if bool_decide (Tensor.ndim param = O)
         && bool_decide (Tensor.shape input = [1])
      then nn_Module.set_self
             (setattr_tensor (fst entry)
                (Tensor.set_data (firstn 1 (Tensor.data input)) param)
                (self st)) st
      else if bool_decide (Tensor.shape input = Tensor.shape param)
      then nn_Module.set_self
             (setattr_tensor (fst entry) (torch.copy_ param input) (self st))
             st
      else nn_Module.append_error
             (size_mismatch key (Tensor.shape input) (Tensor.shape param)) st
  end.

Definition after_entries (state_dict : OrderedDict) (prefix : string)
    (strict : bool) (entries : list (string * Tensor.t))
    (st : load_state T) : load_state T :=
  fold_left (fun st' entry => after_entry state_dict prefix strict entry st')
    entries st.

(** The size mismatch the default restoration reports for the voltage
    entry of a snapshot, if any, when the voltage has the extents [sh]. *)
Definition voltage_mismatch (state_dict : OrderedDict) (prefix : string)
    (sh : list Z) : list error_msg :=
  match state_dict !! (prefix +:+ "v") with
  | Some tv =>
      if bool_decide (Tensor.shape tv = sh) then []
      else [size_mismatch (prefix +:+ "v") (Tensor.shape tv) sh]
  | None => []
  end.

(** The voltage after the default restoration, when it had the extents
    [sh] before: the values of a voltage entry of these extents, else the
    voltage as it was. *)
Definition restored_voltage (state_dict : OrderedDict) (prefix : string)
    (sh : list Z) (v : Tensor.t) : Tensor.t :=
  match state_dict !! (prefix +:+ "v") with
  | Some tv =>
      if bool_decide (Tensor.shape tv = sh) then torch.copy_ v tv else v
  | None => v
  end.
End Restoration.

(** ** Further concrete populations *)

Module MoreExamples.
Section Concrete.
Local Existing Instance Q_scalar.
Local Existing Instance small_machine.
Local Existing Instance SpecKernels.kernels.

(** A drive for three neurons. *)
Definition wide_drive : Tensor.t := Examples.vec [1%Q; 2%Q; 3%Q].

(** [IFNodes(thresh=torch.tensor([-52., -52., -52.]))]: one threshold per
    neuron of a population of three. *)
Definition per_neuron_thresh_IF : IFNodes.t :=
  IFNodes.set_thresh
    (Tensor.set_requires_grad true
       (Examples.vec [(-52)%Q; (-52)%Q; (-52)%Q])) Examples.fresh_IF.

(** [Nodes(n=6, shape=[2, 3])], [IFNodes(n=6, shape=[2, 3])] and
    [LIFNodes(n=6, shape=[2, 3])]. *)
Definition grid_Nodes : Nodes.t :=
  Nodes.mk _ None torch.FloatTensor (Some 6) (Some [2; 3]).

Definition grid_IF : IFNodes.t :=
  IFNodes.set_base grid_Nodes Examples.fresh_IF.

Definition grid_LIF : LIFNodes.t :=
  LIFNodes.set_base grid_Nodes Examples.fresh_LIF.

(** A snapshot of a population of two integrate-and-fire neurons with an
    entry for each registered tensor. *)
Definition full_snapshot : OrderedDict :=
  [("reset", Examples.scalar_param (-70));
   ("thresh", Examples.scalar_param (-50));
   ("lbound", Examples.scalar_param (-1000))] ++ Examples.snapshot.

(** The same for a leaky population. *)
Definition full_snapshot_LIF : OrderedDict :=
  [("rest", Examples.scalar_param (-68));
   ("tc_decay", Examples.scalar_param 50)] ++ full_snapshot.
End Concrete.
End MoreExamples.

(** * Properties *)

(** Unfolds the operations of the two monads. *)
Ltac unfold_monad :=
  unfold mbind, mret, result_bind, result_ret, M_bind, M_ret, raise_,
    get, modify, raise, lift, zoom in *.

Section Properties.
Context {Sc : Scalar} {Mem : Memory} {Ker : F.kernels}.

(** ** Running a sequence *)

Lemma bind_run {St A B : Type} (m : M St A) (f : A -> M St B) (st : St) :
  (m ≫= f) st =
  match outcome (m st) with
  | inl e => MkRes (inl e) (final (m st)) (calls (m st))
  | inr a =>
      MkRes (outcome (f a (final (m st)))) (final (f a (final (m st))))
        (calls (m st) ++ calls (f a (final (m st))))
  end.
Proof. reflexivity. Qed.

Lemma ret_run {St A : Type} (a : A) (st : St) :
  (mret a : M St A) st = MkRes (inr a) st [].
Proof. reflexivity. Qed.

Lemma modify_run {St : Type} (f : St -> St) (st : St) :
  modify f st = MkRes (inr tt) (f st) [].
Proof. reflexivity. Qed.

(** ** Products of extents *)

Lemma fold_left_mul_product (l : list Z) (a : Z) :
  fold_left Z.mul l a = a * product l.
Proof.
  revert a; induction l as [|x l IH]; intros a; simpl.
  - lia.
  - rewrite IH. unfold product. simpl. lia.
Qed.

Lemma reduce_mul_product (l : list Z) :
  l <> [] -> reduce Z.mul l = inr (product l).
Proof.
  destruct l as [|x l]; [congruence|]. intros _.
  unfold reduce, mret, result_ret. f_equal.
  rewrite fold_left_mul_product. reflexivity.
Qed.

Lemma reduce_mul_singleton (k : Z) : reduce Z.mul [k] = inr k.
Proof. reflexivity. Qed.

(** ** Construction *)

Lemma Nodes_init_neither :
  Nodes.__init__ None None = inr (Nodes.mk _ None torch.FloatTensor None None).
Proof. reflexivity. Qed.

Lemma Nodes_init_only_n (k : Z) :
  Nodes.__init__ (Some k) None =
  inr (Nodes.mk _ None torch.FloatTensor (Some k) (Some [k])).
Proof.
  unfold Nodes.__init__. simpl. rewrite Z.eqb_refl. reflexivity.
Qed.

Lemma Nodes_init_only_shape (sh : list Z) :
  sh <> [] ->
  Nodes.__init__ None (Some sh) =
  inr (Nodes.mk _ None torch.FloatTensor (Some (product sh)) (Some sh)).
Proof.
  intros Hsh. unfold Nodes.__init__. simpl.
  rewrite (reduce_mul_product sh Hsh). simpl.
  rewrite Z.eqb_refl. reflexivity.
Qed.

Lemma Nodes_init_both (k : Z) (sh : list Z) :
  sh <> [] ->
  Nodes.__init__ (Some k) (Some sh) =
  if k =? product sh
  then inr (Nodes.mk _ None torch.FloatTensor (Some k) (Some sh))
  else inl AssertionError.
Proof.
  intros Hsh. unfold Nodes.__init__. simpl.
  rewrite (reduce_mul_product sh Hsh). simpl. reflexivity.
Qed.

Lemma Nodes_init_empty_shape (n : option Z) :
  Nodes.__init__ n (Some []) = inl TypeError.
Proof. destruct n; reflexivity. Qed.

(** Whatever a constructor leaves behind satisfies the asserted relation
    between the neuron count and the shape. *)
Lemma Nodes_init_invariant (n : option Z) (shape : option (list Z))
    (self : Nodes.t) :
  Nodes.__init__ n shape = inr self ->
  match Nodes.n self, Nodes.shape self with
  | Some k, Some sh => k = product sh
  | None, None => True
  | _, _ => False
  end.
Proof.
  destruct shape as [sh|], n as [k|].
  - destruct sh as [|d sh]; [rewrite Nodes_init_empty_shape; discriminate|].
    rewrite Nodes_init_both by discriminate.
    destruct (Z.eqb_spec k (product (d :: sh))); [|discriminate].
    intros [= <-]. simpl. assumption.
  - destruct sh as [|d sh]; [rewrite Nodes_init_empty_shape; discriminate|].
    rewrite Nodes_init_only_shape by discriminate.
    intros [= <-]. reflexivity.
  - rewrite Nodes_init_only_n. intros [= <-]. simpl.
    unfold product. simpl. lia.
  - rewrite Nodes_init_neither. intros [= <-]. exact I.
Qed.

Lemma IFNodes_init_fails_with_base (n : option Z) (shape : option (list Z))
    (thresh reset lbound scale : option py_arg) (e : exn) :
  IFNodes.__init__ n shape thresh reset lbound scale = inl e <->
  Nodes.__init__ n shape = inl e.
Proof.
  unfold IFNodes.__init__.
  destruct (Nodes.__init__ n shape) as [e'|b]; unfold_monad; split;
    congruence.
Qed.

Lemma LIFNodes_init_fails_with_base (n : option Z) (shape : option (list Z))
    (thresh reset lbound rest tc_decay scale : option py_arg) (e : exn) :
  LIFNodes.__init__ n shape thresh reset lbound rest tc_decay scale = inl e
  <-> Nodes.__init__ n shape = inl e.
Proof.
  unfold LIFNodes.__init__.
  destruct (Nodes.__init__ n shape) as [e'|b]; unfold_monad; split;
    congruence.
Qed.

(** C3, amended: for a shape that is not the empty sequence, construction
    raises the assertion failure exactly when both the count and the shape
    are supplied and the count differs from the product of the shape; a
    consistent pair is accepted and the shape is stored as supplied; and
    construction succeeds when at most one of the two is supplied. *)
Theorem C3_construction_nonempty_shape
    (n : option Z) (shape : option (list Z)) :
  shape <> Some [] ->
  (Nodes.__init__ n shape = inl AssertionError <->
     exists k sh, n = Some k /\ shape = Some sh /\ k <> product sh) /\
  (forall k sh, n = Some k -> shape = Some sh -> k = product sh ->
     exists self, Nodes.__init__ n shape = inr self /\
                  Nodes.shape self = Some sh /\ Nodes.n self = Some k) /\
  (n = None \/ shape = None ->
     exists self, Nodes.__init__ n shape = inr self) /\
  (forall e, Nodes.__init__ n shape = inl e -> e = AssertionError).
Proof.
  intros Hne.
  assert (Hcase :
    (exists k sh, n = Some k /\ shape = Some sh /\ sh <> [] /\
       Nodes.__init__ n shape =
       if k =? product sh
       then inr (Nodes.mk _ None torch.FloatTensor (Some k) (Some sh))
       else inl AssertionError) \/
    ((n = None \/ shape = None) /\
       exists self, Nodes.__init__ n shape = inr self)).
  { destruct n as [k|], shape as [sh|].
    - left. exists k, sh. assert (sh <> []) by congruence.
      repeat split; try assumption. apply Nodes_init_both; assumption.
    - right. split; [right; reflexivity|]. eexists. apply Nodes_init_only_n.
    - right. split; [left; reflexivity|]. eexists.
      apply Nodes_init_only_shape. congruence.
    - right. split; [left; reflexivity|]. eexists. apply Nodes_init_neither. }
  destruct Hcase as [(k & sh & -> & -> & Hsh & Heq)|[Hone [self Hself]]].
  - rewrite Heq. repeat split.
    + destruct (Z.eqb_spec k (product sh)); [discriminate|].
      intros _. exists k, sh. repeat split; assumption.
    + intros (k' & sh' & [= <-] & [= <-] & Hk).
      destruct (Z.eqb_spec k (product sh)); [contradiction|reflexivity].
    + intros k' sh' [= <-] [= <-] Hk.
      destruct (Z.eqb_spec k (product sh)); [|contradiction].
      eexists. repeat split; reflexivity.
    + intros [?|?]; discriminate.
    + intros e. destruct (k =? product sh); congruence.
  - rewrite Hself. repeat split.
    + discriminate.
    + intros (k & sh & -> & -> & _). destruct Hone; discriminate.
    + intros k sh -> ->. destruct Hone; discriminate.
    + intros _. exists self. reflexivity.
    + discriminate.
Qed.
(** ** What [reset_] computes *)

Lemma Nodes_reset_eq (shape : option (list Z)) (self : Nodes.t) :
  Nodes.reset_ shape self =
  match Nodes.shape (reshaped shape self) with
  | None => MkRes (inr tt) (reshaped shape self) []
  | Some sh =>
      match torch.zeros sh (Tensor.dtype (Nodes.s self))
              (Tensor.device (Nodes.s self)) with
      | inl e => MkRes (inl e) (reshaped shape self) []
      | inr z => MkRes (inr tt) (Nodes.set_s z (reshaped shape self)) []
      end
  end.
Proof.
  unfold Nodes.reset_. destruct shape as [sh|]; unfold_monad; simpl.
  - destruct (torch.zeros sh _ _); reflexivity.
  - destruct (Nodes.shape self) as [sh|]; simpl; [|reflexivity].
    destruct (torch.zeros sh _ _); reflexivity.
Qed.

Lemma Nodes_reset_calls (shape : option (list Z)) (self : Nodes.t) :
  calls (Nodes.reset_ shape self) = [].
Proof.
  rewrite Nodes_reset_eq.
  destruct (Nodes.shape _); [destruct (torch.zeros _ _ _)|]; reflexivity.
Qed.

Lemma IFNodes_reset_eq (shape : option (list Z)) (self : IFNodes.t) :
  IFNodes.reset_ shape self =
  let rb := Nodes.reset_ shape (IFNodes.base self) in
  let self1 := IFNodes.set_base (final rb) self in
  match outcome rb with
  | inl e => MkRes (inl e) self1 []
  | inr _ =>
      match torch.mul (IFNodes.reset self)
              (torch.ones_like (Nodes.s (final rb))) with
      | inl e => MkRes (inl e) self1 []
      | inr v1 => MkRes (inr tt) (IFNodes.set_v v1 self1) []
      end
  end.
Proof.
  unfold IFNodes.reset_. unfold_monad. simpl.
  rewrite Nodes_reset_calls.
  destruct (outcome (Nodes.reset_ shape (IFNodes.base self))); [reflexivity|].
  simpl. destruct (torch.mul _ _); reflexivity.
Qed.

Lemma LIFNodes_reset_eq (shape : option (list Z)) (self : LIFNodes.t) :
  LIFNodes.reset_ shape self =
  let rb := Nodes.reset_ shape (LIFNodes.base self) in
  let self1 := LIFNodes.set_base (final rb) self in
  match outcome rb with
  | inl e => MkRes (inl e) self1 []
  | inr _ =>
      match torch.mul (LIFNodes.reset self)
              (torch.ones_like (Nodes.s (final rb))) with
      | inl e => MkRes (inl e) self1 []
      | inr v1 => MkRes (inr tt) (LIFNodes.set_v v1 self1) []
      end
  end.
Proof.
  unfold LIFNodes.reset_. unfold_monad. simpl.
  rewrite Nodes_reset_calls.
  destruct (outcome (Nodes.reset_ shape (LIFNodes.base self)));
    [reflexivity|].
  simpl. destruct (torch.mul _ _); reflexivity.
Qed.

(** No path through [reset_] assigns the neuron count. *)
Lemma Nodes_reset_n (shape : option (list Z)) (self : Nodes.t) :
  Nodes.n (final (Nodes.reset_ shape self)) = Nodes.n self.
Proof.
  rewrite Nodes_reset_eq.
  destruct shape as [sh|]; simpl.
  - destruct (torch.zeros sh _ _); reflexivity.
  - destruct (Nodes.shape self); [destruct (torch.zeros _ _ _)|]; reflexivity.
Qed.

Lemma Nodes_reset_shape (sh : list Z) (self : Nodes.t) :
  Nodes.shape (final (Nodes.reset_ (Some sh) self)) = Some sh.
Proof.
  rewrite Nodes_reset_eq. simpl. destruct (torch.zeros sh _ _); reflexivity.
Qed.

(** C1: [reset_] with a new shape stores the shape and leaves the neuron
    count as it was, so the relation the constructor asserts is lost: a
    population built with [n = 4] (shape [4]) and reset to the shape [2; 3]
    (which succeeds on every machine that holds six values) keeps the
    count 4 although the product of its shape is 6. *)
Theorem C1_reset_leaves_count_stale :
  (forall (self : Nodes.t) (sh : list Z),
     Nodes.shape (final (Nodes.reset_ (Some sh) self)) = Some sh /\
     Nodes.n (final (Nodes.reset_ (Some sh) self)) = Nodes.n self) /\
  exists self0 : Nodes.t,
    Nodes.__init__ (Some 4) None = inr self0 /\
    Nodes.n self0 = Some 4 /\ Nodes.shape self0 = Some [4] /\
    outcome (Nodes.reset_ (Some [2; 3]) self0) =
      (if available [2; 3] then inr tt else inl RuntimeError) /\
    Nodes.shape (final (Nodes.reset_ (Some [2; 3]) self0)) = Some [2; 3] /\
    Nodes.n (final (Nodes.reset_ (Some [2; 3]) self0)) = Some 4 /\
    product [2; 3] = 6.
Proof.
  split.
  - intros self sh. split; [apply Nodes_reset_shape|apply Nodes_reset_n].
  - eexists. split; [apply Nodes_init_only_n|].
    split; [reflexivity|]. split; [reflexivity|].
    split; [rewrite Nodes_reset_eq; cbn; destruct (available _); reflexivity|].
    split; [apply Nodes_reset_shape|].
    split; [rewrite Nodes_reset_n; reflexivity|reflexivity].
Qed.
(** ** Idempotence of [reset_] *)

Lemma zeros_inv (sh : list Z) (dt : torch_dtype) (dev : torch_device)
    (z : Tensor.t) :
  torch.zeros sh dt dev = inr z ->
  z = Tensor.mk _ sh dt dev (repeat fzero (Z.to_nat (product sh))) false.
Proof.
  unfold torch.zeros. destruct sh as [|d sh]; [discriminate|].
  destruct (negb (forallb is_int64 _)); [discriminate|].
  destruct (negb (forallb _ _)); [discriminate|].
  destruct (negb (available _)); [discriminate|].
  unfold_monad. congruence.
Qed.

Lemma Nodes_reset_again (shape : option (list Z)) (self : Nodes.t) :
  outcome (Nodes.reset_ shape self) = inr tt ->
  Nodes.reset_ shape (final (Nodes.reset_ shape self)) =
  Nodes.reset_ shape self.
Proof.
  rewrite (Nodes_reset_eq shape self).
  destruct shape as [sh|]; simpl.
  - destruct (torch.zeros sh _ _) as [e|z] eqn:Hz; [discriminate|].
    intros _. rewrite Nodes_reset_eq. simpl.
    rewrite (zeros_inv _ _ _ _ Hz) at 1 2. simpl.
    rewrite Hz. reflexivity.
  - destruct (Nodes.shape self) as [sh|] eqn:Hsh.
    + destruct (torch.zeros sh _ _) as [e|z] eqn:Hz; [discriminate|].
      intros _. rewrite Nodes_reset_eq. simpl. rewrite Hsh.
      rewrite (zeros_inv _ _ _ _ Hz) at 1 2. simpl.
      rewrite Hz. reflexivity.
    + intros _. rewrite Nodes_reset_eq. simpl. rewrite Hsh. reflexivity.
Qed.

Lemma IFNodes_reset_again (shape : option (list Z)) (self : IFNodes.t) :
  outcome (IFNodes.reset_ shape self) = inr tt ->
  IFNodes.reset_ shape (final (IFNodes.reset_ shape self)) =
  IFNodes.reset_ shape self.
Proof.
  rewrite (IFNodes_reset_eq shape self). cbv zeta.
  destruct (outcome (Nodes.reset_ shape (IFNodes.base self)))
    as [e|[]] eqn:Hb; [discriminate|].
  destruct (torch.mul _ _) as [e|v1] eqn:Hv; [discriminate|].
  intros _. rewrite IFNodes_reset_eq. cbv zeta. simpl.
  rewrite (Nodes_reset_again _ _ Hb). rewrite Hb, Hv. reflexivity.
Qed.

Lemma LIFNodes_reset_again (shape : option (list Z)) (self : LIFNodes.t) :
  outcome (LIFNodes.reset_ shape self) = inr tt ->
  LIFNodes.reset_ shape (final (LIFNodes.reset_ shape self)) =
  LIFNodes.reset_ shape self.
Proof.
  rewrite (LIFNodes_reset_eq shape self). cbv zeta.
  destruct (outcome (Nodes.reset_ shape (LIFNodes.base self)))
    as [e|[]] eqn:Hb; [discriminate|].
  destruct (torch.mul _ _) as [e|v1] eqn:Hv; [discriminate|].
  intros _. rewrite LIFNodes_reset_eq. cbv zeta. simpl.
  rewrite (Nodes_reset_again _ _ Hb). rewrite Hb, Hv. reflexivity.
Qed.

Lemma IFNodes_reset_calls (shape : option (list Z)) (self : IFNodes.t) :
  calls (IFNodes.reset_ shape self) = [].
Proof.
  rewrite IFNodes_reset_eq. cbv zeta.
  destruct (outcome _); [|destruct (torch.mul _ _)]; reflexivity.
Qed.

Lemma LIFNodes_reset_calls (shape : option (list Z)) (self : LIFNodes.t) :
  calls (LIFNodes.reset_ shape self) = [].
Proof.
  rewrite LIFNodes_reset_eq. cbv zeta.
  destruct (outcome _); [|destruct (torch.mul _ _)]; reflexivity.
Qed.

(** A method that logs nothing and, once it has succeeded, reproduces its
    own result when run again, can be run twice for the effect of once. *)
Lemma twice_is_once {St : Type} (m : M St unit) (st : St) :
  calls (m st) = [] ->
  (outcome (m st) = inr tt -> m (final (m st)) = m st) ->
  (m;; m) st = m st.
Proof.
  intros Hc Hagain. unfold_monad.
  destruct (m st) as [o f c] eqn:Hr. simpl in *. subst c.
  destruct o as [e|[]]; [reflexivity|].
  rewrite (Hagain eq_refl). reflexivity.
Qed.

(** C9: for every shape and each of the three classes, [reset_] called
    twice in a row with that shape ends in the state, the outcome and the
    call log of a single call. *)
Theorem C9_reset_idempotent (S : list Z) :
  (forall self : Nodes.t,
     (Nodes.reset_ (Some S);; Nodes.reset_ (Some S)) self =
     Nodes.reset_ (Some S) self) /\
  (forall self : IFNodes.t,
     (IFNodes.reset_ (Some S);; IFNodes.reset_ (Some S)) self =
     IFNodes.reset_ (Some S) self) /\
  (forall self : LIFNodes.t,
     (LIFNodes.reset_ (Some S);; LIFNodes.reset_ (Some S)) self =
     LIFNodes.reset_ (Some S) self).
Proof.
  repeat split; intros self; apply twice_is_once.
  - apply Nodes_reset_calls.
  - apply Nodes_reset_again.
  - apply IFNodes_reset_calls.
  - apply IFNodes_reset_again.
  - apply LIFNodes_reset_calls.
  - apply LIFNodes_reset_again.
Qed.
(** ** The per-timestep update *)

Lemma IFNodes_forward_eq (x : Tensor.t) (self : IFNodes.t) :
  IFNodes.forward x self =
  let c1 := call_if_update x (IFNodes.v self) in
  match F.if_update x (IFNodes.v self) with
  | inl e => MkRes (inl e) self [c1]
  | inr v1 =>
      let c2 :=
        call_super_spike_update v1 (IFNodes.thresh self)
          (IFNodes.reset self) (IFNodes.lbound self) (IFNodes.scale self) in
      match F.super_spike_update v1 (IFNodes.thresh self)
              (IFNodes.reset self) (IFNodes.lbound self)
              (IFNodes.scale self) with
      | inl e => MkRes (inl e) (IFNodes.set_v v1 self) [c1; c2]
      | inr sv =>
          MkRes (inr (fst sv))
            (IFNodes.set_v (snd sv) (IFNodes.set_s (fst sv) self)) [c1; c2]
      end
  end.
Proof.
  unfold IFNodes.forward, F_if_update, F_super_spike_update.
  unfold_monad. simpl.
  destruct (F.if_update x (IFNodes.v self)) as [e|v1]; [reflexivity|].
  simpl.
  destruct (F.super_spike_update v1 _ _ _ _) as [e|[s2 v2]]; reflexivity.
Qed.

Lemma LIFNodes_forward_eq (x : Tensor.t) (self : LIFNodes.t) :
  LIFNodes.forward x self =
  let c1 :=
    call_lif_update x (LIFNodes.v self) (LIFNodes.tc_decay self)
      (LIFNodes.rest self) in
  match F.lif_update x (LIFNodes.v self) (LIFNodes.tc_decay self)
          (LIFNodes.rest self) with
  | inl e => MkRes (inl e) self [c1]
  | inr v1 =>
      let c2 :=
        call_super_spike_update v1 (LIFNodes.thresh self)
          (LIFNodes.reset self) (LIFNodes.lbound self)
          (LIFNodes.scale self) in
      match F.super_spike_update v1 (LIFNodes.thresh self)
              (LIFNodes.reset self) (LIFNodes.lbound self)
              (LIFNodes.scale self) with
      | inl e => MkRes (inl e) (LIFNodes.set_v v1 self) [c1; c2]
      | inr sv =>
          MkRes (inr (fst sv))
            (LIFNodes.set_v (snd sv) (LIFNodes.set_s (fst sv) self))
            [c1; c2]
      end
  end.
Proof.
  unfold LIFNodes.forward, F_lif_update, F_super_spike_update.
  unfold_monad. simpl.
  destruct (F.lif_update x _ _ _) as [e|v1]; [reflexivity|].
  simpl.
  destruct (F.super_spike_update v1 _ _ _ _) as [e|[s2 v2]]; reflexivity.
Qed.

(** C7: when the two kernels return, an update calls exactly the
    voltage-update kernel of the model on the drive and the previous voltage
    (with the decay constant and the resting voltage for the leaky model)
    and then the spike-and-reset kernel on the new voltage, the threshold,
    the reset voltage, the lower bound and the scale; it returns the spikes
    and keeps the spikes and the voltage of the second kernel as state. *)
Theorem C7_forward_two_kernel_calls (x v1 s2 v2 : Tensor.t) :
  (forall self : IFNodes.t,
     F.if_update x (IFNodes.v self) = inr v1 ->
     F.super_spike_update v1 (IFNodes.thresh self) (IFNodes.reset self)
       (IFNodes.lbound self) (IFNodes.scale self) = inr (s2, v2) ->
     IFNodes.forward x self =
     MkRes (inr s2) (IFNodes.set_v v2 (IFNodes.set_s s2 self))
       [call_if_update x (IFNodes.v self);
        call_super_spike_update v1 (IFNodes.thresh self)
          (IFNodes.reset self) (IFNodes.lbound self) (IFNodes.scale self)])
  /\
  (forall self : LIFNodes.t,
     F.lif_update x (LIFNodes.v self) (LIFNodes.tc_decay self)
       (LIFNodes.rest self) = inr v1 ->
     F.super_spike_update v1 (LIFNodes.thresh self) (LIFNodes.reset self)
       (LIFNodes.lbound self) (LIFNodes.scale self) = inr (s2, v2) ->
     LIFNodes.forward x self =
     MkRes (inr s2) (LIFNodes.set_v v2 (LIFNodes.set_s s2 self))
       [call_lif_update x (LIFNodes.v self) (LIFNodes.tc_decay self)
          (LIFNodes.rest self);
        call_super_spike_update v1 (LIFNodes.thresh self)
          (LIFNodes.reset self) (LIFNodes.lbound self)
          (LIFNodes.scale self)]).
Proof.
  split; intros self Hup Hspike.
  - rewrite IFNodes_forward_eq. cbv zeta. rewrite Hup, Hspike. reflexivity.
  - rewrite LIFNodes_forward_eq. cbv zeta. rewrite Hup, Hspike. reflexivity.
Qed.

(** C10: whatever the kernels do, an update leaves the neuron count, the
    shape, the timestep and every parameter of the population as they
    were. *)
Theorem C10_forward_frame (x : Tensor.t) :
  (forall self : IFNodes.t,
     let self' := final (IFNodes.forward x self) in
     Nodes.n (IFNodes.base self') = Nodes.n (IFNodes.base self) /\
     Nodes.shape (IFNodes.base self') = Nodes.shape (IFNodes.base self) /\
     Nodes.dt (IFNodes.base self') = Nodes.dt (IFNodes.base self) /\
     IFNodes.thresh self' = IFNodes.thresh self /\
     IFNodes.reset self' = IFNodes.reset self /\
     IFNodes.lbound self' = IFNodes.lbound self /\
     IFNodes.scale self' = IFNodes.scale self) /\
  (forall self : LIFNodes.t,
     let self' := final (LIFNodes.forward x self) in
     Nodes.n (LIFNodes.base self') = Nodes.n (LIFNodes.base self) /\
     Nodes.shape (LIFNodes.base self') = Nodes.shape (LIFNodes.base self) /\
     Nodes.dt (LIFNodes.base self') = Nodes.dt (LIFNodes.base self) /\
     LIFNodes.thresh self' = LIFNodes.thresh self /\
     LIFNodes.reset self' = LIFNodes.reset self /\
     LIFNodes.lbound self' = LIFNodes.lbound self /\
     LIFNodes.scale self' = LIFNodes.scale self /\
     LIFNodes.rest self' = LIFNodes.rest self /\
     LIFNodes.tc_decay self' = LIFNodes.tc_decay self).
Proof.
  split; intros self; cbv zeta.
  - rewrite IFNodes_forward_eq. cbv zeta.
    destruct (F.if_update _ _) as [e|v1];
      [|destruct (F.super_spike_update _ _ _ _ _) as [e|sv]];
      repeat split; reflexivity.
  - rewrite LIFNodes_forward_eq. cbv zeta.
    destruct (F.lif_update _ _ _ _) as [e|v1];
      [|destruct (F.super_spike_update _ _ _ _ _) as [e|sv]];
      repeat split; reflexivity.
Qed.

(** ** Defaults of the constructors *)

(** C8: built without keyword arguments, both models hold the threshold
    -52.0, the reset voltage -65.0, the lower bound -1e5 and the scale
    100.0, the leaky model also the resting voltage -65.0 and the decay
    constant 100.0; each is a registered parameter that requires a gradient,
    except the scale, which is a plain tensor that requires none. *)
Theorem C8_default_parameters (n : option Z) (shape : option (list Z)) :
  let trainable q := Tensor.mk _ [] torch_float32 cpu [of_float q] true in
  let constant q := Tensor.mk _ [] torch_float32 cpu [of_float q] false in
  (forall self : IFNodes.t,
     IFNodes.__init__ n shape None None None None = inr self ->
     _parameters self =
       [("reset", trainable (-65.0)%Q); ("thresh", trainable (-52.0)%Q);
        ("lbound", trainable (-1e5)%Q)] /\
     IFNodes.thresh self = trainable (-52.0)%Q /\
     IFNodes.reset self = trainable (-65.0)%Q /\
     IFNodes.lbound self = trainable (-1e5)%Q /\
     IFNodes.scale self = constant 100.0%Q) /\
  (forall self : LIFNodes.t,
     LIFNodes.__init__ n shape None None None None None None = inr self ->
     _parameters self =
       [("reset", trainable (-65.0)%Q); ("thresh", trainable (-52.0)%Q);
        ("lbound", trainable (-1e5)%Q); ("rest", trainable (-65.0)%Q);
        ("tc_decay", trainable 100.0%Q)] /\
     LIFNodes.thresh self = trainable (-52.0)%Q /\
     LIFNodes.reset self = trainable (-65.0)%Q /\
     LIFNodes.lbound self = trainable (-1e5)%Q /\
     LIFNodes.rest self = trainable (-65.0)%Q /\
     LIFNodes.tc_decay self = trainable 100.0%Q /\
     LIFNodes.scale self = constant 100.0%Q).
Proof.
  cbv zeta. split; intros self.
  - unfold IFNodes.__init__.
    destruct (Nodes.__init__ n shape) as [e|b]; unfold_monad; [discriminate|].
    intros [= <-]. repeat split; reflexivity.
  - unfold LIFNodes.__init__.
    destruct (Nodes.__init__ n shape) as [e|b]; unfold_monad; [discriminate|].
    intros [= <-]. repeat split; reflexivity.
Qed.
(** ** Broadcasting *)

Local Arguments product : simpl never.

Lemma product_nonneg (l : list Z) :
  Forall (fun d => 0 <= d) l -> 0 <= product l.
Proof.
  induction 1 as [|d l Hd _ IH]; unfold product in *; simpl; lia.
Qed.

Lemma product_cons_nat (d : Z) (l : list Z) :
  0 <= d -> Forall (fun d => 0 <= d) l ->
  Z.to_nat (product (d :: l)) = (Z.to_nat d * Z.to_nat (product l))%nat.
Proof.
  intros Hd Hl. change (product (d :: l)) with (d * product l).
  apply Z2Nat.inj_mul; [assumption|apply product_nonneg; assumption].
Qed.

Lemma product_repeat_1 (k : nat) : product (repeat 1 k) = 1.
Proof. induction k as [|k IH]; [reflexivity|]. simpl repeat.
  change (product (1 :: repeat 1 k)) with (1 * product (repeat 1 k)). lia.
Qed.

Lemma product_app (l k : list Z) : product (l ++ k) = product l * product k.
Proof.
  induction l as [|d l IH]; simpl.
  - change (product []) with 1. lia.
  - change (product (d :: l ++ k)) with (d * product (l ++ k)).
    change (product (d :: l)) with (d * product l). rewrite IH. lia.
Qed.

Lemma chunks_length {A : Type} (k m : nat) (l : list A) :
  length (torch.chunks k m l) = k.
Proof. revert l; induction k as [|k IH]; intros l; simpl; auto. Qed.

Lemma chunks_each {A : Type} (k m : nat) (l : list A) :
  length l = (k * m)%nat ->
  Forall (fun c => length c = m) (torch.chunks k m l).
Proof.
  revert l; induction k as [|k IH]; intros l Hl; simpl; constructor.
  - rewrite length_firstn. lia.
  - apply IH. rewrite length_skipn. lia.
Qed.

Lemma chunks_concat {A : Type} (k m : nat) (l : list A) :
  length l = (k * m)%nat -> concat (torch.chunks k m l) = l.
Proof.
  revert l; induction k as [|k IH]; intros l Hl; simpl.
  - destruct l; [reflexivity|discriminate].
  - rewrite IH by (rewrite length_skipn; lia). apply firstn_skipn.
Qed.

Lemma concat_length_uniform {A : Type} (m : nat) (ls : list (list A)) :
  Forall (fun c => length c = m) ls ->
  length (concat ls) = (length ls * m)%nat.
Proof.
  induction 1 as [|c ls Hc _ IH]; simpl; [reflexivity|].
  rewrite length_app, IH, Hc. reflexivity.
Qed.

Lemma concat_repeat_repeat {A : Type} (x : A) (m k : nat) :
  concat (repeat (repeat x m) k) = repeat x (k * m).
Proof.
  induction k as [|k IH]; simpl; [reflexivity|].
  rewrite IH, repeat_app. reflexivity.
Qed.

Lemma fits_nonneg (src tgt : list Z) :
  Forall2 fits src tgt -> Forall (fun d => 0 <= d) tgt ->
  Forall (fun d => 0 <= d) src.
Proof.
  induction 1 as [|d e ds es Hde _ IH]; intros Ht; [constructor|].
  inversion Ht; subst. constructor; [|auto].
  destruct Hde; lia.
Qed.

(** Expanded data fills the target extents. *)
Lemma expand_aligned_length {A : Type} (src tgt : list Z) :
  Forall2 fits src tgt -> Forall (fun d => 0 <= d) tgt ->
  forall l : list A,
    length l = Z.to_nat (product src) ->
    length (torch.expand_aligned src tgt l) = Z.to_nat (product tgt).
Proof.
  induction 1 as [|d e ds es Hde Hrest IH]; intros Ht l Hl.
  - exact Hl.
  - inversion Ht as [|? ? He Hes]; subst.
    pose proof (fits_nonneg _ _ Hrest Hes) as Hds.
    simpl. destruct (Z.eqb_spec d e) as [-> | Hne].
    + rewrite product_cons_nat in Hl by assumption.
      rewrite (concat_length_uniform (Z.to_nat (product es))).
      * rewrite length_map, chunks_length.
        rewrite product_cons_nat by assumption. reflexivity.
      * apply Forall_map.
        eapply Forall_impl; [apply chunks_each; exact Hl|].
        intros c Hc. simpl. apply IH; assumption.
    + destruct Hde as [? | ->]; [contradiction|].
      rewrite product_cons_nat in Hl by (try lia; assumption).
      rewrite (concat_length_uniform (Z.to_nat (product es))).
      * rewrite repeat_length. rewrite product_cons_nat by assumption.
        reflexivity.
      * apply List.Forall_forall. intros c Hc. apply repeat_spec in Hc. subst c.
        apply IH; [assumption|]. rewrite Hl.
        change (Z.to_nat 1) with 1%nat. lia.
Qed.

(** Expansion to the extents the data already has changes nothing. *)
Lemma expand_aligned_same {A : Type} (sh : list Z) :
  Forall (fun d => 0 <= d) sh ->
  forall l : list A,
    length l = Z.to_nat (product sh) -> torch.expand_aligned sh sh l = l.
Proof.
  induction 1 as [|d sh Hd Hsh IH]; intros l Hl; [reflexivity|].
  simpl. rewrite Z.eqb_refl.
  rewrite product_cons_nat in Hl by assumption.
  pose proof (chunks_each _ _ _ Hl) as Hc.
  rewrite <- (chunks_concat _ _ _ Hl) at 2. f_equal.
  induction Hc as [|c cs Hlen _ IHc]; simpl; [reflexivity|].
  rewrite IH by assumption. f_equal. exact IHc.
Qed.

Lemma expand_aligned_cons {A : Type} (d e : Z) (ds es : list Z)
    (l : list A) :
  torch.expand_aligned (d :: ds) (e :: es) l =
  if d =? e
  then concat (map (torch.expand_aligned ds es)
                 (torch.chunks (Z.to_nat d) (Z.to_nat (product ds)) l))
  else concat (repeat (torch.expand_aligned ds es l) (Z.to_nat e)).
Proof. reflexivity. Qed.

(** A single value expands to that value at every position. *)
Lemma expand_aligned_scalar {A : Type} (q : A) (sh : list Z) :
  Forall (fun d => 0 <= d) sh ->
  torch.expand_aligned (repeat 1 (length sh)) sh [q] =
  repeat q (Z.to_nat (product sh)).
Proof.
  induction 1 as [|d sh Hd Hsh IH]; [reflexivity|].
  change (repeat 1 (length (d :: sh))) with (1 :: repeat 1 (length sh)).
  rewrite expand_aligned_cons, product_repeat_1.
  rewrite product_cons_nat by assumption.
  destruct (Z.eqb_spec 1 d) as [<- | Hne].
  - change (Z.to_nat 1) with 1%nat. cbn [torch.chunks map concat firstn].
    rewrite IH, app_nil_r, Nat.mul_1_l. reflexivity.
  - rewrite IH. apply concat_repeat_repeat.
Qed.

Lemma pad_left_same (sh : list Z) : torch.pad_left (length sh) sh = sh.
Proof. unfold torch.pad_left. rewrite Nat.sub_diag. reflexivity. Qed.

Lemma pad_left_scalar (k : nat) : torch.pad_left k [] = repeat 1 k.
Proof.
  unfold torch.pad_left. simpl. rewrite Nat.sub_0_r. apply app_nil_r.
Qed.

Lemma Forall2_rev_intro {A B : Type} (P : A -> B -> Prop)
    (l : list A) (k : list B) :
  Forall2 P l k -> Forall2 P (rev l) (rev k).
Proof.
  induction 1 as [|x y l k Hxy _ IH]; simpl; [constructor|].
  apply Forall2_app; [exact IH|]. constructor; [exact Hxy|constructor].
Qed.

Lemma broadcast_rev_fits (a b : list Z) :
  torch.broadcast_rev a b = Some b ->
  (length a <= length b)%nat /\
  Forall2 fits (a ++ repeat 1 (length b - length a)) b.
Proof.
  revert b; induction a as [|x a IH]; intros b Hb.
  - split; [simpl; lia|]. simpl. rewrite Nat.sub_0_r.
    clear Hb. induction b as [|y b IHb]; simpl; constructor;
      [right; reflexivity|exact IHb].
  - destruct b as [|y b]; [discriminate|]. simpl in Hb.
    assert (Hrec : forall z, cons z <$> torch.broadcast_rev a b = Some (y :: b)
              -> z = y /\ torch.broadcast_rev a b = Some b).
    { intros z Hz. destruct (torch.broadcast_rev a b) as [c|];
        [|discriminate].
      simpl in Hz. injection Hz as -> ->. split; reflexivity. }
    destruct (Z.eqb_spec x y) as [-> | Hxy].
    + apply Hrec in Hb as [_ Hb]. apply IH in Hb as [Hlen Hfit].
      split; [simpl; lia|]. simpl. constructor; [left; reflexivity|exact Hfit].
    + destruct (Z.eqb_spec x 1) as [-> | Hx1].
      * apply Hrec in Hb as [_ Hb]. apply IH in Hb as [Hlen Hfit].
        split; [simpl; lia|]. simpl.
        constructor; [right; reflexivity|exact Hfit].
      * destruct (Z.eqb_spec y 1) as [-> | Hy1]; [|discriminate].
        apply Hrec in Hb as [Hb _]. contradiction.
Qed.

Lemma broadcast_shapes_fits (a sh : list Z) :
  torch.broadcast_shapes a sh = Some sh ->
  Forall2 fits (torch.pad_left (length sh) a) sh.
Proof.
  unfold torch.broadcast_shapes. intros Hb.
  destruct (torch.broadcast_rev (rev a) (rev sh)) as [c|] eqn:Hc;
    [|discriminate].
  simpl in Hb. injection Hb as Hb.
  assert (c = rev sh) by (rewrite <- Hb; symmetry; apply rev_involutive).
  subst c. apply broadcast_rev_fits in Hc as [_ Hfit].
  apply Forall2_rev_intro in Hfit.
  rewrite rev_app_distr, rev_repeat, !rev_involutive, !length_rev in Hfit.
  exact Hfit.
Qed.

Lemma product_pad_left (k : nat) (a : list Z) :
  product (torch.pad_left k a) = product a.
Proof.
  unfold torch.pad_left. rewrite product_app, product_repeat_1. lia.
Qed.

Lemma expand_data_length {A : Type} (a sh : list Z) (l : list A) :
  torch.broadcast_shapes a sh = Some sh ->
  Forall (fun d => 0 <= d) sh ->
  length l = Z.to_nat (product a) ->
  length (torch.expand_data a sh l) = Z.to_nat (product sh).
Proof.
  intros Hb Hsh Hl. unfold torch.expand_data.
  apply expand_aligned_length.
  - apply broadcast_shapes_fits; exact Hb.
  - exact Hsh.
  - rewrite product_pad_left. exact Hl.
Qed.

Lemma zip_with_fmul_ones (xs : list scalar) (k : nat) :
  (forall x, fmul x fone = x) -> length xs = k ->
  zip_with fmul xs (repeat fone k) = xs.
Proof.
  intros Hone. revert k; induction xs as [|x xs IH]; intros k Hk.
  - reflexivity.
  - destruct k as [|k]; [discriminate|]. simpl.
    rewrite Hone, IH by (simpl in Hk; lia). reflexivity.
Qed.
(** ** The state after [reset_] with a shape *)

Lemma zeros_allocatable (sh : list Z) (dt : torch_dtype)
    (dev : torch_device) :
  allocatable sh ->
  torch.zeros sh dt dev =
  inr (Tensor.mk _ sh dt dev (repeat fzero (Z.to_nat (product sh))) false).
Proof.
  intros (Hne & Hpos & Hmem). unfold torch.zeros.
  destruct sh as [|d sh]; [congruence|].
  replace (forallb is_int64 (d :: sh)) with true.
  - replace (forallb (fun d => 0 <=? d) (d :: sh)) with true.
    + rewrite Hmem. reflexivity.
    + symmetry. apply forallb_forall. intros x Hx.
      apply Z.leb_le. rewrite List.Forall_forall in Hpos. apply Hpos, Hx.
  - symmetry. apply forallb_forall. intros x Hx.
    rewrite List.Forall_forall in Hpos. specialize (Hpos x Hx).
    unfold is_int64. apply andb_true_iff. split; [apply Z.leb_le|apply Z.ltb_lt]; lia.
Qed.

Lemma allocatable_nonneg (sh : list Z) :
  allocatable sh -> Forall (fun d => 0 <= d) sh.
Proof.
  intros (_ & Hpos & _). eapply Forall_impl; [exact Hpos|].
  intros d Hd. simpl in Hd. lia.
Qed.

Lemma zeros_refused (sh : list Z) (dt : torch_dtype) (dev : torch_device) :
  ~ allocatable sh -> torch.zeros sh dt dev = inl (refusal sh).
Proof.
  intros Hno. destruct (torch.zeros sh dt dev) as [e|z] eqn:Hz.
  - revert Hz. unfold torch.zeros, refusal. destruct sh as [|d sh].
    + unfold_monad. intros [= <-]. reflexivity.
    + rewrite bool_decide_eq_false_2 by discriminate.
      cbn [orb]. destruct (negb (forallb is_int64 (d :: sh)));
        unfold_monad; [intros [= <-]; reflexivity|].
      destruct (negb (forallb (fun d => 0 <=? d) (d :: sh)));
        [intros [= <-]; reflexivity|].
      destruct (negb (available (d :: sh)));
        [intros [= <-]; reflexivity|discriminate].
  - exfalso. apply Hno. unfold torch.zeros in Hz.
    destruct sh as [|d sh]; [discriminate|].
    destruct (forallb is_int64 _) eqn:Hint; [|discriminate].
    destruct (forallb (fun d => 0 <=? d) _) eqn:Hall; [|discriminate].
    destruct (available _) eqn:Hmem; [|discriminate].
    split; [discriminate|]. split; [|exact Hmem].
    apply List.Forall_forall. intros x Hx.
    rewrite forallb_forall in Hall, Hint.
    specialize (Hall x Hx). specialize (Hint x Hx).
    apply Z.leb_le in Hall. unfold is_int64 in Hint.
    apply andb_true_iff in Hint. destruct Hint as [_ Hlt].
    apply Z.ltb_lt in Hlt. lia.
Qed.

Lemma Nodes_reset_refused (sh : list Z) (self : Nodes.t) :
  ~ allocatable sh ->
  Nodes.reset_ (Some sh) self =
  MkRes (inl (refusal sh)) (Nodes.set_shape (Some sh) self) [].
Proof.
  intros Hno. rewrite Nodes_reset_eq.
  cbn [reshaped Nodes.shape Nodes.set_shape].
  rewrite (zeros_refused _ _ _ Hno). reflexivity.
Qed.

Lemma Nodes_reset_allocatable (sh : list Z) (self : Nodes.t) :
  allocatable sh ->
  Nodes.reset_ (Some sh) self =
  MkRes (inr tt)
    (Nodes.set_s (zero_spikes sh (Nodes.s self))
       (Nodes.set_shape (Some sh) self)) [].
Proof.
  intros Hsh. rewrite Nodes_reset_eq. simpl.
  rewrite (zeros_allocatable _ _ _ Hsh). reflexivity.
Qed.

(** The reset voltage times the ones shaped like freshly allocated spikes:
    the reset voltage at every position of those extents. *)
Lemma mul_ones_like_zero_spikes (r s : Tensor.t) (sh : list Z) :
  (forall x, fmul x fone = x) ->
  Forall (fun d => 0 <= d) sh ->
  broadcasts_to r s sh ->
  exists t d,
    torch.mul r (torch.ones_like (zero_spikes sh s)) =
    inr (Tensor.mk _ sh t d
           (torch.expand_data (Tensor.shape r) sh (Tensor.data r))
           (Tensor.requires_grad r)).
Proof.
  intros Hone Hsh ([Hrpos Hrlen] & Hb & Hdev).
  unfold torch.mul, torch.ones_like, zero_spikes. simpl.
  rewrite Hb.
  assert (Hd : exists d,
    torch.result_device r
      (Tensor.mk _ sh (Tensor.dtype s) (Tensor.device s)
         (repeat fone (Z.to_nat (product sh))) false) = Some d).
  { unfold torch.result_device. simpl.
    destruct (decide (Tensor.device r = Tensor.device s)); [eauto|].
    destruct Hdev as [? | ->]; [contradiction|eauto]. }
  destruct Hd as [d ->]. eexists _, d. unfold_monad. f_equal. f_equal.
  - unfold torch.expand_data at 2. rewrite pad_left_same.
    rewrite expand_aligned_same
      by (try assumption; apply repeat_length).
    apply zip_with_fmul_ones; [exact Hone|].
    apply expand_data_length; assumption.
  - apply orb_false_r.
Qed.

Lemma LIFNodes_reset_ignores_rest (shape : option (list Z)) (x : Tensor.t)
    (self : LIFNodes.t) :
  LIFNodes.v (final (LIFNodes.reset_ shape (LIFNodes.set_rest x self))) =
  LIFNodes.v (final (LIFNodes.reset_ shape self)).
Proof.
  rewrite !LIFNodes_reset_eq. cbv zeta. simpl.
  destruct (outcome _); [reflexivity|].
  destruct (torch.mul _ _); reflexivity.
Qed.

(** ** [reset_] while the shape is unknown *)

(** C5, amended: while no shape is stored, [reset_] without a shape is a
    no-op of the base class; in the two models it leaves the spikes, the
    shape, the neuron count, the timestep and the parameters alone and
    raises nothing as long as the reset voltage multiplies with the spike
    buffer, but it still assigns the voltage, the reset voltage times ones
    shaped like the spikes; on a population just built with a float reset
    voltage that is again an empty tensor. *)
Theorem C5_reset_without_known_shape :
  (forall self : Nodes.t,
     Nodes.shape self = None ->
     Nodes.reset_ None self = MkRes (inr tt) self []) /\
  (forall self : IFNodes.t,
     Nodes.shape (IFNodes.base self) = None ->
     IFNodes.reset_ None self =
     match torch.mul (IFNodes.reset self)
             (torch.ones_like (Nodes.s (IFNodes.base self))) with
     | inl e => MkRes (inl e) self []
     | inr v1 => MkRes (inr tt) (IFNodes.set_v v1 self) []
     end) /\
  (forall self : LIFNodes.t,
     Nodes.shape (LIFNodes.base self) = None ->
     LIFNodes.reset_ None self =
     match torch.mul (LIFNodes.reset self)
             (torch.ones_like (Nodes.s (LIFNodes.base self))) with
     | inl e => MkRes (inl e) self []
     | inr v1 => MkRes (inr tt) (LIFNodes.set_v v1 self) []
     end) /\
  (forall (thresh lbound scale : option py_arg) (reset : option Q)
          (self : IFNodes.t),
     IFNodes.__init__ None None thresh (PyFloat <$> reset) lbound scale =
       inr self ->
     outcome (IFNodes.reset_ None self) = inr tt /\
     Tensor.shape (IFNodes.v (final (IFNodes.reset_ None self))) = [0] /\
     Tensor.data (IFNodes.v (final (IFNodes.reset_ None self))) = []) /\
  (forall (thresh lbound rest tc_decay scale : option py_arg)
          (reset : option Q) (self : LIFNodes.t),
     LIFNodes.__init__ None None thresh (PyFloat <$> reset) lbound rest
       tc_decay scale = inr self ->
     outcome (LIFNodes.reset_ None self) = inr tt /\
     Tensor.shape (LIFNodes.v (final (LIFNodes.reset_ None self))) = [0] /\
     Tensor.data (LIFNodes.v (final (LIFNodes.reset_ None self))) = []).
Proof.
  assert (Hbase : forall self : Nodes.t,
            Nodes.shape self = None ->
            Nodes.reset_ None self = MkRes (inr tt) self []).
  { intros self Hs. rewrite Nodes_reset_eq. simpl. rewrite Hs. reflexivity. }
  split; [exact Hbase|]. split; [|split; [|split]].
  - intros self Hs. rewrite IFNodes_reset_eq. cbv zeta.
    rewrite (Hbase _ Hs). simpl. destruct self. simpl.
    destruct (torch.mul _ _); reflexivity.
  - intros self Hs. rewrite LIFNodes_reset_eq. cbv zeta.
    rewrite (Hbase _ Hs). simpl. destruct self. simpl.
    destruct (torch.mul _ _); reflexivity.
  - intros thresh lbound scale reset self. unfold IFNodes.__init__.
    rewrite Nodes_init_neither. unfold_monad. intros [= <-].
    rewrite IFNodes_reset_eq. cbv zeta. rewrite Hbase by reflexivity.
    destruct reset; repeat split; reflexivity.
  - intros thresh lbound rest tc_decay scale reset self.
    unfold LIFNodes.__init__.
    rewrite Nodes_init_neither. unfold_monad. intros [= <-].
    rewrite LIFNodes_reset_eq. cbv zeta. rewrite Hbase by reflexivity.
    destruct reset; repeat split; reflexivity.
Qed.

(** ** Restoration from a snapshot *)

Lemma load_from_state_dict_eq {T : Type} `{!NodesClass T} {Meta : Type}
    (state_dict : OrderedDict) (prefix : string) (meta : Meta)
    (strict : bool) (st : load_state T) :
  Nodes._load_from_state_dict state_dict prefix meta strict st =
  match state_dict !! (prefix +:+ "s") with
  | None => MkRes (inl KeyError) st []
  | Some spikes =>
      let r := self_reset_ (Some (Tensor.shape spikes)) (self st) in
      let st1 := nn_Module.set_self (final r) st in
      match outcome r with
      | inl e => MkRes (inl e) st1 (calls r)
      | inr _ =>
          let r' :=
            nn_Module._load_from_state_dict state_dict prefix meta strict
              st1 in
          MkRes (outcome r') (final r') (calls r ++ calls r')
      end
  end.
Proof.
  unfold Nodes._load_from_state_dict.
  destruct (state_dict !! (prefix +:+ "s")) as [spikes|]; [|reflexivity].
  unfold_monad. simpl.
  destruct (outcome (self_reset_ _ _)); reflexivity.
Qed.

(** C6: restoration from a snapshot without the entry of the spikes raises
    a [KeyError] and touches neither the population nor the report; with
    the entry, the reset to the shape of the persisted spikes runs first:
    the default restoration starts from the population that reset leaves,
    and does not start at all when the reset raises. *)
Theorem C6_spikes_entry_required {T : Type} `{!NodesClass T} {Meta : Type}
    (state_dict : OrderedDict) (prefix : string) (meta : Meta)
    (strict : bool) (st : load_state T) :
  (state_dict !! (prefix +:+ "s") = None ->
   Nodes._load_from_state_dict state_dict prefix meta strict st =
   MkRes (inl KeyError) st []) /\
  (forall spikes,
     state_dict !! (prefix +:+ "s") = Some spikes ->
     let r := self_reset_ (Some (Tensor.shape spikes)) (self st) in
     let st1 := nn_Module.set_self (final r) st in
     (forall e, outcome r = inl e ->
        Nodes._load_from_state_dict state_dict prefix meta strict st =
        MkRes (inl e) st1 (calls r)) /\
     (outcome r = inr tt ->
        let r' :=
          nn_Module._load_from_state_dict state_dict prefix meta strict
            st1 in
        Nodes._load_from_state_dict state_dict prefix meta strict st =
        MkRes (outcome r') (final r') (calls r ++ calls r'))).
Proof.
  split.
  - intros Hnone. rewrite load_from_state_dict_eq, Hnone. reflexivity.
  - intros spikes Hsome. cbv zeta. split.
    + intros e He. rewrite load_from_state_dict_eq, Hsome. cbv zeta.
      rewrite He. reflexivity.
    + intros Hok. rewrite load_from_state_dict_eq, Hsome. cbv zeta.
      rewrite Hok. reflexivity.
Qed.
(** ** The default restoration, entry by entry *)

Lemma for_each_unexpected {T : Type} (keys : list string)
    (body : string -> M (load_state T) unit) (st : load_state T) :
  (forall key st',
     body key st' = MkRes (inr tt) st' [] \/
     body key st' = MkRes (inr tt) (nn_Module.append_unexpected key st') [])
  ->
  let r := for_each keys body st in
  outcome r = inr tt /\ calls r = [] /\
  self (final r) = self st /\
  missing_keys (final r) = missing_keys st /\
  error_msgs (final r) = error_msgs st.
Proof.
  intros Hbody. revert st. induction keys as [|key keys IH]; intros st.
  - cbv zeta. simpl. unfold_monad. simpl. auto.
  - cbv zeta. cbn [for_each]. rewrite bind_run.
    destruct (Hbody key st) as [-> | ->]; cbn [outcome final calls].
    + destruct (IH st) as (? & -> & ? & ? & ?). auto.
    + destruct (IH (nn_Module.append_unexpected key st))
        as (? & -> & ? & ? & ?). auto.
Qed.

Section DefaultLoad.
Context {T : Type} {NC : NodesClass T}.
Variables (state_dict : OrderedDict) (prefix : string) (strict : bool).

(** One round of the loop never raises and calls no kernel. *)
Lemma load_entry_eq (entry : string * Tensor.t) (st : load_state T) :
  nn_Module.load_entry state_dict prefix strict entry st =
  MkRes (inr tt) (after_entry state_dict prefix strict entry st) [].
Proof.
  destruct entry as [name param].
  unfold nn_Module.load_entry, after_entry. cbn [fst snd].
  destruct (state_dict !! (prefix +:+ name)) as [input|].
  - rewrite bind_run.
    destruct (bool_decide (Tensor.ndim param = 0%nat)) eqn:Hp;
      destruct (bool_decide (Tensor.shape input = [1])) eqn:Hi; cbn [andb].
    + apply bool_decide_eq_true in Hp. apply bool_decide_eq_true in Hi.
      unfold lift, torch.index0. rewrite Hi.
      change (0 <? 1) with true. cbv iota.
      unfold mret at 1, result_ret. cbn [outcome final calls].
      assert (Hshape : Tensor.shape param = []).
      { unfold Tensor.ndim in Hp.
        destruct (Tensor.shape param); [reflexivity|discriminate]. }
      cbn [Tensor.shape]. rewrite Hshape.
      rewrite bool_decide_eq_true_2 by reflexivity.
      unfold modify. cbn [outcome final calls app]. reflexivity.
    + rewrite ret_run. cbn [outcome final calls].
      destruct (bool_decide (Tensor.shape input = Tensor.shape param));
        reflexivity.
    + rewrite ret_run. cbn [outcome final calls].
      destruct (bool_decide (Tensor.shape input = Tensor.shape param));
        reflexivity.
    + rewrite ret_run. cbn [outcome final calls].
      destruct (bool_decide (Tensor.shape input = Tensor.shape param));
        reflexivity.
  - destruct strict; reflexivity.
Qed.

Lemma for_each_load_eq (entries : list (string * Tensor.t))
    (st : load_state T) :
  for_each entries (nn_Module.load_entry state_dict prefix strict) st =
  MkRes (inr tt) (after_entries state_dict prefix strict entries st) [].
Proof.
  revert st. induction entries as [|entry entries IH]; intros st.
  - reflexivity.
  - cbn [for_each]. rewrite bind_run, load_entry_eq.
    cbn [outcome final calls app]. rewrite IH. reflexivity.
Qed.

(** The report of the unknown keys writes the list of unexpected keys
    only. *)
Lemma report_unexpected_frame (names : list string) (st : load_state T) :
  let r := nn_Module.report_unexpected state_dict prefix names st in
  outcome r = inr tt /\ calls r = [] /\
  self (final r) = self st /\
  missing_keys (final r) = missing_keys st /\
  error_msgs (final r) = error_msgs st.
Proof.
  cbv zeta. unfold nn_Module.report_unexpected. rewrite bind_run.
  match goal with
  | |- context [for_each ?ks ?b] =>
      assert (Hloop : forall st0,
                let r := for_each ks b st0 in
                outcome r = inr tt /\ calls r = [] /\
                self (final r) = self st0 /\
                missing_keys (final r) = missing_keys st0 /\
                error_msgs (final r) = error_msgs st0)
  end.
  { intros st0. apply for_each_unexpected. intros key st'.
    destruct (String.prefix prefix key && _); [|left; reflexivity].
    cbv zeta. destruct (nn_Module.has_dot _); [right; reflexivity|].
    destruct (bool_decide _); [left|right]; reflexivity. }
  destruct (bool_decide (is_Some _)).
  - rewrite modify_run. cbn [outcome final calls app].
    destruct (Hloop (nn_Module.append_unexpected
                       (nn_Module.extra_state_key prefix) st))
      as (Ho & Hc & Hs & Hm & He).
    cbv zeta in Ho, Hc, Hs, Hm, He. cbv beta.
    rewrite Ho, Hc, Hs, Hm, He. auto.
  - rewrite ret_run. cbn [outcome final calls app].
    destruct (Hloop st) as (Ho & Hc & Hs & Hm & He).
    cbv zeta in Ho, Hc, Hs, Hm, He. cbv beta.
    rewrite Ho, Hc, Hs, Hm, He. auto.
Qed.

(** The default restoration never raises and calls no kernel; the
    population, the missing keys and the errors it leaves are those of the
    loop over the registered tensors. *)
Lemma default_load_eq {Meta : Type} (meta : Meta) (st : load_state T) :
  let st1 :=
    after_entries state_dict prefix strict
      (_parameters (self st) ++ _buffers (self st)) st in
  let r := nn_Module._load_from_state_dict state_dict prefix meta strict st in
  outcome r = inr tt /\ calls r = [] /\
  self (final r) = self st1 /\
  missing_keys (final r) = missing_keys st1 /\
  error_msgs (final r) = error_msgs st1 /\
  (strict = false -> final r = st1).
Proof.
  cbv zeta. unfold nn_Module._load_from_state_dict.
  rewrite bind_run. unfold get. cbn [outcome final calls app].
  rewrite bind_run, for_each_load_eq. cbn [outcome final calls app].
  destruct strict.
  - match goal with
    | |- context [nn_Module.report_unexpected ?d ?p ?ns ?s0] =>
        destruct (report_unexpected_frame ns s0) as (Ho & Hc & Hs & Hm & He)
    end.
    cbv zeta in Ho, Hc, Hs, Hm, He. rewrite Ho, Hc, Hs, Hm, He.
    repeat split; try reflexivity. discriminate.
  - rewrite ret_run. cbn [outcome final calls]. repeat split; reflexivity.
Qed.

(** *** What one entry does to the report *)

Lemma after_entry_unexpected (entry : string * Tensor.t)
    (st : load_state T) :
  unexpected_keys (after_entry state_dict prefix strict entry st) =
  unexpected_keys st.
Proof.
  unfold after_entry. destruct (state_dict !! _).
  - destruct (_ && _); [reflexivity|]. destruct (bool_decide _); reflexivity.
  - destruct strict; reflexivity.
Qed.

Lemma after_entry_missing (entry : string * Tensor.t) (st : load_state T) :
  missing_keys (after_entry state_dict prefix strict entry st) =
  missing_keys st ++
  (if strict then absent_keys state_dict prefix [fst entry] else []).
Proof.
  unfold after_entry, absent_keys. cbn [map]. rewrite filter_cons, filter_nil.
  destruct (decide (state_dict !! String.append prefix (fst entry) = None))
    as [Hnone | Hsome].
  - rewrite Hnone. destruct strict; [reflexivity|].
    symmetry. apply app_nil_r.
  - destruct (state_dict !! (prefix +:+ fst entry)) eqn:Hl; [|contradiction].
    assert (Hnil : forall l : list string,
              l = l ++ (if strict then [] else [])).
    { intros l. destruct strict; symmetry; apply app_nil_r. }
    destruct (_ && _); [apply Hnil|].
    destruct (bool_decide _); apply Hnil.
Qed.

Lemma after_entries_unexpected (entries : list (string * Tensor.t))
    (st : load_state T) :
  unexpected_keys (after_entries state_dict prefix strict entries st) =
  unexpected_keys st.
Proof.
  revert st. induction entries as [|entry entries IH]; intros st.
  - reflexivity.
  - unfold after_entries. cbn [fold_left]. fold (after_entries state_dict
      prefix strict entries (after_entry state_dict prefix strict entry st)).
    rewrite IH. apply after_entry_unexpected.
Qed.

Lemma after_entries_missing (entries : list (string * Tensor.t))
    (st : load_state T) :
  missing_keys (after_entries state_dict prefix strict entries st) =
  missing_keys st ++
  (if strict then absent_keys state_dict prefix (map fst entries) else []).
Proof.
  revert st. induction entries as [|entry entries IH]; intros st.
  - cbn. destruct strict; symmetry; apply app_nil_r.
  - unfold after_entries. cbn [fold_left]. fold (after_entries state_dict
      prefix strict entries (after_entry state_dict prefix strict entry st)).
    rewrite IH, after_entry_missing, <- app_assoc. f_equal.
    destruct strict; [|reflexivity].
    unfold absent_keys. cbn [map]. rewrite !filter_cons, filter_nil.
    destruct (decide _); reflexivity.
Qed.

(** A parameter or buffer whose entry has its shape is overwritten with the
    values of the entry. *)
Lemma after_entry_copy (name : string) (param input : Tensor.t)
    (st : load_state T) :
  state_dict !! (prefix +:+ name) = Some input ->
  Tensor.shape input = Tensor.shape param ->
  Tensor.ndim input <> 1%nat \/ Tensor.ndim param <> 0%nat ->
  after_entry state_dict prefix strict (name, param) st =
  nn_Module.set_self
    (setattr_tensor name (torch.copy_ param input) (self st)) st.
Proof.
  intros Hlookup Hshape Hdim. unfold after_entry. cbn [fst snd].
  rewrite Hlookup.
  replace (bool_decide (Tensor.ndim param = 0%nat)
           && bool_decide (Tensor.shape input = [1])) with false.
  - rewrite bool_decide_eq_true_2 by exact Hshape. reflexivity.
  - symmetry. apply andb_false_iff.
    destruct Hdim as [Hin | Hpar]; [right|left];
      apply bool_decide_eq_false; [|assumption].
    intros Heq. apply Hin. unfold Tensor.ndim. rewrite Heq. reflexivity.
Qed.

Lemma load_entry_copy (name : string) (param input : Tensor.t)
    (st : load_state T) :
  state_dict !! (prefix +:+ name) = Some input ->
  Tensor.shape input = Tensor.shape param ->
  Tensor.ndim input <> 1%nat \/ Tensor.ndim param <> 0%nat ->
  nn_Module.load_entry state_dict prefix strict (name, param) st =
  MkRes (inr tt)
    (nn_Module.set_self
       (setattr_tensor name (torch.copy_ param input) (self st)) st) [].
Proof.
  intros Hlookup Hshape Hdim.
  rewrite load_entry_eq, (after_entry_copy _ _ input) by assumption.
  reflexivity.
Qed.

(** *** What the entries do to the inherited attributes *)

Variable get_base : T -> Nodes.t.
Hypothesis setattr_base : forall name x self,
  get_base (setattr_tensor name x self) =
  if String.eqb name "s" then Nodes.set_s x (get_base self)
  else get_base self.

(** An entry writes at most the spikes of the inherited attributes. *)
Lemma after_entry_base (entry : string * Tensor.t) (st : load_state T) :
  let b := get_base (self st) in
  let b' := get_base (self (after_entry state_dict prefix strict entry st)) in
  b' = b \/ exists x, b' = Nodes.set_s x b.
Proof.
  cbv zeta. unfold after_entry.
  assert (Hset : forall x,
            get_base (setattr_tensor (fst entry) x (self st)) =
              get_base (self st) \/
            exists y, get_base (setattr_tensor (fst entry) x (self st)) =
                      Nodes.set_s y (get_base (self st))).
  { intros x. rewrite setattr_base.
    destruct (String.eqb (fst entry) "s"); eauto. }
  destruct (state_dict !! _).
  - destruct (_ && _); [apply Hset|].
    destruct (bool_decide _); [apply Hset|left; reflexivity].
  - destruct strict; left; reflexivity.
Qed.

Lemma after_entries_base (P : Nodes.t -> Prop)
    (entries : list (string * Tensor.t)) (st : load_state T) :
  (forall b x, P b -> P (Nodes.set_s x b)) ->
  P (get_base (self st)) ->
  P (get_base (self (after_entries state_dict prefix strict entries st))).
Proof.
  intros Hstep. revert st. induction entries as [|entry entries IH];
    intros st Hst.
  - exact Hst.
  - unfold after_entries. cbn [fold_left]. fold (after_entries state_dict
      prefix strict entries (after_entry state_dict prefix strict entry st)).
    apply IH.
    destruct (after_entry_base entry st) as [-> | [x ->]]; auto.
Qed.

(** *** The two buffers of a model *)

Variable get_v : T -> Tensor.t.
Hypothesis setattr_v : forall name x self,
  get_v (setattr_tensor name x self) =
  if String.eqb name "v" then x else get_v self.

Variables (spikes : Tensor.t) (sh : list Z).
Hypothesis spikes_entry : state_dict !! (prefix +:+ "s") = Some spikes.
Hypothesis spikes_shape : Tensor.shape spikes = sh.
Hypothesis dimensioned : sh <> [].

Lemma key_inj (name name' : string) :
  prefix +:+ name = prefix +:+ name' -> name = name'.
Proof. intros Heq. eapply String.app_inj. exact Heq. Qed.

(** An entry for another name leaves the two buffers alone and reports
    nothing under their keys. *)
Lemma after_entry_other (entry : string * Tensor.t) (st : load_state T) :
  fst entry <> "s" -> fst entry <> "v" ->
  let st' := after_entry state_dict prefix strict entry st in
  get_base (self st') = get_base (self st) /\
  get_v (self st') = get_v (self st) /\
  (forall name i p, name = "s" \/ name = "v" ->
     size_mismatch (prefix +:+ name) i p ∈ error_msgs st' ->
     size_mismatch (prefix +:+ name) i p ∈ error_msgs st).
Proof.
  intros Hs Hv. cbv zeta. unfold after_entry.
  assert (Hset : forall x,
            get_base (setattr_tensor (fst entry) x (self st)) =
              get_base (self st) /\
            get_v (setattr_tensor (fst entry) x (self st)) = get_v (self st)).
  { intros x. rewrite setattr_base, setattr_v.
    destruct (String.eqb_spec (fst entry) "s"); [contradiction|].
    destruct (String.eqb_spec (fst entry) "v"); [contradiction|].
    split; reflexivity. }
  destruct (state_dict !! (prefix +:+ fst entry)) as [input|].
  - destruct (_ && _).
    { cbn [self nn_Module.set_self error_msgs].
      destruct (Hset (Tensor.set_data (firstn 1 (Tensor.data input))
                        (snd entry))) as [-> ->]. auto. }
    destruct (bool_decide _).
    { cbn [self nn_Module.set_self error_msgs].
      destruct (Hset (torch.copy_ (snd entry) input)) as [-> ->]. auto. }
    cbn [self nn_Module.append_error error_msgs].
    split; [reflexivity|]. split; [reflexivity|].
    intros name i p Hname Hin.
    apply elem_of_app in Hin as [Hin | Hin]; [exact Hin|].
    apply list_elem_of_singleton in Hin. injection Hin as Hkey _ _.
    apply key_inj in Hkey. destruct Hname; congruence.
  - destruct strict; cbn; auto.
Qed.

Lemma after_entries_other (entries : list (string * Tensor.t))
    (st : load_state T) :
  Forall (fun e => fst e <> "s" /\ fst e <> "v") entries ->
  let st' := after_entries state_dict prefix strict entries st in
  get_base (self st') = get_base (self st) /\
  get_v (self st') = get_v (self st) /\
  (forall name i p, name = "s" \/ name = "v" ->
     size_mismatch (prefix +:+ name) i p ∈ error_msgs st' ->
     size_mismatch (prefix +:+ name) i p ∈ error_msgs st).
Proof.
  intros Hall. revert st.
  induction Hall as [|entry entries [Hs Hv] _ IH]; intros st.
  - cbv zeta. cbn. auto.
  - cbv zeta. unfold after_entries. cbn [fold_left].
    fold (after_entries state_dict prefix strict entries
            (after_entry state_dict prefix strict entry st)).
    destruct (IH (after_entry state_dict prefix strict entry st))
      as (Hb & Hvv & He).
    destruct (after_entry_other entry st Hs Hv) as (Hb' & Hv' & He').
    cbv zeta in Hb, Hvv, He, Hb', Hv', He'.
    rewrite Hb, Hvv, Hb', Hv'. split; [reflexivity|].
    split; [reflexivity|]. intros name i p Hname Hin.
    apply (He' name i p Hname). apply (He name i p Hname). exact Hin.
Qed.

(** The two buffers, once they have the extents of the persisted spikes:
    the spikes take the persisted values; the voltage takes those of a
    voltage entry of the same extents; the only report is that of a
    voltage entry of other extents. *)
Lemma after_buffers (s0 v0 : Tensor.t) (st : load_state T) :
  Tensor.shape s0 = sh -> Tensor.shape v0 = sh ->
  get_v (self st) = v0 ->
  let st' :=
    after_entries state_dict prefix strict [("s", s0); ("v", v0)] st in
  get_base (self st') =
    Nodes.set_s (torch.copy_ s0 spikes) (get_base (self st)) /\
  get_v (self st') = restored_voltage state_dict prefix sh v0 /\
  error_msgs st' = error_msgs st ++ voltage_mismatch state_dict prefix sh.
Proof.
  intros Hs0 Hv0 Hv. cbv zeta. unfold after_entries. cbn [fold_left].
  assert (Hdim : forall x : Tensor.t,
            Tensor.shape x = sh -> Tensor.ndim x <> 0%nat).
  { intros x Hx. unfold Tensor.ndim. rewrite Hx.
    destruct sh; [congruence|discriminate]. }
  rewrite (after_entry_copy "s" s0 spikes)
    by first [ exact spikes_entry | congruence
             | right; apply Hdim; assumption ].
  assert (Hentry : forall st1 : load_state T,
            after_entry state_dict prefix strict ("v", v0) st1 =
            match state_dict !! (prefix +:+ "v") with
            | Some tv =>
                if bool_decide (Tensor.shape tv = sh)
                then nn_Module.set_self
                       (setattr_tensor "v" (torch.copy_ v0 tv) (self st1)) st1
                else nn_Module.append_error
                       (size_mismatch (prefix +:+ "v") (Tensor.shape tv) sh)
                       st1
            | None =>
                if strict
                then nn_Module.append_missing (prefix +:+ "v") st1
                else st1
            end).
  { intros st1. unfold after_entry. cbn [fst snd].
    destruct (state_dict !! (prefix +:+ "v")) as [tv|]; [|reflexivity].
    replace (bool_decide (Tensor.ndim v0 = 0%nat)) with false
      by (symmetry; apply bool_decide_eq_false, Hdim; assumption).
    cbn [andb]. rewrite Hv0. reflexivity. }
  rewrite Hentry. unfold restored_voltage, voltage_mismatch.
  destruct (state_dict !! (prefix +:+ "v")) as [tv|].
  - destruct (bool_decide (Tensor.shape tv = sh));
      cbn [self nn_Module.set_self nn_Module.append_error error_msgs];
      rewrite ?setattr_base, ?setattr_v; cbn [String.eqb Ascii.eqb Bool.eqb];
      rewrite ?setattr_base, ?setattr_v; cbn [String.eqb Ascii.eqb Bool.eqb];
      rewrite ?app_nil_r; rewrite ?Hv; auto.
  - destruct strict;
      cbn [self nn_Module.set_self nn_Module.append_missing error_msgs];
      rewrite ?setattr_base, ?setattr_v; cbn [String.eqb Ascii.eqb Bool.eqb];
      rewrite ?app_nil_r; rewrite ?Hv; auto.
Qed.

Hypothesis buffers_registered : forall self0,
  _buffers self0 = [("s", Nodes.s (get_base self0)); ("v", get_v self0)].
Hypothesis parameters_named : forall self0,
  Forall (fun e => fst e <> "s" /\ fst e <> "v") (_parameters self0).

(** The default restoration of a model whose buffers have the extents of
    the persisted spikes. *)
Lemma default_load_buffers {Meta : Type} (meta : Meta) (st : load_state T) :
  Tensor.shape (Nodes.s (get_base (self st))) = sh ->
  Tensor.shape (get_v (self st)) = sh ->
  let r := nn_Module._load_from_state_dict state_dict prefix meta strict st in
  outcome r = inr tt /\ calls r = [] /\
  get_base (self (final r)) =
    Nodes.set_s (torch.copy_ (Nodes.s (get_base (self st))) spikes)
      (get_base (self st)) /\
  get_v (self (final r)) =
    restored_voltage state_dict prefix sh (get_v (self st)) /\
  (forall i p,
     size_mismatch (prefix +:+ "s") i p ∈ error_msgs (final r) ->
     size_mismatch (prefix +:+ "s") i p ∈ error_msgs st) /\
  (forall i p,
     size_mismatch (prefix +:+ "v") i p ∈ error_msgs (final r) ->
     size_mismatch (prefix +:+ "v") i p ∈ error_msgs st \/
     size_mismatch (prefix +:+ "v") i p ∈
       voltage_mismatch state_dict prefix sh).
Proof.
  intros Hs Hv. cbv zeta.
  destruct (default_load_eq meta st) as (Ho & Hc & Hself & _ & He & _).
  cbv zeta in Ho, Hc, Hself, He. rewrite Ho, Hc, Hself, He.
  split; [reflexivity|]. split; [reflexivity|].
  rewrite buffers_registered.
  replace (after_entries state_dict prefix strict
             (_parameters (self st) ++
              [("s", Nodes.s (get_base (self st))); ("v", get_v (self st))])
             st)
    with (after_entries state_dict prefix strict
            [("s", Nodes.s (get_base (self st))); ("v", get_v (self st))]
            (after_entries state_dict prefix strict (_parameters (self st))
               st))
    by (unfold after_entries; symmetry; apply fold_left_app).
  destruct (after_entries_other (_parameters (self st)) st
              (parameters_named (self st))) as (Hb1 & Hv1 & He1).
  cbv zeta in Hb1, Hv1, He1.
  destruct (after_buffers (Nodes.s (get_base (self st))) (get_v (self st))
              (after_entries state_dict prefix strict
                 (_parameters (self st)) st) Hs Hv Hv1)
    as (Hb2 & Hv2 & He2).
  cbv zeta in Hb2, Hv2, He2.
  rewrite Hb2, Hv2, He2, Hb1. split; [reflexivity|]. split; [reflexivity|].
  split.
  - intros i p Hin. apply elem_of_app in Hin as [Hin | Hin].
    + apply (He1 "s" i p); auto.
    + exfalso. revert Hin. unfold voltage_mismatch.
      destruct (state_dict !! (prefix +:+ "v")) as [tv|];
        [|intros Hin; inversion Hin].
      destruct (bool_decide _); [intros Hin; inversion Hin|].
      intros Hin. apply list_elem_of_singleton in Hin.
      injection Hin as Hkey _ _. apply key_inj in Hkey. discriminate.
  - intros i p Hin. apply elem_of_app in Hin as [Hin | Hin]; [left|right].
    + apply (He1 "v" i p); auto.
    + exact Hin.
Qed.
End DefaultLoad.

(** ** The three classes under the default restoration *)

Lemma Nodes_setattr_base (name : string) (x : Tensor.t) (self : Nodes.t) :
  setattr_tensor name x self =
  if String.eqb name "s" then Nodes.set_s x self else self.
Proof. reflexivity. Qed.

Lemma IFNodes_setattr_base (name : string) (x : Tensor.t)
    (self : IFNodes.t) :
  IFNodes.base (setattr_tensor name x self) =
  if String.eqb name "s" then Nodes.set_s x (IFNodes.base self)
  else IFNodes.base self.
Proof.
  cbn [setattr_tensor IFNodes.IFNodes_class].
  destruct (String.eqb_spec name "reset") as [-> | _]; [reflexivity|].
  destruct (String.eqb_spec name "thresh") as [-> | _]; [reflexivity|].
  destruct (String.eqb_spec name "lbound") as [-> | _]; [reflexivity|].
  destruct (String.eqb name "s"); [reflexivity|].
  destruct (String.eqb name "v"); reflexivity.
Qed.

Lemma LIFNodes_setattr_base (name : string) (x : Tensor.t)
    (self : LIFNodes.t) :
  LIFNodes.base (setattr_tensor name x self) =
  if String.eqb name "s" then Nodes.set_s x (LIFNodes.base self)
  else LIFNodes.base self.
Proof.
  cbn [setattr_tensor LIFNodes.LIFNodes_class].
  destruct (String.eqb_spec name "reset") as [-> | _]; [reflexivity|].
  destruct (String.eqb_spec name "thresh") as [-> | _]; [reflexivity|].
  destruct (String.eqb_spec name "lbound") as [-> | _]; [reflexivity|].
  destruct (String.eqb_spec name "rest") as [-> | _]; [reflexivity|].
  destruct (String.eqb_spec name "tc_decay") as [-> | _]; [reflexivity|].
  destruct (String.eqb name "s"); [reflexivity|].
  destruct (String.eqb name "v"); reflexivity.
Qed.

Lemma IFNodes_setattr_v (name : string) (x : Tensor.t) (self : IFNodes.t) :
  IFNodes.v (setattr_tensor name x self) =
  if String.eqb name "v" then x else IFNodes.v self.
Proof.
  cbn [setattr_tensor IFNodes.IFNodes_class].
  destruct (String.eqb_spec name "reset") as [-> | _]; [reflexivity|].
  destruct (String.eqb_spec name "thresh") as [-> | _]; [reflexivity|].
  destruct (String.eqb_spec name "lbound") as [-> | _]; [reflexivity|].
  destruct (String.eqb_spec name "s") as [-> | _]; [reflexivity|].
  destruct (String.eqb name "v"); reflexivity.
Qed.

Lemma LIFNodes_setattr_v (name : string) (x : Tensor.t)
    (self : LIFNodes.t) :
  LIFNodes.v (setattr_tensor name x self) =
  if String.eqb name "v" then x else LIFNodes.v self.
Proof.
  cbn [setattr_tensor LIFNodes.LIFNodes_class].
  destruct (String.eqb_spec name "reset") as [-> | _]; [reflexivity|].
  destruct (String.eqb_spec name "thresh") as [-> | _]; [reflexivity|].
  destruct (String.eqb_spec name "lbound") as [-> | _]; [reflexivity|].
  destruct (String.eqb_spec name "rest") as [-> | _]; [reflexivity|].
  destruct (String.eqb_spec name "tc_decay") as [-> | _]; [reflexivity|].
  destruct (String.eqb_spec name "s") as [-> | _]; [reflexivity|].
  destruct (String.eqb name "v"); reflexivity.
Qed.

Lemma broadcast_shapes_scalar (sh : list Z) :
  torch.broadcast_shapes [] sh = Some sh.
Proof.
  unfold torch.broadcast_shapes. simpl. rewrite rev_involutive. reflexivity.
Qed.

(** A reset voltage that broadcasts to the extents of freshly allocated
    spikes multiplies with the ones shaped like them, to these extents. *)
Lemma mul_broadcasts_shape (r s : Tensor.t) (sh : list Z) :
  broadcasts_to r s sh ->
  exists v1,
    torch.mul r (torch.ones_like (zero_spikes sh s)) = inr v1 /\
    Tensor.shape v1 = sh.
Proof.
  intros (_ & Hb & Hdev). unfold torch.mul.
  cbn [torch.ones_like zero_spikes Tensor.shape]. rewrite Hb.
  destruct (torch.result_device r _) as [d|] eqn:Hd.
  - eexists. split; reflexivity.
  - exfalso. revert Hd. unfold torch.result_device.
    change (Tensor.device (torch.ones_like (zero_spikes sh s)))
      with (Tensor.device s).
    destruct (decide (Tensor.device r = Tensor.device s)); [discriminate|].
    destruct Hdev as [? | Hcpu]; [contradiction|].
    rewrite Hcpu. discriminate.
Qed.

Lemma zeros_inr_allocatable (sh : list Z) (dt : torch_dtype)
    (dev : torch_device) (z : Tensor.t) :
  torch.zeros sh dt dev = inr z -> allocatable sh.
Proof.
  unfold torch.zeros. destruct sh as [|d sh]; [discriminate|].
  destruct (forallb is_int64 _) eqn:Hint; [|discriminate].
  destruct (forallb (fun d => 0 <=? d) _) eqn:Hall; [|discriminate].
  destruct (available _) eqn:Hmem; [|discriminate]. intros _.
  split; [discriminate|]. split; [|exact Hmem].
  apply List.Forall_forall. intros x Hx.
  rewrite forallb_forall in Hall, Hint.
  specialize (Hall x Hx). specialize (Hint x Hx).
  apply Z.leb_le in Hall. unfold is_int64 in Hint.
  apply andb_true_iff in Hint. destruct Hint as [_ Hlt].
  apply Z.ltb_lt in Hlt. lia.
Qed.

(** The hook stores the shape of the persisted spikes, whatever happens
    next. *)
Lemma hook_shape {T : Type} {NC : NodesClass T} (get_base : T -> Nodes.t)
    {Meta : Type} (state_dict : OrderedDict) (prefix : string) (meta : Meta)
    (strict : bool) (spikes : Tensor.t) (st : load_state T) :
  (forall name x self,
     get_base (setattr_tensor name x self) =
     if String.eqb name "s" then Nodes.set_s x (get_base self)
     else get_base self) ->
  (forall sh self,
     Nodes.shape (get_base (final (self_reset_ (Some sh) self))) = Some sh) ->
  state_dict !! (prefix +:+ "s") = Some spikes ->
  Nodes.shape
    (get_base
       (self (final (Nodes._load_from_state_dict state_dict prefix meta
                       strict st)))) = Some (Tensor.shape spikes).
Proof.
  intros Hset Hreset Hlookup. rewrite load_from_state_dict_eq, Hlookup.
  cbv zeta. specialize (Hreset (Tensor.shape spikes) (self st)).
  destruct (outcome (self_reset_ _ _)) as [e|[]].
  - cbn [final self nn_Module.set_self]. exact Hreset.
  - cbn [final].
    match goal with
    | |- context [nn_Module._load_from_state_dict _ _ _ _ ?st1] =>
        destruct (default_load_eq state_dict prefix strict meta st1)
          as (_ & _ & Hself & _)
    end.
    cbv zeta in Hself. rewrite Hself.
    apply (after_entries_base state_dict prefix strict get_base Hset
             (fun b => Nodes.shape b = Some (Tensor.shape spikes))).
    + intros b x Hb. exact Hb.
    + exact Hreset.
Qed.

Lemma IFNodes_reset_shape (sh : list Z) (self : IFNodes.t) :
  Nodes.shape (IFNodes.base (final (IFNodes.reset_ (Some sh) self))) =
  Some sh.
Proof.
  rewrite IFNodes_reset_eq. cbv zeta.
  pose proof (Nodes_reset_shape sh (IFNodes.base self)) as Hshape.
  destruct (outcome (Nodes.reset_ (Some sh) (IFNodes.base self)));
    [|destruct (torch.mul _ _)]; exact Hshape.
Qed.

Lemma LIFNodes_reset_shape (sh : list Z) (self : LIFNodes.t) :
  Nodes.shape (LIFNodes.base (final (LIFNodes.reset_ (Some sh) self))) =
  Some sh.
Proof.
  rewrite LIFNodes_reset_eq. cbv zeta.
  pose proof (Nodes_reset_shape sh (LIFNodes.base self)) as Hshape.
  destruct (outcome (Nodes.reset_ (Some sh) (LIFNodes.base self)));
    [|destruct (torch.mul _ _)]; exact Hshape.
Qed.

(** Restoration into a population of the base class. *)
Lemma Nodes_restore {Meta : Type} (state_dict : OrderedDict)
    (prefix : string) (meta : Meta) (strict : bool) (spikes : Tensor.t)
    (mk uk : list string) (em : list error_msg) (self0 : Nodes.t) :
  state_dict !! (prefix +:+ "s") = Some spikes ->
  allocatable (Tensor.shape spikes) ->
  let r :=
    Nodes._load_from_state_dict state_dict prefix meta strict
      (MkLoad self0 mk uk em) in
  outcome r = inr tt /\ calls r = [] /\
  self (final r) =
    Nodes.set_s
      (torch.copy_ (zero_spikes (Tensor.shape spikes) (Nodes.s self0)) spikes)
      (Nodes.set_shape (Some (Tensor.shape spikes)) self0) /\
  error_msgs (final r) = em.
Proof.
  intros Hlookup Halloc. pose proof Halloc as [Hne _]. cbv zeta.
  rewrite load_from_state_dict_eq, Hlookup. cbv zeta.
  change (self_reset_ (T:=Nodes.t)) with Nodes.reset_.
  cbn [self]. rewrite (Nodes_reset_allocatable _ _ Halloc).
  cbn [outcome final calls app].
  match goal with
  | |- context [nn_Module._load_from_state_dict _ _ _ _ ?st1] =>
      destruct (default_load_eq state_dict prefix strict meta st1)
        as (Ho & Hc & Hself & _ & He & _)
  end.
  cbv zeta in Ho, Hc, Hself, He. rewrite Ho, Hc, Hself, He.
  cbn [_parameters _buffers Nodes.Nodes_class nn_Module.set_self self app].
  unfold after_entries. cbn [fold_left].
  rewrite (after_entry_copy state_dict prefix strict "s" _ spikes).
  - cbn [self nn_Module.set_self error_msgs setattr_tensor
         Nodes.Nodes_class String.eqb Ascii.eqb Bool.eqb Nodes.s Nodes.set_s].
    repeat split; reflexivity.
  - exact Hlookup.
  - reflexivity.
  - right. cbn [Nodes.s Nodes.set_s zero_spikes]. unfold Tensor.ndim.
    cbn [Tensor.shape]. destruct (Tensor.shape spikes);
      [congruence|discriminate].
Qed.

(** Restoration into a population of a model whose reset voltage
    multiplies to the extents of the persisted spikes. *)
Lemma IFNodes_restore {Meta : Type} (state_dict : OrderedDict)
    (prefix : string) (meta : Meta) (strict : bool) (spikes : Tensor.t)
    (mk uk : list string) (em : list error_msg) (self0 : IFNodes.t)
    (v1 : Tensor.t) :
  state_dict !! (prefix +:+ "s") = Some spikes ->
  allocatable (Tensor.shape spikes) ->
  torch.mul (IFNodes.reset self0)
    (torch.ones_like
       (zero_spikes (Tensor.shape spikes) (Nodes.s (IFNodes.base self0)))) =
    inr v1 ->
  Tensor.shape v1 = Tensor.shape spikes ->
  let r :=
    Nodes._load_from_state_dict state_dict prefix meta strict
      (MkLoad self0 mk uk em) in
  outcome r = inr tt /\ calls r = [] /\
  IFNodes.base (self (final r)) =
    Nodes.set_s
      (torch.copy_
         (zero_spikes (Tensor.shape spikes) (Nodes.s (IFNodes.base self0)))
         spikes)
      (Nodes.set_shape (Some (Tensor.shape spikes)) (IFNodes.base self0)) /\
  IFNodes.v (self (final r)) =
    restored_voltage state_dict prefix (Tensor.shape spikes) v1 /\
  (forall i p,
     size_mismatch (prefix +:+ "s") i p ∈ error_msgs (final r) ->
     size_mismatch (prefix +:+ "s") i p ∈ em) /\
  (forall i p,
     size_mismatch (prefix +:+ "v") i p ∈ error_msgs (final r) ->
     size_mismatch (prefix +:+ "v") i p ∈ em \/
     size_mismatch (prefix +:+ "v") i p ∈
       voltage_mismatch state_dict prefix (Tensor.shape spikes)).
Proof.
  intros Hlookup Halloc Hmul Hv1. pose proof Halloc as [Hne _]. cbv zeta.
  rewrite load_from_state_dict_eq, Hlookup. cbv zeta.
  change (self_reset_ (T:=IFNodes.t)) with IFNodes.reset_.
  cbn [self]. rewrite IFNodes_reset_eq. cbv zeta.
  rewrite (Nodes_reset_allocatable _ _ Halloc).
  cbn [outcome final calls app Nodes.s Nodes.set_s]. rewrite Hmul.
  cbn [outcome final calls app].
  match goal with
  | |- context [nn_Module._load_from_state_dict _ _ _ _ ?st1] =>
      destruct (default_load_buffers state_dict prefix strict IFNodes.base
                  IFNodes_setattr_base IFNodes.v IFNodes_setattr_v spikes
                  (Tensor.shape spikes) Hlookup eq_refl Hne
                  (fun _ => eq_refl)
                  (fun self1 => ltac:(cbn; repeat constructor; discriminate))
                  meta st1)
        as (Ho & Hc & Hb & Hv & Hes & Hev)
  end.
  - reflexivity.
  - exact Hv1.
  - cbv zeta in Ho, Hc, Hb, Hv, Hes, Hev. rewrite Ho, Hc, Hb, Hv.
    repeat split; auto.
Qed.

Lemma LIFNodes_restore {Meta : Type} (state_dict : OrderedDict)
    (prefix : string) (meta : Meta) (strict : bool) (spikes : Tensor.t)
    (mk uk : list string) (em : list error_msg) (self0 : LIFNodes.t)
    (v1 : Tensor.t) :
  state_dict !! (prefix +:+ "s") = Some spikes ->
  allocatable (Tensor.shape spikes) ->
  torch.mul (LIFNodes.reset self0)
    (torch.ones_like
       (zero_spikes (Tensor.shape spikes) (Nodes.s (LIFNodes.base self0)))) =
    inr v1 ->
  Tensor.shape v1 = Tensor.shape spikes ->
  let r :=
    Nodes._load_from_state_dict state_dict prefix meta strict
      (MkLoad self0 mk uk em) in
  outcome r = inr tt /\ calls r = [] /\
  LIFNodes.base (self (final r)) =
    Nodes.set_s
      (torch.copy_
         (zero_spikes (Tensor.shape spikes) (Nodes.s (LIFNodes.base self0)))
         spikes)
      (Nodes.set_shape (Some (Tensor.shape spikes)) (LIFNodes.base self0)) /\
  LIFNodes.v (self (final r)) =
    restored_voltage state_dict prefix (Tensor.shape spikes) v1 /\
  (forall i p,
     size_mismatch (prefix +:+ "s") i p ∈ error_msgs (final r) ->
     size_mismatch (prefix +:+ "s") i p ∈ em) /\
  (forall i p,
     size_mismatch (prefix +:+ "v") i p ∈ error_msgs (final r) ->
     size_mismatch (prefix +:+ "v") i p ∈ em \/
     size_mismatch (prefix +:+ "v") i p ∈
       voltage_mismatch state_dict prefix (Tensor.shape spikes)).
Proof.
  intros Hlookup Halloc Hmul Hv1. pose proof Halloc as [Hne _]. cbv zeta.
  rewrite load_from_state_dict_eq, Hlookup. cbv zeta.
  change (self_reset_ (T:=LIFNodes.t)) with LIFNodes.reset_.
  cbn [self]. rewrite LIFNodes_reset_eq. cbv zeta.
  rewrite (Nodes_reset_allocatable _ _ Halloc).
  cbn [outcome final calls app Nodes.s Nodes.set_s]. rewrite Hmul.
  cbn [outcome final calls app].
  match goal with
  | |- context [nn_Module._load_from_state_dict _ _ _ _ ?st1] =>
      destruct (default_load_buffers state_dict prefix strict LIFNodes.base
                  LIFNodes_setattr_base LIFNodes.v LIFNodes_setattr_v spikes
                  (Tensor.shape spikes) Hlookup eq_refl Hne
                  (fun _ => eq_refl)
                  (fun self1 => ltac:(cbn; repeat constructor; discriminate))
                  meta st1)
        as (Ho & Hc & Hb & Hv & Hes & Hev)
  end.
  - reflexivity.
  - exact Hv1.
  - cbv zeta in Ho, Hc, Hb, Hv, Hes, Hev. rewrite Ho, Hc, Hb, Hv.
    repeat split; auto.
Qed.

(** What the restored voltage and the report of the voltage say in terms
    of the voltage entry. *)
Lemma restored_voltage_spec (state_dict : OrderedDict) (prefix : string)
    (sh : list Z) (v1 : Tensor.t) :
  Tensor.shape v1 = sh ->
  Tensor.shape (restored_voltage state_dict prefix sh v1) = sh /\
  (forall tv, state_dict !! (prefix +:+ "v") = Some tv ->
     Tensor.shape tv = sh ->
     Tensor.data (restored_voltage state_dict prefix sh v1) = Tensor.data tv)
  /\
  (forall i p,
     size_mismatch (prefix +:+ "v") i p ∈
       voltage_mismatch state_dict prefix sh ->
     exists tv, state_dict !! (prefix +:+ "v") = Some tv /\
                Tensor.shape tv <> sh /\ i = Tensor.shape tv /\ p = sh).
Proof.
  intros Hv1. unfold restored_voltage, voltage_mismatch.
  destruct (state_dict !! (prefix +:+ "v")) as [tv|].
  - destruct (bool_decide (Tensor.shape tv = sh)) eqn:Hsame.
    + split; [exact Hv1|]. split.
      * intros tv' [= <-] _. reflexivity.
      * intros i p Hin. inversion Hin.
    + apply bool_decide_eq_false in Hsame. split; [exact Hv1|]. split.
      * intros tv' [= <-] Hs. contradiction.
      * intros i p Hin. apply list_elem_of_singleton in Hin.
        injection Hin as -> ->. eauto.
  - split; [exact Hv1|]. split; [discriminate|].
    intros i p Hin. inversion Hin.
Qed.

End Properties.

(** * The development at the concrete carrier *)

Lemma Q_mul_one (x : Q) : Qmult x 1 = x.
Proof.
  destruct x as [a b]. unfold Qmult. simpl.
  rewrite Z.mul_1_r, Pos.mul_1_r. reflexivity.
Qed.

Section ClaimWitnesses.
Local Existing Instance Q_scalar.
Local Existing Instance small_machine.
Local Existing Instance SpecKernels.kernels.

(** C3 fails on the empty shape: 1 is the product of no extents, yet
    [Nodes(n=1, shape=[])] and [Nodes(shape=[])] raise a [TypeError]. *)
Lemma C3_counterexample :
  1 = product [] /\
  Nodes.__init__ (Some 1) (Some []) = inl TypeError /\
  Nodes.__init__ None (Some []) = inl TypeError /\
  ~ (exists self, Nodes.__init__ None (Some []) = inr self).
Proof.
  repeat split. intros [self Hself]. discriminate Hself.
Qed.

(** C3 at [Nodes(n=6, shape=[2, 3])]. *)
Lemma C3_witness :
  Some [2; 3] <> Some [] /\
  exists self,
    Nodes.__init__ (Some 6) (Some [2; 3]) = inr self /\
    Nodes.shape self = Some [2; 3] /\ Nodes.n self = Some 6.
Proof.
  assert (Hne : Some [2; 3] <> Some (@nil Z)) by discriminate.
  split; [exact Hne|].
  destruct (C3_construction_nonempty_shape (Some 6) (Some [2; 3]) Hne)
    as (_ & Hok & _).
  apply (Hok 6 [2; 3]); reflexivity.
Defined.

(** C4 fails on the empty shape: [IFNodes().reset_([])] raises a
    [TypeError] after it has stored the shape; the spikes are still the
    empty buffer of the constructor, of extents [0] and not of the extents
    asked for, and the voltage is untouched. *)
Lemma C4_counterexample :
  IFNodes.__init__ None None None None None None = inr Examples.fresh_IF /\
  (let r := IFNodes.reset_ (Some []) Examples.fresh_IF in
   outcome r = inl TypeError /\
   Nodes.shape (IFNodes.base (final r)) = Some [] /\
   Nodes.s (IFNodes.base (final r)) = torch.FloatTensor /\
   Tensor.shape (Nodes.s (IFNodes.base (final r))) <> [] /\
   IFNodes.v (final r) = IFNodes.v Examples.fresh_IF) /\
  outcome (LIFNodes.reset_ (Some []) Examples.fresh_LIF) = inl TypeError.
Proof.
  cbv zeta. repeat split; try (vm_compute; reflexivity). discriminate.
Qed.


(** C5 fails on the two models: a population built as [IFNodes()] and
    stepped once under a drive below the threshold has no shape and the
    voltage [-60; -60], and [reset_()] rewrites that voltage to [-65; -65];
    and on a population built with one reset voltage per neuron, [reset_()]
    raises, the four values not broadcasting against the empty spikes. *)
Lemma C5_counterexample :
  IFNodes.__init__ None None None None None None = inr Examples.fresh_IF /\
  outcome (IFNodes.forward Examples.weak_drive Examples.fresh_IF) =
    inr (Examples.vec [0%Q; 0%Q]) /\
  Nodes.shape (IFNodes.base Examples.stepped_IF) = None /\
  Tensor.data (IFNodes.v Examples.stepped_IF) = [(-60)%Q; (-60)%Q] /\
  outcome (IFNodes.reset_ None Examples.stepped_IF) = inr tt /\
  Tensor.data (IFNodes.v (final (IFNodes.reset_ None Examples.stepped_IF))) =
    [(-65)%Q; (-65)%Q] /\
  final (IFNodes.reset_ None Examples.stepped_IF) <> Examples.stepped_IF /\
  IFNodes.__init__ None None None
    (Some (PyTensor (Examples.vec [(-65)%Q; (-65)%Q; (-65)%Q; (-65)%Q])))
    None None = inr Examples.per_neuron_IF /\
  Nodes.shape (IFNodes.base Examples.per_neuron_IF) = None /\
  outcome (IFNodes.reset_ None Examples.per_neuron_IF) = inl RuntimeError.
Proof.
  repeat split; try (vm_compute; reflexivity).
  intros Heq.
  apply (f_equal (fun self => Tensor.data (IFNodes.v self))) in Heq.
  vm_compute in Heq. discriminate Heq.
Qed.

(** C5 at the stepped population. *)
Lemma C5_witness :
  Nodes.shape (IFNodes.base Examples.stepped_IF) = None /\
  IFNodes.reset_ None Examples.stepped_IF =
  match torch.mul (IFNodes.reset Examples.stepped_IF)
          (torch.ones_like (Nodes.s (IFNodes.base Examples.stepped_IF))) with
  | inl e => MkRes (inl e) Examples.stepped_IF []
  | inr v1 => MkRes (inr tt) (IFNodes.set_v v1 Examples.stepped_IF) []
  end.
Proof.
  assert (Hshape : Nodes.shape (IFNodes.base Examples.stepped_IF) = None)
    by (vm_compute; reflexivity).
  split; [exact Hshape|].
  destruct C5_reset_without_known_shape as (_ & Hif & _).
  apply Hif. exact Hshape.
Defined.

(** C7 at [IFNodes()] under a drive that makes the second neuron fire. *)
Lemma C7_witness :
  let v1 := Examples.mixed_drive in
  let s2 := Examples.vec [0%Q; 1%Q] in
  let v2 := Examples.vec [(-60)%Q; (-65)%Q] in
  F.if_update Examples.mixed_drive (IFNodes.v Examples.fresh_IF) = inr v1 /\
  F.super_spike_update v1
    (IFNodes.thresh Examples.fresh_IF) (IFNodes.reset Examples.fresh_IF)
    (IFNodes.lbound Examples.fresh_IF) (IFNodes.scale Examples.fresh_IF) =
    inr (s2, v2) /\
  IFNodes.forward Examples.mixed_drive Examples.fresh_IF =
  MkRes (inr s2) (IFNodes.set_v v2 (IFNodes.set_s s2 Examples.fresh_IF))
    [call_if_update Examples.mixed_drive (IFNodes.v Examples.fresh_IF);
     call_super_spike_update v1 (IFNodes.thresh Examples.fresh_IF)
       (IFNodes.reset Examples.fresh_IF) (IFNodes.lbound Examples.fresh_IF)
       (IFNodes.scale Examples.fresh_IF)].
Proof.
  cbv zeta.
  assert (Hup : F.if_update Examples.mixed_drive
                  (IFNodes.v Examples.fresh_IF) =
                inr Examples.mixed_drive) by (vm_compute; reflexivity).
  assert (Hspike : F.super_spike_update Examples.mixed_drive
                     (IFNodes.thresh Examples.fresh_IF)
                     (IFNodes.reset Examples.fresh_IF)
                     (IFNodes.lbound Examples.fresh_IF)
                     (IFNodes.scale Examples.fresh_IF) =
                   inr (Examples.vec [0%Q; 1%Q],
                        Examples.vec [(-60)%Q; (-65)%Q]))
    by (vm_compute; reflexivity).
  split; [exact Hup|]. split; [exact Hspike|].
  exact (proj1 (C7_forward_two_kernel_calls
                  Examples.mixed_drive Examples.mixed_drive
                  (Examples.vec [0%Q; 1%Q])
                  (Examples.vec [(-60)%Q; (-65)%Q]))
           Examples.fresh_IF Hup Hspike).
Defined.

(** C8 at [IFNodes()] and [LIFNodes()]. *)
Lemma C8_witness :
  IFNodes.__init__ None None None None None None = inr Examples.fresh_IF /\
  LIFNodes.__init__ None None None None None None None None =
    inr Examples.fresh_LIF /\
  IFNodes.thresh Examples.fresh_IF = Examples.scalar_param (-52) /\
  Tensor.requires_grad (IFNodes.scale Examples.fresh_IF) = false /\
  LIFNodes.tc_decay Examples.fresh_LIF = Examples.scalar_param 100.
Proof.
  assert (Hif : IFNodes.__init__ None None None None None None =
                inr Examples.fresh_IF) by reflexivity.
  assert (Hlif : LIFNodes.__init__ None None None None None None
                   None None = inr Examples.fresh_LIF) by reflexivity.
  split; [exact Hif|]. split; [exact Hlif|].
  destruct (C8_default_parameters None None) as [HIF HLIF].
  destruct (HIF _ Hif) as (_ & Hth & _ & _ & Hsc).
  destruct (HLIF _ Hlif) as (_ & _ & _ & _ & _ & Htc & _).
  split; [exact Hth|]. split; [rewrite Hsc; reflexivity|exact Htc].
Defined.

(** C6 at the empty snapshot. *)
Lemma C6_witness :
  ([] : OrderedDict) !! ("" +:+ "s") = None /\
  Nodes._load_from_state_dict (Meta:=unit) ([] : OrderedDict) "" tt true
    (MkLoad Examples.fresh_IF [] [] []) =
  MkRes (inl KeyError) (MkLoad Examples.fresh_IF [] [] []) [].
Proof.
  assert (Hnone : ([] : OrderedDict) !! ("" +:+ "s") = None)
    by reflexivity.
  split; [exact Hnone|].
  exact (proj1 (C6_spikes_entry_required (Meta:=unit) ([] : OrderedDict) ""
                  tt true (MkLoad Examples.fresh_IF [] [] [])) Hnone).
Defined.

(** C2 fails on the two models.  A population built with its shape
    deferred and one reset voltage for each of four neurons cannot be
    restored from a snapshot of two neurons: the four values do not
    broadcast to the two spikes, and the restoration raises.  And a
    snapshot whose voltage has other extents than its spikes is restored
    with a size mismatch reported for the voltage. *)
Lemma C2_counterexample :
  IFNodes.__init__ None None None
    (Some (PyTensor (Examples.vec [(-65)%Q; (-65)%Q; (-65)%Q; (-65)%Q])))
    None None = inr Examples.per_neuron_IF /\
  Nodes.shape (IFNodes.base Examples.per_neuron_IF) = None /\
  Examples.snapshot !! ("" +:+ "s") = Some (Examples.vec [0%Q; 1%Q]) /\
  outcome
    (Nodes._load_from_state_dict (Meta:=unit) Examples.snapshot "" tt true
       (MkLoad Examples.per_neuron_IF [] [] [])) = inl RuntimeError /\
  IFNodes.__init__ None None None None None None = inr Examples.fresh_IF /\
  Examples.uneven_snapshot !! ("" +:+ "s") = Some (Examples.vec [0%Q; 1%Q]) /\
  error_msgs
    (final
       (Nodes._load_from_state_dict (Meta:=unit) Examples.uneven_snapshot ""
          tt true (MkLoad Examples.fresh_IF [] [] []))) =
    [size_mismatch "v" [3] [2]].
Proof.
  repeat split; vm_compute; reflexivity.
Qed.

End ClaimWitnesses.

(** * Further properties of the classes *)

Section MoreProperties.
Context {Sc : Scalar} {Mem : Memory} {Ker : F.kernels}.

(** ** Construction *)

Lemma Nodes_init_consistent (n : option Z) (shape : option (list Z))
    (self : Nodes.t) :
  Nodes.__init__ n shape = inr self -> consistent self.
Proof.
  destruct shape as [sh|], n as [k|].
  - destruct sh as [|d sh]; [rewrite Nodes_init_empty_shape; discriminate|].
    rewrite Nodes_init_both by discriminate.
    destruct (Z.eqb_spec k (product (d :: sh))); [|discriminate].
    intros [= <-]. right. exists k, (d :: sh).
    repeat split; [discriminate|assumption].
  - destruct sh as [|d sh]; [rewrite Nodes_init_empty_shape; discriminate|].
    rewrite Nodes_init_only_shape by discriminate.
    intros [= <-]. right. exists (product (d :: sh)), (d :: sh).
    repeat split. discriminate.
  - rewrite Nodes_init_only_n. intros [= <-]. right. exists k, [k].
    repeat split; [discriminate|]. unfold product. simpl. lia.
  - rewrite Nodes_init_neither. intros [= <-]. left. split; reflexivity.
Qed.

Lemma IFNodes_init_base (n : option Z) (shape : option (list Z))
    (thresh reset lbound scale : option py_arg) (self : IFNodes.t) :
  IFNodes.__init__ n shape thresh reset lbound scale = inr self ->
  Nodes.__init__ n shape = inr (IFNodes.base self) /\
  IFNodes.v self = torch.FloatTensor.
Proof.
  unfold IFNodes.__init__.
  destruct (Nodes.__init__ n shape) as [e|b]; unfold_monad; [discriminate|].
  intros [= <-]. split; reflexivity.
Qed.

Lemma LIFNodes_init_base (n : option Z) (shape : option (list Z))
    (thresh reset lbound rest tc_decay scale : option py_arg)
    (self : LIFNodes.t) :
  LIFNodes.__init__ n shape thresh reset lbound rest tc_decay scale =
    inr self ->
  Nodes.__init__ n shape = inr (LIFNodes.base self) /\
  LIFNodes.v self = torch.FloatTensor.
Proof.
  unfold LIFNodes.__init__.
  destruct (Nodes.__init__ n shape) as [e|b]; unfold_monad; [discriminate|].
  intros [= <-]. split; reflexivity.
Qed.

Lemma Nodes_init_buffers (n : option Z) (shape : option (list Z))
    (self : Nodes.t) :
  Nodes.__init__ n shape = inr self ->
  Nodes.s self = torch.FloatTensor /\ Nodes.dt self = None.
Proof.
  unfold Nodes.__init__. destruct n as [k|], shape as [sh|]; unfold_monad;
    repeat match goal with
    | |- context [reduce Z.mul ?l] => destruct (reduce Z.mul l)
    | |- context [Z.eqb ?a ?b] => destruct (Z.eqb a b)
    end; try discriminate; intros [= <-]; split; reflexivity.
Qed.

(** X1: whatever a constructor of the three classes leaves behind has a
    neuron count and a shape that agree: both unset, or the count equal to
    the product of a non-empty stored shape. *)
Theorem X1_construction_consistent
    (n : option Z) (shape : option (list Z)) :
  (forall self : Nodes.t,
     Nodes.__init__ n shape = inr self -> consistent self) /\
  (forall (thresh reset lbound scale : option py_arg) (self : IFNodes.t),
     IFNodes.__init__ n shape thresh reset lbound scale = inr self ->
     consistent (IFNodes.base self)) /\
  (forall (thresh reset lbound rest tc_decay scale : option py_arg)
          (self : LIFNodes.t),
     LIFNodes.__init__ n shape thresh reset lbound rest tc_decay scale =
       inr self ->
     consistent (LIFNodes.base self)).
Proof.
  split; [|split].
  - intros self. apply Nodes_init_consistent.
  - intros thresh reset lbound scale self Hinit.
    apply IFNodes_init_base in Hinit as [Hbase _].
    eapply Nodes_init_consistent; exact Hbase.
  - intros thresh reset lbound rest tc_decay scale self Hinit.
    apply LIFNodes_init_base in Hinit as [Hbase _].
    eapply Nodes_init_consistent; exact Hbase.
Qed.

(** X2: with the empty sequence as shape every constructor raises a
    [TypeError], whatever the neuron count and the other arguments. *)
Theorem X2_empty_shape_rejected (n : option Z) :
  Nodes.__init__ n (Some []) = inl TypeError /\
  (forall thresh reset lbound scale : option py_arg,
     IFNodes.__init__ n (Some []) thresh reset lbound scale =
     inl TypeError) /\
  (forall thresh reset lbound rest tc_decay scale : option py_arg,
     LIFNodes.__init__ n (Some []) thresh reset lbound rest tc_decay scale =
     inl TypeError).
Proof.
  split; [apply Nodes_init_empty_shape|]. split; intros.
  - apply IFNodes_init_fails_with_base, Nodes_init_empty_shape.
  - apply LIFNodes_init_fails_with_base, Nodes_init_empty_shape.
Qed.

(** X3: a constructor allocates nothing: whatever count and shape it was
    given, the spike buffer (and the voltage of the two models) is the empty
    one-dimensional float tensor and the timestep is unset. *)
Theorem X3_construction_leaves_buffers_empty
    (n : option Z) (shape : option (list Z)) :
  (forall self : Nodes.t,
     Nodes.__init__ n shape = inr self ->
     Nodes.s self = torch.FloatTensor /\ Nodes.dt self = None) /\
  (forall (thresh reset lbound scale : option py_arg) (self : IFNodes.t),
     IFNodes.__init__ n shape thresh reset lbound scale = inr self ->
     Nodes.s (IFNodes.base self) = torch.FloatTensor /\
     IFNodes.v self = torch.FloatTensor /\
     Nodes.dt (IFNodes.base self) = None) /\
  (forall (thresh reset lbound rest tc_decay scale : option py_arg)
          (self : LIFNodes.t),
     LIFNodes.__init__ n shape thresh reset lbound rest tc_decay scale =
       inr self ->
     Nodes.s (LIFNodes.base self) = torch.FloatTensor /\
     LIFNodes.v self = torch.FloatTensor /\
     Nodes.dt (LIFNodes.base self) = None).
Proof.
  split; [|split].
  - intros self. apply Nodes_init_buffers.
  - intros thresh reset lbound scale self Hinit.
    apply IFNodes_init_base in Hinit as [Hbase Hv].
    apply Nodes_init_buffers in Hbase as [Hs Hdt]. auto.
  - intros thresh reset lbound rest tc_decay scale self Hinit.
    apply LIFNodes_init_base in Hinit as [Hbase Hv].
    apply Nodes_init_buffers in Hbase as [Hs Hdt]. auto.
Qed.
(** ** [reset_]: what it keeps, when it succeeds, how calls compose *)

Lemma Nodes_reset_frame (shape : option (list Z)) (self : Nodes.t) :
  let self' := final (Nodes.reset_ shape self) in
  Nodes.n self' = Nodes.n self /\ Nodes.dt self' = Nodes.dt self /\
  Tensor.dtype (Nodes.s self') = Tensor.dtype (Nodes.s self) /\
  Tensor.device (Nodes.s self') = Tensor.device (Nodes.s self).
Proof.
  cbv zeta. rewrite Nodes_reset_eq.
  destruct (Nodes.shape (reshaped shape self)) as [sh|] eqn:Hsh.
  - destruct (torch.zeros sh _ _) as [e|z] eqn:Hz.
    + destruct shape; repeat split; reflexivity.
    + rewrite (zeros_inv _ _ _ _ Hz).
      destruct shape; repeat split; reflexivity.
  - destruct shape; repeat split; reflexivity.
Qed.

(** X4: in all three classes [reset_] writes only the shape, the spikes and
    the voltage: the neuron count, the timestep and every parameter are as
    before, the new spikes keep the numeric type and the device of the old
    ones, and no kernel is called, whatever the argument and whether or not
    the call raises. *)
Theorem X4_reset_frame (shape : option (list Z)) :
  (forall self : Nodes.t,
     let r := Nodes.reset_ shape self in
     calls r = [] /\
     Nodes.n (final r) = Nodes.n self /\
     Nodes.dt (final r) = Nodes.dt self /\
     Tensor.dtype (Nodes.s (final r)) = Tensor.dtype (Nodes.s self) /\
     Tensor.device (Nodes.s (final r)) = Tensor.device (Nodes.s self)) /\
  (forall self : IFNodes.t,
     let r := IFNodes.reset_ shape self in
     calls r = [] /\
     Nodes.n (IFNodes.base (final r)) = Nodes.n (IFNodes.base self) /\
     Nodes.dt (IFNodes.base (final r)) = Nodes.dt (IFNodes.base self) /\
     Tensor.dtype (Nodes.s (IFNodes.base (final r))) =
       Tensor.dtype (Nodes.s (IFNodes.base self)) /\
     Tensor.device (Nodes.s (IFNodes.base (final r))) =
       Tensor.device (Nodes.s (IFNodes.base self)) /\
     IFNodes.thresh (final r) = IFNodes.thresh self /\
     IFNodes.reset (final r) = IFNodes.reset self /\
     IFNodes.lbound (final r) = IFNodes.lbound self /\
     IFNodes.scale (final r) = IFNodes.scale self) /\
  (forall self : LIFNodes.t,
     let r := LIFNodes.reset_ shape self in
     calls r = [] /\
     Nodes.n (LIFNodes.base (final r)) = Nodes.n (LIFNodes.base self) /\
     Nodes.dt (LIFNodes.base (final r)) = Nodes.dt (LIFNodes.base self) /\
     Tensor.dtype (Nodes.s (LIFNodes.base (final r))) =
       Tensor.dtype (Nodes.s (LIFNodes.base self)) /\
     Tensor.device (Nodes.s (LIFNodes.base (final r))) =
       Tensor.device (Nodes.s (LIFNodes.base self)) /\
     LIFNodes.thresh (final r) = LIFNodes.thresh self /\
     LIFNodes.reset (final r) = LIFNodes.reset self /\
     LIFNodes.lbound (final r) = LIFNodes.lbound self /\
     LIFNodes.rest (final r) = LIFNodes.rest self /\
     LIFNodes.tc_decay (final r) = LIFNodes.tc_decay self /\
     LIFNodes.scale (final r) = LIFNodes.scale self).
Proof.
  split; [|split]; intros self; cbv zeta.
  - split; [apply Nodes_reset_calls|]. apply Nodes_reset_frame.
  - split; [apply IFNodes_reset_calls|].
    pose proof (Nodes_reset_frame shape (IFNodes.base self))
      as (Hn & Hdt & Hty & Hdev). cbv zeta in Hn, Hdt, Hty, Hdev.
    rewrite IFNodes_reset_eq. cbv zeta.
    destruct (outcome (Nodes.reset_ shape (IFNodes.base self)));
      [|destruct (torch.mul _ _)]; cbn; auto 10.
  - split; [apply LIFNodes_reset_calls|].
    pose proof (Nodes_reset_frame shape (LIFNodes.base self))
      as (Hn & Hdt & Hty & Hdev). cbv zeta in Hn, Hdt, Hty, Hdev.
    rewrite LIFNodes_reset_eq. cbv zeta.
    destruct (outcome (Nodes.reset_ shape (LIFNodes.base self)));
      [|destruct (torch.mul _ _)]; cbn; auto 15.
Qed.


Lemma Nodes_reset_then_none (S : list Z) (self : Nodes.t) :
  outcome (Nodes.reset_ (Some S) self) = inr tt ->
  Nodes.reset_ None (final (Nodes.reset_ (Some S) self)) =
  Nodes.reset_ (Some S) self.
Proof.
  rewrite (Nodes_reset_eq (Some S) self).
  cbn [reshaped Nodes.shape Nodes.set_shape].
  destruct (torch.zeros S _ _) as [e|z] eqn:Hz; [discriminate|].
  intros _. rewrite Nodes_reset_eq.
  cbn [final reshaped Nodes.shape Nodes.set_shape Nodes.set_s Nodes.s].
  rewrite (zeros_inv _ _ _ _ Hz) at 1 2. cbn [Tensor.dtype Tensor.device].
  rewrite Hz. reflexivity.
Qed.

Lemma IFNodes_reset_then_none (S : list Z) (self : IFNodes.t) :
  outcome (IFNodes.reset_ (Some S) self) = inr tt ->
  IFNodes.reset_ None (final (IFNodes.reset_ (Some S) self)) =
  IFNodes.reset_ (Some S) self.
Proof.
  rewrite (IFNodes_reset_eq (Some S) self). cbv zeta.
  destruct (outcome (Nodes.reset_ (Some S) (IFNodes.base self)))
    as [e|[]] eqn:Hb; [discriminate|].
  destruct (torch.mul _ _) as [e|v1] eqn:Hv; [discriminate|].
  intros _. rewrite IFNodes_reset_eq. cbv zeta. cbn [final IFNodes.base
    IFNodes.set_v IFNodes.set_base IFNodes.reset].
  rewrite (Nodes_reset_then_none _ _ Hb). rewrite Hb, Hv. reflexivity.
Qed.

Lemma LIFNodes_reset_then_none (S : list Z) (self : LIFNodes.t) :
  outcome (LIFNodes.reset_ (Some S) self) = inr tt ->
  LIFNodes.reset_ None (final (LIFNodes.reset_ (Some S) self)) =
  LIFNodes.reset_ (Some S) self.
Proof.
  rewrite (LIFNodes_reset_eq (Some S) self). cbv zeta.
  destruct (outcome (Nodes.reset_ (Some S) (LIFNodes.base self)))
    as [e|[]] eqn:Hb; [discriminate|].
  destruct (torch.mul _ _) as [e|v1] eqn:Hv; [discriminate|].
  intros _. rewrite LIFNodes_reset_eq. cbv zeta. cbn [final LIFNodes.base
    LIFNodes.set_v LIFNodes.set_base LIFNodes.reset].
  rewrite (Nodes_reset_then_none _ _ Hb). rewrite Hb, Hv. reflexivity.
Qed.

Lemma then_is_first {St : Type} (m m' : M St unit) (st : St) :
  calls (m st) = [] ->
  (outcome (m st) = inr tt -> m' (final (m st)) = m st) ->
  (m;; m') st = m st.
Proof.
  intros Hc Hagain. rewrite bind_run.
  destruct (m st) as [o f c] eqn:Hr. simpl in *. subst c.
  destruct o as [e|[]]; [reflexivity|].
  rewrite (Hagain eq_refl). reflexivity.
Qed.

(** X6: once [reset_] has been given a shape, [reset_] without a shape
    repeats it: the two calls in a row end as the first alone, in all three
    classes and also when the first call raises. *)
Theorem X6_reset_without_shape_repeats (S : list Z) :
  (forall self : Nodes.t,
     (Nodes.reset_ (Some S);; Nodes.reset_ None) self =
     Nodes.reset_ (Some S) self) /\
  (forall self : IFNodes.t,
     (IFNodes.reset_ (Some S);; IFNodes.reset_ None) self =
     IFNodes.reset_ (Some S) self) /\
  (forall self : LIFNodes.t,
     (LIFNodes.reset_ (Some S);; LIFNodes.reset_ None) self =
     LIFNodes.reset_ (Some S) self).
Proof.
  repeat split; intros self; apply then_is_first.
  - apply Nodes_reset_calls.
  - apply Nodes_reset_then_none.
  - apply IFNodes_reset_calls.
  - apply IFNodes_reset_then_none.
  - apply LIFNodes_reset_calls.
  - apply LIFNodes_reset_then_none.
Qed.
Lemma Nodes_reset_after (S1 S2 : list Z) (self : Nodes.t) :
  outcome (Nodes.reset_ (Some S1) self) = inr tt ->
  outcome (Nodes.reset_ (Some S2) self) = inr tt ->
  Nodes.reset_ (Some S2) (final (Nodes.reset_ (Some S1) self)) =
  Nodes.reset_ (Some S2) self.
Proof.
  rewrite (Nodes_reset_eq (Some S1) self), (Nodes_reset_eq (Some S2) self).
  cbn [reshaped Nodes.shape Nodes.set_shape].
  destruct (torch.zeros S1 _ _) as [e|z1] eqn:Hz1; [discriminate|].
  destruct (torch.zeros S2 _ _) as [e|z2] eqn:Hz2; [discriminate|].
  intros _ _. rewrite Nodes_reset_eq.
  cbn [final reshaped Nodes.shape Nodes.set_shape Nodes.set_s Nodes.s].
  rewrite (zeros_inv _ _ _ _ Hz1). cbn [Tensor.dtype Tensor.device].
  rewrite Hz2. reflexivity.
Qed.

(** X7: the last reshape wins: when [reset_] succeeds with a first shape
    and would succeed with a second, the two calls in a row end as the
    second alone, in all three classes. *)
Theorem X7_last_reset_wins (S1 S2 : list Z) :
  (forall self : Nodes.t,
     outcome (Nodes.reset_ (Some S1) self) = inr tt ->
     outcome (Nodes.reset_ (Some S2) self) = inr tt ->
     (Nodes.reset_ (Some S1);; Nodes.reset_ (Some S2)) self =
     Nodes.reset_ (Some S2) self) /\
  (forall self : IFNodes.t,
     outcome (IFNodes.reset_ (Some S1) self) = inr tt ->
     outcome (IFNodes.reset_ (Some S2) self) = inr tt ->
     (IFNodes.reset_ (Some S1);; IFNodes.reset_ (Some S2)) self =
     IFNodes.reset_ (Some S2) self) /\
  (forall self : LIFNodes.t,
     outcome (LIFNodes.reset_ (Some S1) self) = inr tt ->
     outcome (LIFNodes.reset_ (Some S2) self) = inr tt ->
     (LIFNodes.reset_ (Some S1);; LIFNodes.reset_ (Some S2)) self =
     LIFNodes.reset_ (Some S2) self).
Proof.
  split; [|split]; intros self Hfirst Hsecond; rewrite bind_run.
  - rewrite Hfirst, Nodes_reset_calls.
    rewrite (Nodes_reset_after _ _ _ Hfirst Hsecond).
    destruct (Nodes.reset_ (Some S2) self). reflexivity.
  - rewrite Hfirst, IFNodes_reset_calls. cbn [app].
    revert Hfirst Hsecond.
    rewrite (IFNodes_reset_eq (Some S1) self),
      (IFNodes_reset_eq (Some S2) self). cbv zeta.
    destruct (outcome (Nodes.reset_ (Some S1) (IFNodes.base self)))
      as [e|[]] eqn:Hb1; [discriminate|].
    destruct (torch.mul _ _) as [e|v1]; [discriminate|].
    destruct (outcome (Nodes.reset_ (Some S2) (IFNodes.base self)))
      as [e|[]] eqn:Hb2; [discriminate|].
    destruct (torch.mul _ _) as [e|v2] eqn:Hv2; [discriminate|].
    intros _ _. rewrite IFNodes_reset_eq. cbv zeta.
    cbn [final IFNodes.base IFNodes.set_v IFNodes.set_base IFNodes.reset].
    rewrite (Nodes_reset_after _ _ _ Hb1 Hb2), Hb2, Hv2. reflexivity.
  - rewrite Hfirst, LIFNodes_reset_calls. cbn [app].
    revert Hfirst Hsecond.
    rewrite (LIFNodes_reset_eq (Some S1) self),
      (LIFNodes_reset_eq (Some S2) self). cbv zeta.
    destruct (outcome (Nodes.reset_ (Some S1) (LIFNodes.base self)))
      as [e|[]] eqn:Hb1; [discriminate|].
    destruct (torch.mul _ _) as [e|v1]; [discriminate|].
    destruct (outcome (Nodes.reset_ (Some S2) (LIFNodes.base self)))
      as [e|[]] eqn:Hb2; [discriminate|].
    destruct (torch.mul _ _) as [e|v2] eqn:Hv2; [discriminate|].
    intros _ _. rewrite LIFNodes_reset_eq. cbv zeta.
    cbn [final LIFNodes.base LIFNodes.set_v LIFNodes.set_base
         LIFNodes.reset].
    rewrite (Nodes_reset_after _ _ _ Hb1 Hb2), Hb2, Hv2. reflexivity.
Qed.

Lemma Nodes_reset_forgets_spikes (S : list Z) (s' : Tensor.t)
    (self : Nodes.t) :
  Tensor.dtype s' = Tensor.dtype (Nodes.s self) ->
  Tensor.device s' = Tensor.device (Nodes.s self) ->
  outcome (Nodes.reset_ (Some S) self) = inr tt ->
  Nodes.reset_ (Some S) (Nodes.set_s s' self) = Nodes.reset_ (Some S) self.
Proof.
  intros Hty Hdev. rewrite !Nodes_reset_eq.
  cbn [reshaped Nodes.shape Nodes.set_shape Nodes.set_s Nodes.s].
  rewrite Hty, Hdev.
  destruct (torch.zeros S _ _); [discriminate|reflexivity].
Qed.

(** X8: a reset forgets the update before it: when both kernels return
    spikes of the numeric type and on the device of the spikes they replace,
    and the reset succeeds, an update followed by [reset_] with a shape
    leaves the population exactly as that reset alone. *)
Theorem X8_reset_forgets_update (S : list Z) (x v1 s2 v2 : Tensor.t) :
  (forall self : IFNodes.t,
     F.if_update x (IFNodes.v self) = inr v1 ->
     F.super_spike_update v1 (IFNodes.thresh self) (IFNodes.reset self)
       (IFNodes.lbound self) (IFNodes.scale self) = inr (s2, v2) ->
     Tensor.dtype s2 = Tensor.dtype (Nodes.s (IFNodes.base self)) ->
     Tensor.device s2 = Tensor.device (Nodes.s (IFNodes.base self)) ->
     outcome (IFNodes.reset_ (Some S) self) = inr tt ->
     outcome ((IFNodes.forward x;; IFNodes.reset_ (Some S)) self) = inr tt /\
     final ((IFNodes.forward x;; IFNodes.reset_ (Some S)) self) =
       final (IFNodes.reset_ (Some S) self)) /\
  (forall self : LIFNodes.t,
     F.lif_update x (LIFNodes.v self) (LIFNodes.tc_decay self)
       (LIFNodes.rest self) = inr v1 ->
     F.super_spike_update v1 (LIFNodes.thresh self) (LIFNodes.reset self)
       (LIFNodes.lbound self) (LIFNodes.scale self) = inr (s2, v2) ->
     Tensor.dtype s2 = Tensor.dtype (Nodes.s (LIFNodes.base self)) ->
     Tensor.device s2 = Tensor.device (Nodes.s (LIFNodes.base self)) ->
     outcome (LIFNodes.reset_ (Some S) self) = inr tt ->
     outcome ((LIFNodes.forward x;; LIFNodes.reset_ (Some S)) self) = inr tt
     /\
     final ((LIFNodes.forward x;; LIFNodes.reset_ (Some S)) self) =
       final (LIFNodes.reset_ (Some S) self)).
Proof.
  split; intros self Hup Hspike Hty Hdev Hok; rewrite bind_run.
  - rewrite IFNodes_forward_eq. cbv zeta. rewrite Hup, Hspike.
    cbn [outcome final calls fst snd].
    revert Hok. rewrite !IFNodes_reset_eq. cbv zeta.
    cbn [IFNodes.base IFNodes.set_v IFNodes.set_s IFNodes.set_base
         IFNodes.reset].
    destruct (outcome (Nodes.reset_ (Some S) (IFNodes.base self)))
      as [e|[]] eqn:Hb; [discriminate|].
    rewrite (Nodes_reset_forgets_spikes _ _ _ Hty Hdev Hb), Hb.
    destruct (torch.mul _ _); [discriminate|]. intros _.
    split; reflexivity.
  - rewrite LIFNodes_forward_eq. cbv zeta. rewrite Hup, Hspike.
    cbn [outcome final calls fst snd].
    revert Hok. rewrite !LIFNodes_reset_eq. cbv zeta.
    cbn [LIFNodes.base LIFNodes.set_v LIFNodes.set_s LIFNodes.set_base
         LIFNodes.reset].
    destruct (outcome (Nodes.reset_ (Some S) (LIFNodes.base self)))
      as [e|[]] eqn:Hb; [discriminate|].
    rewrite (Nodes_reset_forgets_spikes _ _ _ Hty Hdev Hb), Hb.
    destruct (torch.mul _ _); [discriminate|]. intros _.
    split; reflexivity.
Qed.

(** ** The timestep *)

Lemma IFNodes_reset_dt (shape : option (list Z)) (self : IFNodes.t) :
  Nodes.dt (IFNodes.base (final (IFNodes.reset_ shape self))) =
  Nodes.dt (IFNodes.base self).
Proof.
  pose proof (Nodes_reset_frame shape (IFNodes.base self)) as (_ & Hdt & _).
  cbv zeta in Hdt. rewrite IFNodes_reset_eq. cbv zeta.
  destruct (outcome (Nodes.reset_ shape (IFNodes.base self)));
    [|destruct (torch.mul _ _)]; exact Hdt.
Qed.

Lemma LIFNodes_reset_dt (shape : option (list Z)) (self : LIFNodes.t) :
  Nodes.dt (LIFNodes.base (final (LIFNodes.reset_ shape self))) =
  Nodes.dt (LIFNodes.base self).
Proof.
  pose proof (Nodes_reset_frame shape (LIFNodes.base self)) as (_ & Hdt & _).
  cbv zeta in Hdt. rewrite LIFNodes_reset_eq. cbv zeta.
  destruct (outcome (Nodes.reset_ shape (LIFNodes.base self)));
    [|destruct (torch.mul _ _)]; exact Hdt.
Qed.

Lemma IFNodes_forward_dt (x : Tensor.t) (self : IFNodes.t) :
  Nodes.dt (IFNodes.base (final (IFNodes.forward x self))) =
  Nodes.dt (IFNodes.base self).
Proof.
  rewrite IFNodes_forward_eq. cbv zeta.
  destruct (F.if_update _ _);
    [|destruct (F.super_spike_update _ _ _ _ _)]; reflexivity.
Qed.

Lemma LIFNodes_forward_dt (x : Tensor.t) (self : LIFNodes.t) :
  Nodes.dt (LIFNodes.base (final (LIFNodes.forward x self))) =
  Nodes.dt (LIFNodes.base self).
Proof.
  rewrite LIFNodes_forward_eq. cbv zeta.
  destruct (F.lif_update _ _ _ _);
    [|destruct (F.super_spike_update _ _ _ _ _)]; reflexivity.
Qed.

(** X9: [set_dt] stores the timestep and nothing else, a later value
    replaces an earlier one, and the stored timestep survives any [reset_]
    and any update of the two models, whether or not they raise. *)
Theorem X9_set_dt_survives (d : Q) :
  (forall self : Nodes.t,
     let r := Nodes.set_dt d self in
     outcome r = inr tt /\ calls r = [] /\
     Nodes.dt (final r) = Some d /\ Nodes.s (final r) = Nodes.s self /\
     Nodes.n (final r) = Nodes.n self /\
     Nodes.shape (final r) = Nodes.shape self) /\
  (forall (d0 : Q) (self : Nodes.t),
     (Nodes.set_dt d0;; Nodes.set_dt d) self = Nodes.set_dt d self) /\
  (forall (shape : option (list Z)) (self : Nodes.t),
     Nodes.dt (final ((Nodes.set_dt d;; Nodes.reset_ shape) self)) =
     Some d) /\
  (forall (shape : option (list Z)) (x : Tensor.t) (self : IFNodes.t),
     Nodes.dt (IFNodes.base
       (final ((IFNodes_set_dt d;; IFNodes.reset_ shape;;
                IFNodes.forward x) self))) = Some d) /\
  (forall (shape : option (list Z)) (x : Tensor.t) (self : LIFNodes.t),
     Nodes.dt (LIFNodes.base
       (final ((LIFNodes_set_dt d;; LIFNodes.reset_ shape;;
                LIFNodes.forward x) self))) = Some d).
Proof.
  split; [|split; [|split; [|split]]].
  - intros self. cbv zeta. repeat split; reflexivity.
  - intros d0 self. reflexivity.
  - intros shape self. rewrite bind_run. cbn [outcome final calls Nodes.set_dt].
    unfold Nodes.set_dt, modify. cbn [outcome final calls].
    pose proof (Nodes_reset_frame shape (Nodes.set_dt_attr (Some d) self))
      as (_ & Hdt & _). exact Hdt.
  - intros shape x self. rewrite bind_run.
    unfold IFNodes_set_dt, zoom, Nodes.set_dt, modify.
    cbn [outcome final calls]. rewrite bind_run.
    pose proof (IFNodes_reset_dt shape
                  (IFNodes.set_base
                     (Nodes.set_dt_attr (Some d) (IFNodes.base self)) self))
      as Hdt.
    destruct (outcome (IFNodes.reset_ shape _)) as [e|[]].
    + cbn [final]. exact Hdt.
    + cbn [final]. rewrite IFNodes_forward_dt. exact Hdt.
  - intros shape x self. rewrite bind_run.
    unfold LIFNodes_set_dt, zoom, Nodes.set_dt, modify.
    cbn [outcome final calls]. rewrite bind_run.
    pose proof (LIFNodes_reset_dt shape
                  (LIFNodes.set_base
                     (Nodes.set_dt_attr (Some d) (LIFNodes.base self)) self))
      as Hdt.
    destruct (outcome (LIFNodes.reset_ shape _)) as [e|[]].
    + cbn [final]. exact Hdt.
    + cbn [final]. rewrite LIFNodes_forward_dt. exact Hdt.
Qed.
(** ** Updates that raise *)

(** X10: an update that raises stops where it raised.  If the
    voltage-update kernel raises, the population is untouched and only that
    call was made; if the spike-and-reset kernel raises, the voltage has
    already been replaced by the result of the first kernel while the
    spikes are the old ones. *)
Theorem X10_forward_stops_at_failure (x : Tensor.t) (e : exn) :
  (forall self : IFNodes.t,
     F.if_update x (IFNodes.v self) = inl e ->
     IFNodes.forward x self =
     MkRes (inl e) self [call_if_update x (IFNodes.v self)]) /\
  (forall (self : IFNodes.t) (v1 : Tensor.t),
     F.if_update x (IFNodes.v self) = inr v1 ->
     F.super_spike_update v1 (IFNodes.thresh self) (IFNodes.reset self)
       (IFNodes.lbound self) (IFNodes.scale self) = inl e ->
     IFNodes.forward x self =
     MkRes (inl e) (IFNodes.set_v v1 self)
       [call_if_update x (IFNodes.v self);
        call_super_spike_update v1 (IFNodes.thresh self)
          (IFNodes.reset self) (IFNodes.lbound self)
          (IFNodes.scale self)]) /\
  (forall self : LIFNodes.t,
     F.lif_update x (LIFNodes.v self) (LIFNodes.tc_decay self)
       (LIFNodes.rest self) = inl e ->
     LIFNodes.forward x self =
     MkRes (inl e) self
       [call_lif_update x (LIFNodes.v self) (LIFNodes.tc_decay self)
          (LIFNodes.rest self)]) /\
  (forall (self : LIFNodes.t) (v1 : Tensor.t),
     F.lif_update x (LIFNodes.v self) (LIFNodes.tc_decay self)
       (LIFNodes.rest self) = inr v1 ->
     F.super_spike_update v1 (LIFNodes.thresh self) (LIFNodes.reset self)
       (LIFNodes.lbound self) (LIFNodes.scale self) = inl e ->
     LIFNodes.forward x self =
     MkRes (inl e) (LIFNodes.set_v v1 self)
       [call_lif_update x (LIFNodes.v self) (LIFNodes.tc_decay self)
          (LIFNodes.rest self);
        call_super_spike_update v1 (LIFNodes.thresh self)
          (LIFNodes.reset self) (LIFNodes.lbound self)
          (LIFNodes.scale self)]).
Proof.
  split; [|split; [|split]].
  - intros self Hup. rewrite IFNodes_forward_eq. cbv zeta.
    rewrite Hup. reflexivity.
  - intros self v1 Hup Hspike. rewrite IFNodes_forward_eq. cbv zeta.
    rewrite Hup, Hspike. reflexivity.
  - intros self Hup. rewrite LIFNodes_forward_eq. cbv zeta.
    rewrite Hup. reflexivity.
  - intros self v1 Hup Hspike. rewrite LIFNodes_forward_eq. cbv zeta.
    rewrite Hup, Hspike. reflexivity.
Qed.

(** ** Sizes after the first reset *)

Lemma mul_ones_like_size (r s : Tensor.t) (sh : list Z) :
  Forall (fun d => 0 <= d) sh ->
  broadcasts_to r s sh ->
  exists v,
    torch.mul r (torch.ones_like (zero_spikes sh s)) = inr v /\
    Tensor.shape v = sh /\
    length (Tensor.data v) = Z.to_nat (product sh).
Proof.
  intros Hsh ([Hrpos Hrlen] & Hb & Hdev).
  unfold torch.mul. cbn [torch.ones_like zero_spikes Tensor.shape].
  rewrite Hb.
  destruct (torch.result_device r _) as [d|] eqn:Hd.
  - eexists. split; [reflexivity|]. split; [reflexivity|].
    cbn [Tensor.data]. rewrite length_zip_with.
    rewrite (expand_data_length _ _ _ Hb Hsh Hrlen).
    unfold torch.expand_data at 1. rewrite pad_left_same.
    rewrite expand_aligned_same by (try assumption; apply repeat_length).
    cbn [torch.ones_like zero_spikes Tensor.data Tensor.shape].
    rewrite repeat_length. apply Nat.min_id.
  - exfalso. revert Hd. unfold torch.result_device.
    cbn [Tensor.device Tensor.shape].
    destruct (decide _) as [|Hne]; [discriminate|].
    destruct Hdev as [Heq | ->]; [contradiction|discriminate].
Qed.

Lemma scalar_broadcasts_to (r s : Tensor.t) (sh : list Z) (q : scalar) :
  Tensor.shape r = [] -> Tensor.device r = cpu -> Tensor.data r = [q] ->
  broadcasts_to r s sh.
Proof.
  intros Hshape Hdev Hdata. split; [|split].
  - split; rewrite ?Hshape, ?Hdata; [constructor|reflexivity].
  - rewrite Hshape. apply broadcast_shapes_scalar.
  - right. unfold torch.is_cpu_scalar, Tensor.ndim.
    rewrite Hshape, Hdev. reflexivity.
Qed.


(** ** The first update after a reset *)

(** X12: the first update after a reset integrates from the reset voltage:
    for a shape the allocator accepts (at least one extent, each a
    non-negative signed 64-bit integer, together a tensor the machine can
    hold) and a reset voltage that broadcasts to it, the voltage-update
    kernel of an update that follows [reset_] is called first, on the drive
    and on a voltage of that shape holding the reset voltage at every
    position. *)
Theorem X12_update_after_reset_starts_at_reset_voltage
    (S : list Z) (x : Tensor.t) :
  (forall y, fmul y fone = y) ->
  allocatable S ->
  (forall self : IFNodes.t,
     broadcasts_to (IFNodes.reset self) (Nodes.s (IFNodes.base self)) S ->
     exists v0 rest,
       calls ((IFNodes.reset_ (Some S);; IFNodes.forward x) self) =
         call_if_update x v0 :: rest /\
       Tensor.shape v0 = S /\
       Tensor.data v0 =
         torch.expand_data (Tensor.shape (IFNodes.reset self)) S
           (Tensor.data (IFNodes.reset self))) /\
  (forall self : LIFNodes.t,
     broadcasts_to (LIFNodes.reset self) (Nodes.s (LIFNodes.base self)) S ->
     exists v0 rest,
       calls ((LIFNodes.reset_ (Some S);; LIFNodes.forward x) self) =
         call_lif_update x v0 (LIFNodes.tc_decay self) (LIFNodes.rest self)
         :: rest /\
       Tensor.shape v0 = S /\
       Tensor.data v0 =
         torch.expand_data (Tensor.shape (LIFNodes.reset self)) S
           (Tensor.data (LIFNodes.reset self))).
Proof.
  intros Hone Halloc. pose proof (allocatable_nonneg _ Halloc) as Hpos.
  split; intros self Hb; rewrite bind_run.
  - rewrite IFNodes_reset_eq. cbv zeta.
    rewrite (Nodes_reset_allocatable _ _ Halloc).
    cbn [outcome final calls Nodes.s Nodes.set_s].
    destruct (mul_ones_like_zero_spikes _ _ _ Hone Hpos Hb) as (t & d & ->).
    cbn [outcome final calls app]. rewrite IFNodes_forward_eq. cbv zeta.
    cbn [IFNodes.v IFNodes.set_v].
    destruct (F.if_update x _);
      [|destruct (F.super_spike_update _ _ _ _ _)];
      eexists _, _; (split; [reflexivity|split; reflexivity]).
  - rewrite LIFNodes_reset_eq. cbv zeta.
    rewrite (Nodes_reset_allocatable _ _ Halloc).
    cbn [outcome final calls Nodes.s Nodes.set_s].
    destruct (mul_ones_like_zero_spikes _ _ _ Hone Hpos Hb) as (t & d & ->).
    cbn [outcome final calls app]. rewrite LIFNodes_forward_eq. cbv zeta.
    cbn [LIFNodes.v LIFNodes.set_v LIFNodes.tc_decay LIFNodes.rest
         LIFNodes.set_base].
    destruct (F.lif_update x _ _ _);
      [|destruct (F.super_spike_update _ _ _ _ _)];
      eexists _, _; (split; [reflexivity|split; reflexivity]).
Qed.

(** ** Arguments of the constructors *)

(** X13: whatever is passed for them, the threshold, the reset voltage and
    the lower bound (and the resting voltage and the decay constant of the
    leaky model) end up float32 tensors that require a gradient, with the
    shape and the values of the argument, and the scale ends up a tensor
    that requires none. *)
Theorem X13_constructor_arguments
    (n : option Z) (shape : option (list Z)) :
  let shape_of (x : py_arg) :=
    match x with PyFloat _ => [] | PyTensor t => Tensor.shape t end in
  let data_of (x : py_arg) :=
    match x with
    | PyFloat q => [of_float q]
    | PyTensor t => Tensor.data t
    end in
  let trained (x : py_arg) (p : Tensor.t) :=
    Tensor.dtype p = torch_float32 /\ Tensor.requires_grad p = true /\
    Tensor.shape p = shape_of x /\ Tensor.data p = data_of x in
  (forall (thresh reset lbound scale : py_arg) (self : IFNodes.t),
     IFNodes.__init__ n shape (Some thresh) (Some reset) (Some lbound)
       (Some scale) = inr self ->
     trained thresh (IFNodes.thresh self) /\
     trained reset (IFNodes.reset self) /\
     trained lbound (IFNodes.lbound self) /\
     Tensor.requires_grad (IFNodes.scale self) = false /\
     Tensor.data (IFNodes.scale self) = data_of scale) /\
  (forall (thresh reset lbound rest tc_decay scale : py_arg)
          (self : LIFNodes.t),
     LIFNodes.__init__ n shape (Some thresh) (Some reset) (Some lbound)
       (Some rest) (Some tc_decay) (Some scale) = inr self ->
     trained thresh (LIFNodes.thresh self) /\
     trained reset (LIFNodes.reset self) /\
     trained lbound (LIFNodes.lbound self) /\
     trained rest (LIFNodes.rest self) /\
     trained tc_decay (LIFNodes.tc_decay self) /\
     Tensor.requires_grad (LIFNodes.scale self) = false /\
     Tensor.data (LIFNodes.scale self) = data_of scale).
Proof.
  cbv zeta. split.
  - intros thresh reset lbound scale self. unfold IFNodes.__init__.
    destruct (Nodes.__init__ n shape); unfold_monad; [discriminate|].
    intros [= <-].
    destruct thresh, reset, lbound, scale; repeat split; reflexivity.
  - intros thresh reset lbound rest tc_decay scale self.
    unfold LIFNodes.__init__.
    destruct (Nodes.__init__ n shape); unfold_monad; [discriminate|].
    intros [= <-].
    destruct thresh, reset, lbound, rest, tc_decay, scale;
      repeat split; reflexivity.
Qed.
(** ** Restoration: what it keeps and what it reports *)

Section LoadFrame.
Context {T : Type} {NC : NodesClass T}.
Variables (state_dict : OrderedDict) (prefix : string) (strict : bool).

(** The default restoration calls no kernel; when it is not strict it
    leaves the two lists of keys alone, and when it is strict it has
    appended the keys of exactly the registered names the snapshot lacks,
    in the order of registration. *)
Lemma default_load_report {Meta : Type} (meta : Meta) (st : load_state T) :
  let r := nn_Module._load_from_state_dict state_dict prefix meta strict st in
  calls r = [] /\
  (strict = false ->
   missing_keys (final r) = missing_keys st /\
   unexpected_keys (final r) = unexpected_keys st) /\
  (strict = true -> outcome r = inr tt ->
   missing_keys (final r) =
     missing_keys st ++
     absent_keys state_dict prefix
       (map fst (_parameters (self st) ++ _buffers (self st)))).
Proof.
  cbv zeta.
  destruct (default_load_eq state_dict prefix strict meta st)
    as (_ & Hc & _ & Hm & _ & Hlenient).
  cbv zeta in Hc, Hm, Hlenient. split; [exact Hc|]. split.
  - intros Hs. rewrite (Hlenient Hs).
    rewrite after_entries_missing, after_entries_unexpected, Hs.
    split; [apply app_nil_r|reflexivity].
  - intros Hs _. rewrite Hm, after_entries_missing, Hs. reflexivity.
Qed.

Variable get_base : T -> Nodes.t.
Hypothesis setattr_base : forall name x self,
  get_base (setattr_tensor name x self) =
  if String.eqb name "s" then Nodes.set_s x (get_base self)
  else get_base self.

Lemma default_load_count_and_dt {Meta : Type} (meta : Meta) (b0 : Nodes.t)
    (st : load_state T) :
  same_count_and_dt b0 (get_base (self st)) ->
  same_count_and_dt b0
    (get_base
       (self (final (nn_Module._load_from_state_dict state_dict prefix meta
                       strict st)))).
Proof.
  intros Hsame.
  destruct (default_load_eq state_dict prefix strict meta st)
    as (_ & _ & Hself & _).
  cbv zeta in Hself. rewrite Hself.
  apply (after_entries_base state_dict prefix strict get_base setattr_base
           (fun b => same_count_and_dt b0 b)); [|exact Hsame].
  intros b x [Hn Hdt]. split; assumption.
Qed.
End LoadFrame.

Lemma Nodes_reset_same (shape : option (list Z)) (self : Nodes.t) :
  same_count_and_dt self (final (Nodes.reset_ shape self)).
Proof.
  pose proof (Nodes_reset_frame shape self) as (Hn & Hdt & _).
  split; assumption.
Qed.

Lemma IFNodes_reset_same (shape : option (list Z)) (self : IFNodes.t) :
  same_count_and_dt (IFNodes.base self)
    (IFNodes.base (final (IFNodes.reset_ shape self))).
Proof.
  pose proof (Nodes_reset_same shape (IFNodes.base self)) as Hsame.
  rewrite IFNodes_reset_eq. cbv zeta.
  destruct (outcome (Nodes.reset_ shape (IFNodes.base self)));
    [|destruct (torch.mul _ _)]; exact Hsame.
Qed.

Lemma LIFNodes_reset_same (shape : option (list Z)) (self : LIFNodes.t) :
  same_count_and_dt (LIFNodes.base self)
    (LIFNodes.base (final (LIFNodes.reset_ shape self))).
Proof.
  pose proof (Nodes_reset_same shape (LIFNodes.base self)) as Hsame.
  rewrite LIFNodes_reset_eq. cbv zeta.
  destruct (outcome (Nodes.reset_ shape (LIFNodes.base self)));
    [|destruct (torch.mul _ _)]; exact Hsame.
Qed.

(** The restoration hook of a class whose [reset_] keeps the count and the
    timestep and logs nothing. *)
Lemma hook_count_and_dt {T : Type} {NC : NodesClass T}
    (get_base : T -> Nodes.t) {Meta : Type}
    (state_dict : OrderedDict) (prefix : string) (meta : Meta)
    (strict : bool) (st : load_state T) :
  (forall name x self,
     get_base (setattr_tensor name x self) =
     if String.eqb name "s" then Nodes.set_s x (get_base self)
     else get_base self) ->
  (forall shape self,
     same_count_and_dt (get_base self)
       (get_base (final (self_reset_ shape self))) /\
     calls (self_reset_ shape self) = []) ->
  let r := Nodes._load_from_state_dict state_dict prefix meta strict st in
  same_count_and_dt (get_base (self st)) (get_base (self (final r))) /\
  calls r = [].
Proof.
  intros Hset Hreset. cbv zeta. rewrite load_from_state_dict_eq.
  destruct (state_dict !! (prefix +:+ "s")) as [spikes|].
  - cbv zeta.
    destruct (Hreset (Some (Tensor.shape spikes)) (self st)) as [Hsame Hc].
    destruct (outcome (self_reset_ _ _)) as [e|[]].
    + cbn [final calls nn_Module.set_self self]. auto.
    + cbn [final calls]. rewrite Hc.
      destruct (default_load_report state_dict prefix strict meta
                  (nn_Module.set_self
                     (final (self_reset_ (Some (Tensor.shape spikes))
                               (self st))) st)) as (Hc' & _).
      cbv zeta in Hc'. rewrite Hc'. split; [|reflexivity].
      apply (default_load_count_and_dt state_dict prefix strict get_base
               Hset meta). exact Hsame.
  - cbn. split; [split|]; reflexivity.
Qed.

(** X14: restoration writes tensors only: in all three classes, whatever
    the snapshot and however the call ends, the neuron count and the
    timestep of the population are as before (a population built with its
    shape deferred still has no count after it was restored), and no kernel
    is called. *)
Theorem X14_restore_keeps_count_and_dt {Meta : Type}
    (state_dict : OrderedDict) (prefix : string) (meta : Meta)
    (strict : bool) :
  (forall st : load_state Nodes.t,
     let r := Nodes._load_from_state_dict state_dict prefix meta strict st in
     Nodes.n (self (final r)) = Nodes.n (self st) /\
     Nodes.dt (self (final r)) = Nodes.dt (self st) /\
     calls r = []) /\
  (forall st : load_state IFNodes.t,
     let r := Nodes._load_from_state_dict state_dict prefix meta strict st in
     Nodes.n (IFNodes.base (self (final r))) =
       Nodes.n (IFNodes.base (self st)) /\
     Nodes.dt (IFNodes.base (self (final r))) =
       Nodes.dt (IFNodes.base (self st)) /\
     calls r = []) /\
  (forall st : load_state LIFNodes.t,
     let r := Nodes._load_from_state_dict state_dict prefix meta strict st in
     Nodes.n (LIFNodes.base (self (final r))) =
       Nodes.n (LIFNodes.base (self st)) /\
     Nodes.dt (LIFNodes.base (self (final r))) =
       Nodes.dt (LIFNodes.base (self st)) /\
     calls r = []).
Proof.
  split; [|split]; intros st; cbv zeta.
  - destruct (hook_count_and_dt (fun b : Nodes.t => b) state_dict prefix
                meta strict st Nodes_setattr_base
                (fun shape self0 =>
                   conj (Nodes_reset_same shape self0)
                     (Nodes_reset_calls shape self0)))
      as ([Hn Hdt] & Hc).
    auto.
  - destruct (hook_count_and_dt IFNodes.base state_dict prefix
                meta strict st IFNodes_setattr_base
                (fun shape self0 =>
                   conj (IFNodes_reset_same shape self0)
                     (IFNodes_reset_calls shape self0)))
      as ([Hn Hdt] & Hc).
    auto.
  - destruct (hook_count_and_dt LIFNodes.base state_dict prefix
                meta strict st LIFNodes_setattr_base
                (fun shape self0 =>
                   conj (LIFNodes_reset_same shape self0)
                     (LIFNodes_reset_calls shape self0)))
      as ([Hn Hdt] & Hc).
    auto.
Qed.

(** X15: a restoration that is not strict reports no key: for every class
    of population, every snapshot and every outcome, the lists of missing
    and of unexpected keys are as the caller passed them. *)
Theorem X15_lenient_restore_reports_no_key {T : Type} {NC : NodesClass T}
    {Meta : Type} (state_dict : OrderedDict) (prefix : string)
    (meta : Meta) (st : load_state T) :
  let r := Nodes._load_from_state_dict state_dict prefix meta false st in
  missing_keys (final r) = missing_keys st /\
  unexpected_keys (final r) = unexpected_keys st.
Proof.
  cbv zeta. rewrite load_from_state_dict_eq.
  destruct (state_dict !! (prefix +:+ "s")) as [spikes|].
  - cbv zeta. destruct (outcome (self_reset_ _ _)) as [e|[]].
    + split; reflexivity.
    + cbn [final].
      destruct (default_load_report state_dict prefix false meta
                  (nn_Module.set_self
                     (final (self_reset_ (Some (Tensor.shape spikes))
                               (self st))) st)) as (_ & Hlenient & _).
      cbv zeta in Hlenient. destruct (Hlenient eq_refl) as [Hm Hu].
      rewrite Hm, Hu. split; reflexivity.
  - split; reflexivity.
Qed.

Lemma hook_missing_keys {T : Type} {NC : NodesClass T} {Meta : Type}
    (names : list string) (state_dict : OrderedDict)
    (prefix : string) (meta : Meta) (st : load_state T) :
  (forall self0 : T,
     map fst (_parameters self0 ++ _buffers self0) = names) ->
  let r := Nodes._load_from_state_dict state_dict prefix meta true st in
  outcome r = inr tt ->
  missing_keys (final r) =
    missing_keys st ++ absent_keys state_dict prefix names.
Proof.
  intros Hnames. cbv zeta. rewrite load_from_state_dict_eq.
  destruct (state_dict !! (prefix +:+ "s")) as [spikes|]; [|discriminate].
  cbv zeta. destruct (outcome (self_reset_ _ _)) as [e|[]]; [discriminate|].
  cbn [outcome final].
  destruct (default_load_report state_dict prefix true meta
              (nn_Module.set_self
                 (final (self_reset_ (Some (Tensor.shape spikes))
                           (self st))) st)) as (_ & _ & Hstrict).
  cbv zeta in Hstrict. intros Hok. rewrite (Hstrict eq_refl Hok).
  cbn [nn_Module.set_self self missing_keys]. rewrite Hnames. reflexivity.
Qed.

(** X16: a strict restoration that succeeds reports as missing exactly the
    registered parameters and buffers the snapshot has no entry for, in the
    order of registration: the reset voltage, the threshold and the lower
    bound (then the resting voltage and the decay constant of the leaky
    model), the spikes, the voltage. *)
Theorem X16_strict_restore_missing_keys {Meta : Type}
    (state_dict : OrderedDict) (prefix : string) (meta : Meta) :
  (forall st : load_state Nodes.t,
     let r := Nodes._load_from_state_dict state_dict prefix meta true st in
     outcome r = inr tt ->
     missing_keys (final r) =
       missing_keys st ++ absent_keys state_dict prefix ["s"]) /\
  (forall st : load_state IFNodes.t,
     let r := Nodes._load_from_state_dict state_dict prefix meta true st in
     outcome r = inr tt ->
     missing_keys (final r) =
       missing_keys st ++
       absent_keys state_dict prefix
         ["reset"; "thresh"; "lbound"; "s"; "v"]) /\
  (forall st : load_state LIFNodes.t,
     let r := Nodes._load_from_state_dict state_dict prefix meta true st in
     outcome r = inr tt ->
     missing_keys (final r) =
       missing_keys st ++
       absent_keys state_dict prefix
         ["reset"; "thresh"; "lbound"; "rest"; "tc_decay"; "s"; "v"]).
Proof.
  split; [|split]; intros st; apply hook_missing_keys; reflexivity.
Qed.

Lemma mul_cpu_scalar_shape (r s : Tensor.t) (sh : list Z) :
  zero_dim r ->
  exists v,
    torch.mul r (torch.ones_like (zero_spikes sh s)) = inr v /\
    Tensor.shape v = sh.
Proof.
  intros [Hshape Hdev]. unfold torch.mul.
  cbn [torch.ones_like zero_spikes Tensor.shape].
  rewrite Hshape, broadcast_shapes_scalar.
  destruct (torch.result_device r _) as [d|] eqn:Hd.
  - eexists. split; reflexivity.
  - exfalso. revert Hd. unfold torch.result_device.
    destruct (decide _); [discriminate|].
    unfold torch.is_cpu_scalar, Tensor.ndim. rewrite Hshape, Hdev.
    simpl. discriminate.
Qed.

Lemma ndim_zero_dim_not_1 (x : Tensor.t) :
  Tensor.shape x = [] -> Tensor.ndim x <> 1%nat.
Proof. unfold Tensor.ndim. intros ->. discriminate. Qed.

Lemma ndim_allocatable_not_0 (x : Tensor.t) (sh : list Z) :
  Tensor.shape x = sh -> allocatable sh -> Tensor.ndim x <> 0%nat.
Proof.
  unfold Tensor.ndim. intros -> [Hne _]. destruct sh; [congruence|].
  discriminate.
Qed.

(** X17: a snapshot that holds every registered tensor of an
    integrate-and-fire population with scalar parameters (the reset voltage
    on the CPU) is restored whole:
    for persisted spikes of extents the allocator accepts, a persisted
    voltage of the same extents and persisted scalar parameters, the
    restoration succeeds, the shape becomes that of the persisted spikes,
    every parameter and buffer holds the persisted values, and nothing is
    reported missing or mismatched. *)
Theorem X17_restore_complete_snapshot_IF {Meta : Type}
    (state_dict : OrderedDict) (prefix : string) (meta : Meta)
    (strict : bool) (mk uk : list string) (em : list error_msg)
    (self0 : IFNodes.t) (ts tv tr tth tl : Tensor.t) :
  zero_dim (IFNodes.reset self0) ->
  Tensor.shape (IFNodes.thresh self0) = [] ->
  Tensor.shape (IFNodes.lbound self0) = [] ->
  state_dict !! (prefix +:+ "s") = Some ts ->
  state_dict !! (prefix +:+ "v") = Some tv ->
  state_dict !! (prefix +:+ "reset") = Some tr ->
  state_dict !! (prefix +:+ "thresh") = Some tth ->
  state_dict !! (prefix +:+ "lbound") = Some tl ->
  allocatable (Tensor.shape ts) ->
  Tensor.shape tv = Tensor.shape ts ->
  Tensor.shape tr = [] -> Tensor.shape tth = [] -> Tensor.shape tl = [] ->
  let r :=
    Nodes._load_from_state_dict state_dict prefix meta strict
      (MkLoad self0 mk uk em) in
  let self1 := self (final r) in
  outcome r = inr tt /\
  Nodes.shape (IFNodes.base self1) = Some (Tensor.shape ts) /\
  Tensor.shape (Nodes.s (IFNodes.base self1)) = Tensor.shape ts /\
  Tensor.data (Nodes.s (IFNodes.base self1)) = Tensor.data ts /\
  Tensor.shape (IFNodes.v self1) = Tensor.shape ts /\
  Tensor.data (IFNodes.v self1) = Tensor.data tv /\
  Tensor.data (IFNodes.reset self1) = Tensor.data tr /\
  Tensor.data (IFNodes.thresh self1) = Tensor.data tth /\
  Tensor.data (IFNodes.lbound self1) = Tensor.data tl /\
  IFNodes.scale self1 = IFNodes.scale self0 /\
  missing_keys (final r) = mk /\ error_msgs (final r) = em.
Proof.
  intros Hreset Hthresh Hlbound Hs Hv Hr Hth Hl Halloc Hvs Hrs Hths Hls.
  cbv zeta. rewrite load_from_state_dict_eq, Hs. cbv zeta.
  change (self_reset_ (T:=IFNodes.t)) with IFNodes.reset_.
  cbn [self]. rewrite IFNodes_reset_eq. cbv zeta.
  rewrite (Nodes_reset_allocatable _ _ Halloc).
  cbn [outcome final calls app Nodes.s Nodes.set_s].
  destruct (mul_cpu_scalar_shape (IFNodes.reset self0)
              (Nodes.s (IFNodes.base self0)) (Tensor.shape ts) Hreset)
    as (v1 & Hmul & Hv1).
  rewrite Hmul. cbn [outcome final calls app].
  unfold nn_Module._load_from_state_dict.
  rewrite bind_run. unfold get. cbn [outcome final calls app].
  rewrite bind_run.
  cbn [_parameters _buffers IFNodes.IFNodes_class nn_Module.set_self self app
       for_each IFNodes.reset IFNodes.thresh IFNodes.lbound IFNodes.v
       IFNodes.base IFNodes.set_v IFNodes.set_base Nodes.s Nodes.set_s].
  destruct Hreset as [Hreset0 _].
  rewrite bind_run,
    (load_entry_copy state_dict prefix strict "reset" _ tr)
    by first [ assumption | congruence
             | left; apply ndim_zero_dim_not_1; assumption ].
  cbn [outcome final calls app].
  rewrite bind_run,
    (load_entry_copy state_dict prefix strict "thresh" _ tth)
    by first [ assumption | congruence
             | left; apply ndim_zero_dim_not_1; assumption ].
  cbn [outcome final calls app].
  rewrite bind_run,
    (load_entry_copy state_dict prefix strict "lbound" _ tl)
    by first [ assumption | congruence
             | left; apply ndim_zero_dim_not_1; assumption ].
  cbn [outcome final calls app].
  rewrite bind_run,
    (load_entry_copy state_dict prefix strict "s" _ ts)
    by first [ assumption | reflexivity
             | right; apply (ndim_allocatable_not_0 _ (Tensor.shape ts));
               [reflexivity | exact Halloc] ].
  cbn [outcome final calls app].
  rewrite bind_run,
    (load_entry_copy state_dict prefix strict "v" _ tv)
    by first [ assumption | congruence
             | right; apply (ndim_allocatable_not_0 _ (Tensor.shape ts));
               [exact Hv1 | exact Halloc] ].
  cbn [outcome final calls app]. rewrite ret_run.
  cbn [outcome final calls app].
  destruct strict.
  - match goal with
    | |- context [nn_Module.report_unexpected ?d ?p ?ns ?s0] =>
        pose proof (report_unexpected_frame d p ns s0) as Hloop;
        set (r2 := nn_Module.report_unexpected d p ns s0) in *
    end.
    destruct Hloop as (Ho & Hc & Hself & Hm & He).
    cbn [outcome final calls app]. rewrite Ho, Hself, Hm, He.
    cbn. rewrite Hv1. repeat split; reflexivity.
  - rewrite !ret_run. cbn. rewrite Hv1. repeat split; reflexivity.
Qed.

(** X18: the same for a leaky population, whose registry also holds the
    resting voltage and the decay constant: a snapshot with an entry for
    each of its seven registered tensors, scalar parameters and buffers of
    extents the allocator accepts, is restored whole and reports nothing. *)
Theorem X18_restore_complete_snapshot_LIF {Meta : Type}
    (state_dict : OrderedDict) (prefix : string) (meta : Meta)
    (strict : bool) (mk uk : list string) (em : list error_msg)
    (self0 : LIFNodes.t) (ts tv tr tth tl tre ttc : Tensor.t) :
  zero_dim (LIFNodes.reset self0) ->
  Tensor.shape (LIFNodes.thresh self0) = [] ->
  Tensor.shape (LIFNodes.lbound self0) = [] ->
  Tensor.shape (LIFNodes.rest self0) = [] ->
  Tensor.shape (LIFNodes.tc_decay self0) = [] ->
  state_dict !! (prefix +:+ "s") = Some ts ->
  state_dict !! (prefix +:+ "v") = Some tv ->
  state_dict !! (prefix +:+ "reset") = Some tr ->
  state_dict !! (prefix +:+ "thresh") = Some tth ->
  state_dict !! (prefix +:+ "lbound") = Some tl ->
  state_dict !! (prefix +:+ "rest") = Some tre ->
  state_dict !! (prefix +:+ "tc_decay") = Some ttc ->
  allocatable (Tensor.shape ts) ->
  Tensor.shape tv = Tensor.shape ts ->
  Tensor.shape tr = [] -> Tensor.shape tth = [] -> Tensor.shape tl = [] ->
  Tensor.shape tre = [] -> Tensor.shape ttc = [] ->
  let r :=
    Nodes._load_from_state_dict state_dict prefix meta strict
      (MkLoad self0 mk uk em) in
  let self1 := self (final r) in
  outcome r = inr tt /\
  Nodes.shape (LIFNodes.base self1) = Some (Tensor.shape ts) /\
  Tensor.shape (Nodes.s (LIFNodes.base self1)) = Tensor.shape ts /\
  Tensor.data (Nodes.s (LIFNodes.base self1)) = Tensor.data ts /\
  Tensor.shape (LIFNodes.v self1) = Tensor.shape ts /\
  Tensor.data (LIFNodes.v self1) = Tensor.data tv /\
  Tensor.data (LIFNodes.reset self1) = Tensor.data tr /\
  Tensor.data (LIFNodes.thresh self1) = Tensor.data tth /\
  Tensor.data (LIFNodes.lbound self1) = Tensor.data tl /\
  Tensor.data (LIFNodes.rest self1) = Tensor.data tre /\
  Tensor.data (LIFNodes.tc_decay self1) = Tensor.data ttc /\
  LIFNodes.scale self1 = LIFNodes.scale self0 /\
  missing_keys (final r) = mk /\ error_msgs (final r) = em.
Proof.
  intros Hreset Hthresh Hlbound Hrest Hdecay Hs Hv Hr Hth Hl Hre Htc
    Halloc Hvs Hrs Hths Hls Hres Htcs.
  cbv zeta. rewrite load_from_state_dict_eq, Hs. cbv zeta.
  change (self_reset_ (T:=LIFNodes.t)) with LIFNodes.reset_.
  cbn [self]. rewrite LIFNodes_reset_eq. cbv zeta.
  rewrite (Nodes_reset_allocatable _ _ Halloc).
  cbn [outcome final calls app Nodes.s Nodes.set_s].
  destruct (mul_cpu_scalar_shape (LIFNodes.reset self0)
              (Nodes.s (LIFNodes.base self0)) (Tensor.shape ts) Hreset)
    as (v1 & Hmul & Hv1).
  rewrite Hmul. cbn [outcome final calls app].
  unfold nn_Module._load_from_state_dict.
  rewrite bind_run. unfold get. cbn [outcome final calls app].
  rewrite bind_run.
  cbn [_parameters _buffers LIFNodes.LIFNodes_class nn_Module.set_self self
       app for_each LIFNodes.reset LIFNodes.thresh LIFNodes.lbound
       LIFNodes.rest LIFNodes.tc_decay LIFNodes.v
       LIFNodes.base LIFNodes.set_v LIFNodes.set_base Nodes.s Nodes.set_s].
  destruct Hreset as [Hreset0 _].
  rewrite bind_run,
    (load_entry_copy state_dict prefix strict "reset" _ tr)
    by first [ assumption | congruence
             | left; apply ndim_zero_dim_not_1; assumption ].
  cbn [outcome final calls app].
  rewrite bind_run,
    (load_entry_copy state_dict prefix strict "thresh" _ tth)
    by first [ assumption | congruence
             | left; apply ndim_zero_dim_not_1; assumption ].
  cbn [outcome final calls app].
  rewrite bind_run,
    (load_entry_copy state_dict prefix strict "lbound" _ tl)
    by first [ assumption | congruence
             | left; apply ndim_zero_dim_not_1; assumption ].
  cbn [outcome final calls app].
  rewrite bind_run,
    (load_entry_copy state_dict prefix strict "rest" _ tre)
    by first [ assumption | congruence
             | left; apply ndim_zero_dim_not_1; assumption ].
  cbn [outcome final calls app].
  rewrite bind_run,
    (load_entry_copy state_dict prefix strict "tc_decay" _ ttc)
    by first [ assumption | congruence
             | left; apply ndim_zero_dim_not_1; assumption ].
  cbn [outcome final calls app].
  rewrite bind_run,
    (load_entry_copy state_dict prefix strict "s" _ ts)
    by first [ assumption | reflexivity
             | right; apply (ndim_allocatable_not_0 _ (Tensor.shape ts));
               [reflexivity | exact Halloc] ].
  cbn [outcome final calls app].
  rewrite bind_run,
    (load_entry_copy state_dict prefix strict "v" _ tv)
    by first [ assumption | congruence
             | right; apply (ndim_allocatable_not_0 _ (Tensor.shape ts));
               [exact Hv1 | exact Halloc] ].
  cbn [outcome final calls app]. rewrite ret_run.
  cbn [outcome final calls app].
  destruct strict.
  - match goal with
    | |- context [nn_Module.report_unexpected ?d ?p ?ns ?s0] =>
        pose proof (report_unexpected_frame d p ns s0) as Hloop;
        set (r2 := nn_Module.report_unexpected d p ns s0) in *
    end.
    destruct Hloop as (Ho & Hc & Hself & Hm & He).
    cbn [outcome final calls app]. rewrite Ho, Hself, Hm, He.
    cbn. rewrite Hv1. repeat split; reflexivity.
  - rewrite !ret_run. cbn. rewrite Hv1. repeat split; reflexivity.
Qed.
End MoreProperties.

(** * The further properties at the concrete carrier *)

Section MoreWitnesses.
Local Existing Instance Q_scalar.
Local Existing Instance small_machine.
Local Existing Instance SpecKernels.kernels.

(** X1 at [Nodes(n=6, shape=[2, 3])], [IFNodes(n=6, shape=[2, 3])] and
    [LIFNodes(shape=[2, 3])]. *)
Lemma X1_witness :
  Nodes.__init__ (Some 6) (Some [2; 3]) = inr MoreExamples.grid_Nodes /\
  IFNodes.__init__ (Some 6) (Some [2; 3]) None None None None =
    inr MoreExamples.grid_IF /\
  LIFNodes.__init__ (Some 6) (Some [2; 3]) None None None None None None =
    inr MoreExamples.grid_LIF /\
  consistent MoreExamples.grid_Nodes /\
  consistent (IFNodes.base MoreExamples.grid_IF) /\
  consistent (LIFNodes.base MoreExamples.grid_LIF).
Proof.
  assert (Hn : Nodes.__init__ (Some 6) (Some [2; 3]) =
               inr MoreExamples.grid_Nodes) by reflexivity.
  assert (Hif : IFNodes.__init__ (Some 6) (Some [2; 3]) None None None None =
                inr MoreExamples.grid_IF) by reflexivity.
  assert (Hlif : LIFNodes.__init__ (Some 6) (Some [2; 3]) None None None
                   None None None = inr MoreExamples.grid_LIF)
    by reflexivity.
  destruct (X1_construction_consistent (Some 6) (Some [2; 3]))
    as (HN & HIF & HLIF).
  split; [exact Hn|]. split; [exact Hif|]. split; [exact Hlif|].
  split; [exact (HN _ Hn)|]. split; [exact (HIF _ _ _ _ _ Hif)|].
  exact (HLIF _ _ _ _ _ _ _ Hlif).
Defined.

(** X3 at the same three constructions. *)
Lemma X3_witness :
  Nodes.__init__ (Some 6) (Some [2; 3]) = inr MoreExamples.grid_Nodes /\
  IFNodes.__init__ (Some 6) (Some [2; 3]) None None None None =
    inr MoreExamples.grid_IF /\
  LIFNodes.__init__ (Some 6) (Some [2; 3]) None None None None None None =
    inr MoreExamples.grid_LIF /\
  Nodes.s MoreExamples.grid_Nodes = torch.FloatTensor /\
  IFNodes.v MoreExamples.grid_IF = torch.FloatTensor /\
  LIFNodes.v MoreExamples.grid_LIF = torch.FloatTensor.
Proof.
  assert (Hn : Nodes.__init__ (Some 6) (Some [2; 3]) =
               inr MoreExamples.grid_Nodes) by reflexivity.
  assert (Hif : IFNodes.__init__ (Some 6) (Some [2; 3]) None None None None =
                inr MoreExamples.grid_IF) by reflexivity.
  assert (Hlif : LIFNodes.__init__ (Some 6) (Some [2; 3]) None None None
                   None None None = inr MoreExamples.grid_LIF)
    by reflexivity.
  destruct (X3_construction_leaves_buffers_empty (Some 6) (Some [2; 3]))
    as (HN & HIF & HLIF).
  split; [exact Hn|]. split; [exact Hif|]. split; [exact Hlif|].
  split; [exact (proj1 (HN _ Hn))|].
  split; [exact (proj1 (proj2 (HIF _ _ _ _ _ Hif)))|].
  exact (proj1 (proj2 (HLIF _ _ _ _ _ _ _ Hlif))).
Defined.


(** X7 at [IFNodes()] and [LIFNodes()], reset to [2; 3] and then to [4]. *)
Lemma X7_witness :
  outcome (IFNodes.reset_ (Some [2; 3]) Examples.fresh_IF) = inr tt /\
  outcome (IFNodes.reset_ (Some [4]) Examples.fresh_IF) = inr tt /\
  (IFNodes.reset_ (Some [2; 3]);; IFNodes.reset_ (Some [4]))
    Examples.fresh_IF =
  IFNodes.reset_ (Some [4]) Examples.fresh_IF.
Proof.
  assert (H1 : outcome (IFNodes.reset_ (Some [2; 3]) Examples.fresh_IF) =
               inr tt) by (vm_compute; reflexivity).
  assert (H2 : outcome (IFNodes.reset_ (Some [4]) Examples.fresh_IF) =
               inr tt) by (vm_compute; reflexivity).
  split; [exact H1|]. split; [exact H2|].
  exact (proj1 (proj2 (X7_last_reset_wins [2; 3] [4]))
           Examples.fresh_IF H1 H2).
Defined.

(** X8 at [IFNodes()], updated under a drive that makes the second neuron
    fire and then reset to two neurons. *)
Lemma X8_witness :
  let x := Examples.mixed_drive in
  let s2 := Examples.vec [0%Q; 1%Q] in
  let v2 := Examples.vec [(-60)%Q; (-65)%Q] in
  F.if_update x (IFNodes.v Examples.fresh_IF) = inr x /\
  F.super_spike_update x (IFNodes.thresh Examples.fresh_IF)
    (IFNodes.reset Examples.fresh_IF) (IFNodes.lbound Examples.fresh_IF)
    (IFNodes.scale Examples.fresh_IF) = inr (s2, v2) /\
  outcome (IFNodes.reset_ (Some [2]) Examples.fresh_IF) = inr tt /\
  outcome ((IFNodes.forward x;; IFNodes.reset_ (Some [2]))
             Examples.fresh_IF) = inr tt /\
  final ((IFNodes.forward x;; IFNodes.reset_ (Some [2]))
           Examples.fresh_IF) =
    final (IFNodes.reset_ (Some [2]) Examples.fresh_IF).
Proof.
  cbv zeta.
  assert (Hup : F.if_update Examples.mixed_drive
                  (IFNodes.v Examples.fresh_IF) =
                inr Examples.mixed_drive) by (vm_compute; reflexivity).
  assert (Hspike : F.super_spike_update Examples.mixed_drive
                     (IFNodes.thresh Examples.fresh_IF)
                     (IFNodes.reset Examples.fresh_IF)
                     (IFNodes.lbound Examples.fresh_IF)
                     (IFNodes.scale Examples.fresh_IF) =
                   inr (Examples.vec [0%Q; 1%Q],
                        Examples.vec [(-60)%Q; (-65)%Q]))
    by (vm_compute; reflexivity).
  assert (Hreset : outcome (IFNodes.reset_ (Some [2]) Examples.fresh_IF) =
                   inr tt) by (vm_compute; reflexivity).
  split; [exact Hup|]. split; [exact Hspike|]. split; [exact Hreset|].
  exact (proj1 (X8_reset_forgets_update [2] Examples.mixed_drive
                  Examples.mixed_drive (Examples.vec [0%Q; 1%Q])
                  (Examples.vec [(-60)%Q; (-65)%Q]))
           Examples.fresh_IF Hup Hspike eq_refl eq_refl Hreset).
Defined.

(** X10 at a population of two neurons driven by three values, which the
    first kernel refuses, and at a population with three thresholds driven
    by two values, which the second kernel refuses. *)
Lemma X10_witness :
  F.if_update MoreExamples.wide_drive (IFNodes.v Examples.stepped_IF) =
    inl RuntimeError /\
  IFNodes.forward MoreExamples.wide_drive Examples.stepped_IF =
    MkRes (inl RuntimeError) Examples.stepped_IF
      [call_if_update MoreExamples.wide_drive
         (IFNodes.v Examples.stepped_IF)] /\
  F.if_update Examples.weak_drive
    (IFNodes.v MoreExamples.per_neuron_thresh_IF) =
    inr Examples.weak_drive /\
  F.super_spike_update Examples.weak_drive
    (IFNodes.thresh MoreExamples.per_neuron_thresh_IF)
    (IFNodes.reset MoreExamples.per_neuron_thresh_IF)
    (IFNodes.lbound MoreExamples.per_neuron_thresh_IF)
    (IFNodes.scale MoreExamples.per_neuron_thresh_IF) = inl RuntimeError /\
  outcome (IFNodes.forward Examples.weak_drive
             MoreExamples.per_neuron_thresh_IF) = inl RuntimeError /\
  final (IFNodes.forward Examples.weak_drive
           MoreExamples.per_neuron_thresh_IF) =
    IFNodes.set_v Examples.weak_drive MoreExamples.per_neuron_thresh_IF.
Proof.
  assert (H1 : F.if_update MoreExamples.wide_drive
                 (IFNodes.v Examples.stepped_IF) = inl RuntimeError)
    by (vm_compute; reflexivity).
  assert (H2 : F.if_update Examples.weak_drive
                 (IFNodes.v MoreExamples.per_neuron_thresh_IF) =
               inr Examples.weak_drive) by (vm_compute; reflexivity).
  assert (H3 : F.super_spike_update Examples.weak_drive
                 (IFNodes.thresh MoreExamples.per_neuron_thresh_IF)
                 (IFNodes.reset MoreExamples.per_neuron_thresh_IF)
                 (IFNodes.lbound MoreExamples.per_neuron_thresh_IF)
                 (IFNodes.scale MoreExamples.per_neuron_thresh_IF) =
               inl RuntimeError) by (vm_compute; reflexivity).
  destruct (X10_forward_stops_at_failure MoreExamples.wide_drive
              RuntimeError) as (Hfirst & _).
  destruct (X10_forward_stops_at_failure Examples.weak_drive
              RuntimeError) as (_ & Hsecond & _).
  split; [exact H1|]. split; [exact (Hfirst Examples.stepped_IF H1)|].
  split; [exact H2|]. split; [exact H3|].
  rewrite (Hsecond MoreExamples.per_neuron_thresh_IF Examples.weak_drive
             H2 H3).
  split; reflexivity.
Defined.


(** X12 at [IFNodes()], reset to [2; 3] and driven. *)
Lemma X12_witness :
  (forall x : Q, Qmult x 1 = x) /\
  allocatable [2; 3] /\
  broadcasts_to (IFNodes.reset Examples.fresh_IF)
    (Nodes.s (IFNodes.base Examples.fresh_IF)) [2; 3] /\
  exists v0 rest,
    calls ((IFNodes.reset_ (Some [2; 3]);;
            IFNodes.forward Examples.weak_drive) Examples.fresh_IF) =
      call_if_update Examples.weak_drive v0 :: rest /\
    Tensor.shape v0 = [2; 3] /\
    Tensor.data v0 =
      torch.expand_data (Tensor.shape (IFNodes.reset Examples.fresh_IF))
        [2; 3] (Tensor.data (IFNodes.reset Examples.fresh_IF)).
Proof.
  assert (Halloc : allocatable [2; 3]).
  { split; [discriminate|]. split; [|reflexivity].
    repeat constructor; lia. }
  assert (Hif : broadcasts_to (IFNodes.reset Examples.fresh_IF)
                  (Nodes.s (IFNodes.base Examples.fresh_IF)) [2; 3]).
  { repeat split; try reflexivity; [constructor|left; reflexivity]. }
  split; [exact Q_mul_one|]. split; [exact Halloc|]. split; [exact Hif|].
  exact (proj1 (X12_update_after_reset_starts_at_reset_voltage [2; 3]
                  Examples.weak_drive Q_mul_one Halloc)
           Examples.fresh_IF Hif).
Defined.

(** X13 at [IFNodes(thresh=-50.0, reset=-70.0, lbound=-1000.0, scale=10.0)].
 *)
Lemma X13_witness :
  exists self : IFNodes.t,
    IFNodes.__init__ None None (Some (PyFloat (-50))) (Some (PyFloat (-70)))
      (Some (PyFloat (-1000))) (Some (PyFloat 10)) = inr self /\
    Tensor.data (IFNodes.thresh self) = [Qred (-50)] /\
    Tensor.requires_grad (IFNodes.thresh self) = true /\
    Tensor.requires_grad (IFNodes.scale self) = false.
Proof.
  eexists. split; [reflexivity|].
  destruct (proj1 (X13_constructor_arguments None None)
              (PyFloat (-50)) (PyFloat (-70)) (PyFloat (-1000))
              (PyFloat 10) _ eq_refl)
    as ((_ & Hgrad & _ & Hdata) & _ & _ & Hscale & _).
  split; [exact Hdata|]. split; [exact Hgrad|exact Hscale].
Defined.

(** X16 at [IFNodes()] and a snapshot that holds the two buffers only. *)
Lemma X16_witness :
  let r :=
    Nodes._load_from_state_dict (Meta:=unit) Examples.snapshot "" tt true
      (MkLoad Examples.fresh_IF [] [] []) in
  outcome r = inr tt /\
  missing_keys (final r) =
    [] ++ absent_keys Examples.snapshot ""
            ["reset"; "thresh"; "lbound"; "s"; "v"].
Proof.
  cbv zeta.
  assert (Hok : outcome
                  (Nodes._load_from_state_dict (Meta:=unit) Examples.snapshot
                     "" tt true (MkLoad Examples.fresh_IF [] [] [])) =
                inr tt) by (vm_compute; reflexivity).
  split; [exact Hok|].
  exact (proj1 (proj2 (X16_strict_restore_missing_keys Examples.snapshot ""
                         tt))
           (MkLoad Examples.fresh_IF [] [] []) Hok).
Defined.

(** X17 at [IFNodes()] and a complete snapshot of two neurons. *)
Lemma X17_witness :
  let r :=
    Nodes._load_from_state_dict (Meta:=unit) MoreExamples.full_snapshot ""
      tt true (MkLoad Examples.fresh_IF [] [] []) in
  zero_dim (IFNodes.reset Examples.fresh_IF) /\
  allocatable [2] /\
  outcome r = inr tt /\
  Tensor.data (Nodes.s (IFNodes.base (self (final r)))) = [0%Q; 1%Q] /\
  Tensor.data (IFNodes.v (self (final r))) = [(-60)%Q; (-65)%Q] /\
  Tensor.data (IFNodes.reset (self (final r))) = [(-70)%Q] /\
  missing_keys (final r) = [].
Proof.
  cbv zeta.
  assert (Hzero : zero_dim (IFNodes.reset Examples.fresh_IF))
    by (split; reflexivity).
  assert (Halloc : allocatable [2]).
  { split; [discriminate|]. split; [|reflexivity].
    repeat constructor; lia. }
  assert (Hs : MoreExamples.full_snapshot !! ("" +:+ "s") =
               Some (Examples.vec [0%Q; 1%Q])) by (vm_compute; reflexivity).
  assert (Hv : MoreExamples.full_snapshot !! ("" +:+ "v") =
               Some (Examples.vec [(-60)%Q; (-65)%Q]))
    by (vm_compute; reflexivity).
  assert (Hr : MoreExamples.full_snapshot !! ("" +:+ "reset") =
               Some (Examples.scalar_param (-70)))
    by (vm_compute; reflexivity).
  assert (Hth : MoreExamples.full_snapshot !! ("" +:+ "thresh") =
                Some (Examples.scalar_param (-50)))
    by (vm_compute; reflexivity).
  assert (Hl : MoreExamples.full_snapshot !! ("" +:+ "lbound") =
               Some (Examples.scalar_param (-1000)))
    by (vm_compute; reflexivity).
  destruct (X17_restore_complete_snapshot_IF MoreExamples.full_snapshot ""
              tt true [] [] [] Examples.fresh_IF _ _ _ _ _
              Hzero eq_refl eq_refl Hs Hv Hr Hth Hl Halloc eq_refl
              eq_refl eq_refl eq_refl)
    as (Hok & _ & _ & Hsd & _ & Hvd & Hrd & _ & _ & _ & Hmk & _).
  split; [exact Hzero|]. split; [exact Halloc|]. split; [exact Hok|].
  split; [exact Hsd|]. split; [exact Hvd|]. split; [exact Hrd|exact Hmk].
Defined.

(** X18 at [LIFNodes()] and a complete snapshot of two neurons. *)
Lemma X18_witness :
  let r :=
    Nodes._load_from_state_dict (Meta:=unit) MoreExamples.full_snapshot_LIF
      "" tt false (MkLoad Examples.fresh_LIF [] [] []) in
  zero_dim (LIFNodes.reset Examples.fresh_LIF) /\
  allocatable [2] /\
  outcome r = inr tt /\
  Tensor.data (LIFNodes.v (self (final r))) = [(-60)%Q; (-65)%Q] /\
  Tensor.data (LIFNodes.rest (self (final r))) = [(-68)%Q] /\
  Tensor.data (LIFNodes.tc_decay (self (final r))) = [50%Q] /\
  error_msgs (final r) = [].
Proof.
  cbv zeta.
  assert (Hzero : zero_dim (LIFNodes.reset Examples.fresh_LIF))
    by (split; reflexivity).
  assert (Halloc : allocatable [2]).
  { split; [discriminate|]. split; [|reflexivity].
    repeat constructor; lia. }
  assert (Hs : MoreExamples.full_snapshot_LIF !! ("" +:+ "s") =
               Some (Examples.vec [0%Q; 1%Q])) by (vm_compute; reflexivity).
  assert (Hv : MoreExamples.full_snapshot_LIF !! ("" +:+ "v") =
               Some (Examples.vec [(-60)%Q; (-65)%Q]))
    by (vm_compute; reflexivity).
  assert (Hr : MoreExamples.full_snapshot_LIF !! ("" +:+ "reset") =
               Some (Examples.scalar_param (-70)))
    by (vm_compute; reflexivity).
  assert (Hth : MoreExamples.full_snapshot_LIF !! ("" +:+ "thresh") =
                Some (Examples.scalar_param (-50)))
    by (vm_compute; reflexivity).
  assert (Hl : MoreExamples.full_snapshot_LIF !! ("" +:+ "lbound") =
               Some (Examples.scalar_param (-1000)))
    by (vm_compute; reflexivity).
  assert (Hre : MoreExamples.full_snapshot_LIF !! ("" +:+ "rest") =
                Some (Examples.scalar_param (-68)))
    by (vm_compute; reflexivity).
  assert (Htc : MoreExamples.full_snapshot_LIF !! ("" +:+ "tc_decay") =
                Some (Examples.scalar_param 50))
    by (vm_compute; reflexivity).
  destruct (X18_restore_complete_snapshot_LIF MoreExamples.full_snapshot_LIF
              "" tt false [] [] [] Examples.fresh_LIF _ _ _ _ _ _ _
              Hzero eq_refl eq_refl eq_refl eq_refl Hs Hv Hr Hth Hl Hre Htc
              Halloc eq_refl eq_refl eq_refl eq_refl eq_refl eq_refl)
    as (Hok & _ & _ & _ & _ & Hvd & _ & _ & _ & Hred & Htcd & _ & _ & Hem).
  split; [exact Hzero|]. split; [exact Halloc|]. split; [exact Hok|].
  split; [exact Hvd|]. split; [exact Hred|]. split; [exact Htcd|exact Hem].
Defined.
End MoreWitnesses.
